(** * Magic Pass Resort Picker: scoring engine, services and orchestrator

    A shallow embedding of the backend's scoring engine
    ([core/scoring.py]), recommendation orchestrator ([core/recommender.py]),
    in-memory cache ([utils/cache.py]), progress tracker
    ([utils/progress.py]) and the parts of the weather, snow, transport and
    LLM services that decide how failures, missing data and cached data are
    handled.

    Python [float] is IEEE 754 binary64, which is exactly Rocq's primitive
    [float]; Python [int] is [Z]; [str] is [string]; [Optional[T]] is
    [option T]; a [dict] keyed by resort id is a [gmap string _]; a call that
    can raise returns an [Outcome]. *)

From Stdlib Require Import Floats ZArith List String Ascii Bool Lia DecimalString.
From Stdlib Require Import Permutation Sorted.
From stdpp Require Import gmap strings list.

Set Warnings "-inexact-float".

(** ** Python built-ins the backend relies on *)

Module Py.

(** Outcome of a call that may raise. *)
Inductive Outcome (A : Type) : Type :=
| Returned (a : A)
| Raised (e : string).
Arguments Returned {A} a.
Arguments Raised {A} e.

Definition bind {A B} (c : Outcome A) (k : A -> Outcome B) : Outcome B :=
  match c with
  | Returned a => k a
  | Raised e => Raised e
  end.

Notation "x <- c ;; k" := (bind c (fun x => k))
  (at level 100, c at next level, right associativity).

(** [str(n)] for an [int]. *)
Definition str_of_int (n : Z) : string := NilZero.string_of_int (Z.to_int n).

(** Nearest integer to [a / b] ([0 <= a], [0 < b]), ties to even. *)
Definition div_half_even (a b : Z) : Z :=
  let q := (a / b)%Z in
  let r := (a mod b)%Z in
  match (2 * r ?= b)%Z with
  | Lt => q
  | Gt => (q + 1)%Z
  | Eq => if Z.even q then q else (q + 1)%Z
  end.

(** [|x| * 10^nd] rounded to the nearest integer, ties to even, for the
    finite non-zero float of magnitude [m * 2^e].  This is the digit string
    CPython's correctly rounded [dtoa] (mode 3) yields for [nd] decimals. *)
Definition scaled_digits (nd : nat) (m : positive) (e : Z) : Z :=
  let num := (Z.pos m * 10 ^ Z.of_nat nd)%Z in
  if (0 <=? e)%Z then (num * 2 ^ e)%Z else div_half_even num (2 ^ (- e)).

(** [round(x, 1)]: the exact binary value is rounded to one decimal (ties to
    even) and the decimal is converted back to the nearest double.  NaN,
    infinities, zeros and integral values round to themselves. *)
Definition round1 (x : float) : float :=
  match Prim2SF x with
  | S754_finite s m e =>
      if (0 <=? e)%Z then x
      else match scaled_digits 1 m e with
           | Z.pos p =>
               SF2Prim (SFdiv prec emax (S754_finite s p 0) (S754_finite false 10 0))
           | _ => SF2Prim (S754_zero s)
           end
  | _ => x
  end.

(** [a / b] on two [int]s: true division, correctly rounded.  A zero divisor
    raises [ZeroDivisionError]; a quotient that rounds beyond the largest
    float raises [OverflowError]. *)
Definition int_to_SF (a : Z) : spec_float :=
  match a with
  | Z0 => S754_zero false
  | Z.pos p => S754_finite false p 0
  | Z.neg p => S754_finite true p 0
  end.

Definition truediv (a b : Z) : Outcome float :=
  if (b =? 0)%Z then Raised "ZeroDivisionError"
  else
    match SFdiv prec emax (int_to_SF a) (int_to_SF b) with
    | S754_infinity _ => Raised "OverflowError"
    | quotient => Returned (SF2Prim quotient)
    end.

(** Left-pad a decimal string with zeros up to [n] characters. *)
Fixpoint zero_pad (n : nat) (s : string) : string :=
  match n with
  | O => s
  | S n' => if (String.length s <? n)%nat then zero_pad n' ("0" +:+ s) else s
  end.

Definition fixed (nd : nat) (digits : Z) : string :=
  let scale := (10 ^ Z.of_nat nd)%Z in
  let whole := str_of_int (digits / scale) in
  match nd with
  | O => whole
  | _ => whole +:+ "." +:+ zero_pad nd (str_of_int (digits mod scale))
  end.

(** [f"{x:.{nd}f}"]. *)
Definition format_f (nd : nat) (x : float) : string :=
  match Prim2SF x with
  | S754_nan => "nan"
  | S754_infinity s => if s then "-inf" else "inf"
  | S754_zero s => (if s then "-" else "") +:+ fixed nd 0
  | S754_finite s m e => (if s then "-" else "") +:+ fixed nd (scaled_digits nd m e)
  end.

(** Truthiness of an [Optional[float]]: [None] and zeros are falsy. *)
Definition truthy_float (o : option float) : bool :=
  match o with
  | Some x => negb (x =? 0)%float
  | None => false
  end.

(** Truthiness of an [Optional[int]]: [None] and [0] are falsy. *)
Definition truthy_int (o : option Z) : bool :=
  match o with
  | Some n => negb (n =? 0)%Z
  | None => false
  end.

Definition truthy_str (s : string) : bool :=
  match s with
  | EmptyString => false
  | _ => true
  end.

(** [str.lower()].  ASCII letters are folded; the Kelvin sign U+212A (UTF-8
    [E2 84 AA]) is the one non-ASCII code point whose lower case is an ASCII
    letter and is folded to [k].  Other code points are left as they are:
    their lower case is not ASCII either, so comparisons of the result
    against ASCII words are unaffected. *)
Definition lower_ascii (c : ascii) : ascii :=
  let n := nat_of_ascii c in
  if ((65 <=? n) && (n <=? 90))%nat then ascii_of_nat (n + 32) else c.

Fixpoint lower (s : string) : string :=
  match s with
  | String "226" (String "132" (String "170" rest)) => String "k" (lower rest)
  | String c rest => String (lower_ascii c) (lower rest)
  | EmptyString => EmptyString
  end.

(** [x in [w1, w2, ...]] on strings. *)
Definition str_in (x : string) (ws : list string) : bool :=
  existsb (String.eqb x) ws.

(** [sep.join(parts)]. *)
Fixpoint join (sep : string) (parts : list string) : string :=
  match parts with
  | [] => ""
  | [p] => p
  | p :: rest => p +:+ sep +:+ join sep rest
  end.

(** [l[:n]]: a negative bound counts from the end. *)
Definition slice_to {A} (n : Z) (l : list A) : list A :=
  if (0 <=? n)%Z then take (Z.to_nat n) l
  else take (Z.to_nat (Z.of_nat (length l) + n)) l.

(** [d.get(k)] on a dict whose values are themselves optional. *)
Definition dict_get {V} (d : gmap string (option V)) (k : string) : option V :=
  match d !! k with
  | Some v => v
  | None => None
  end.

(** [round(x)] to an [int]: the nearest integer, ties to even; NaN and the
    infinities raise. *)
Definition round_int (x : float) : Outcome Z :=
  match Prim2SF x with
  | S754_nan => Raised "ValueError"
  | S754_infinity _ => Raised "OverflowError"
  | S754_zero _ => Returned 0%Z
  | S754_finite s m e =>
      let n := scaled_digits 0 m e in
      Returned (if s then (- n)%Z else n)
  end.

End Py.

Import Py.

(** ** Data model ([models/]) *)

(** A [date] is kept as its proleptic Gregorian ordinal and a [datetime] as a
    count of microseconds; no operation below looks inside them except the
    weekday and the cache's expiry arithmetic. *)
Definition date := Z.
Definition datetime := Z.

Record Coordinates := {
  latitude : float;
  longitude : float
}.

Record AccessInfo := {
  nearest_station : string;
  postbus_required : bool;
  postbus_duration_minutes : option Z
}.

Record Resort := {
  id : string;
  name : string;
  region : string;
  canton : option string;
  country : string;
  coordinates : Coordinates;
  elevation_base : Z;
  elevation_top : Z;
  access : AccessInfo;
  website : string;
  magic_pass_valid : bool;
  snow_forecast_slug : option string;
  skiable_terrain_km : option float
}.

Record WeatherForecast := {
  forecast_date : date;
  temperature_min : float;
  temperature_max : float;
  precipitation_mm : float;
  snowfall_cm : option float;
  wind_speed : float;
  wind_direction : string;
  cloud_cover : Z;
  visibility : string;
  conditions : string;
  icon : string
}.

Record SnowConditions := {
  resort_id : string;
  date_updated : datetime;
  snow_base : option Z;
  snow_summit : option Z;
  new_snow_24h : option Z;
  new_snow_7d : option Z;
  snow_quality : string;
  lifts_open : option Z;
  runs_open : option Z
}.

Record JourneySegment := {
  segment_type : string;
  from_station : string;
  to_station : string;
  departure : datetime;
  arrival : datetime;
  line : string
}.

Record Journey := {
  departure_time : datetime;
  arrival_time : datetime;
  duration_minutes : Z;
  changes : Z;
  segments : list JourneySegment
}.

Record Recommendation := {
  resort : Resort;
  score : float;
  weather_score : float;
  snow_score : float;
  transport_score : float;
  size_score : float;
  weather_forecast : option WeatherForecast;
  snow_conditions : option SnowConditions;
  journey : option Journey;
  highlights : list string;
  concerns : list string;
  reasoning : string
}.

Record RecommendationsResponse := {
  recommendations : list Recommendation;
  ai_summary : string;
  generated_at : datetime;
  target_weekend : string
}.

(** ** Scoring engine ([core/scoring.py]) *)

Module ScoringEngine.

Local Open Scope float_scope.

Definition WEATHER_WEIGHT : float := 0.20.
Definition SNOW_WEIGHT : float := 0.45.
Definition TRANSPORT_WEIGHT : float := 0.10.
Definition SIZE_WEIGHT : float := 0.25.

Definition SNOW_UNAVAILABLE_PENALTY : float := 2.5.

(** The three locals every scorer updates: [score], [highlights],
    [concerns]. *)
Record Acc := {
  acc_score : float;
  acc_highlights : list string;
  acc_concerns : list string
}.

Definition start (s : float) : Acc :=
  {| acc_score := s; acc_highlights := []; acc_concerns := [] |}.

(** [score += d] *)
Definition plus (d : float) (a : Acc) : Acc :=
  {| acc_score := acc_score a + d;
     acc_highlights := acc_highlights a; acc_concerns := acc_concerns a |}.

(** [score -= d] *)
Definition minus (d : float) (a : Acc) : Acc :=
  {| acc_score := acc_score a - d;
     acc_highlights := acc_highlights a; acc_concerns := acc_concerns a |}.

(** [highlights.append(s)] *)
Definition highlight (s : string) (a : Acc) : Acc :=
  {| acc_score := acc_score a;
     acc_highlights := acc_highlights a ++ [s]; acc_concerns := acc_concerns a |}.

(** [concerns.append(s)] *)
Definition concern (s : string) (a : Acc) : Acc :=
  {| acc_score := acc_score a;
     acc_highlights := acc_highlights a; acc_concerns := acc_concerns a ++ [s] |}.

(** [max(0.0, min(10.0, score))], with Python's [min]/[max] keeping the first
    argument unless the later one is strictly smaller/greater. *)
Definition py_min (a b : float) : float := if b <? a then b else a.
Definition py_max (a b : float) : float := if a <? b then b else a.
Definition clamp (s : float) : float := py_max 0.0 (py_min 10.0 s).

(** The common tail: clamp, round, return the triple. *)
Definition finish (a : Acc) : float * list string * list string :=
  (round1 (clamp (acc_score a)), acc_highlights a, acc_concerns a).

(** *** score_weather *)

Definition avg_temp (f : WeatherForecast) : float :=
  (temperature_min f + temperature_max f) / 2.

Definition snowfall_value (f : WeatherForecast) : float :=
  match snowfall_cm f with
  | Some x => x
  | None => 0
  end.

Definition weather_temperature (f : WeatherForecast) (st : Acc) : Acc :=
  let t := avg_temp f in
  if (-12 <=? t) && (t <=? -3) then
    highlight ("Perfect ski temperature (" +:+ format_f 0 t +:+ "C)") (plus 2.0 st)
  else if ((-15 <=? t) && (t <? -3)) || ((-3 <? t) && (t <=? 0)) then
    highlight ("Good temperature (" +:+ format_f 0 t +:+ "C)") (plus 1.0 st)
  else if 2 <? t then
    concern ("Warm temperatures (" +:+ format_f 0 t +:+ "C) - possible slushy snow")
      (minus 2.0 st)
  else if t <? -15 then
    concern ("Very cold (" +:+ format_f 0 t +:+ "C)") (minus 1.0 st)
  else st.

Definition weather_snowfall (f : WeatherForecast) (st : Acc) : Acc :=
  if truthy_float (snowfall_cm f) then
    let sf := snowfall_value f in
    if 20 <=? sf then
      highlight ("Heavy snowfall expected (" +:+ format_f 0 sf +:+ "cm)") (plus 3.5 st)
    else if 10 <=? sf then
      highlight ("Good snowfall expected (" +:+ format_f 0 sf +:+ "cm)") (plus 2.5 st)
    else if 5 <=? sf then
      highlight ("Some fresh snow expected (" +:+ format_f 0 sf +:+ "cm)") (plus 1.0 st)
    else st
  else st.

Definition weather_cloud_cover (f : WeatherForecast) (st : Acc) : Acc :=
  if (cloud_cover f <? 30)%Z then
    if truthy_float (snowfall_cm f) && (5 <=? snowfall_value f) then
      highlight "Sunny conditions expected" (plus 1.5 st)
    else
      concern "Dry conditions - no fresh snow forecast"
        (highlight "Sunny conditions expected" (plus 0.5 st))
  else if (cloud_cover f <? 50)%Z then
    highlight "Partly cloudy" (plus 0.5 st)
  else if (80 <? cloud_cover f)%Z then
    concern "Overcast conditions" (minus 1.0 st)
  else st.

Definition weather_wind (f : WeatherForecast) (st : Acc) : Acc :=
  if wind_speed f <? 20 then plus 0.5 st
  else if 50 <? wind_speed f then
    concern ("Strong winds (" +:+ format_f 0 (wind_speed f) +:+ "km/h)") (minus 2.0 st)
  else if 35 <? wind_speed f then
    concern ("Moderate winds (" +:+ format_f 0 (wind_speed f) +:+ "km/h)") (minus 1.0 st)
  else st.

Definition weather_precipitation (f : WeatherForecast) (st : Acc) : Acc :=
  if (0 <? precipitation_mm f) && negb (truthy_float (snowfall_cm f)) then
    if 0 <? avg_temp f then concern "Rain expected" (minus 3.0 st) else st
  else st.

Definition score_weather (forecast : option WeatherForecast)
  : float * list string * list string :=
  match forecast with
  | None => (5.0, [], ["Weather data unavailable"])
  | Some f =>
      finish (weather_precipitation f (weather_wind f (weather_cloud_cover f
        (weather_snowfall f (weather_temperature f (start 5.0))))))
  end.

(** *** score_snow *)

Definition snow_base_depth (c : SnowConditions) (st : Acc) : Acc :=
  match snow_base c with
  | Some b =>
      if truthy_int (Some b) then
        if (150 <=? b)%Z then
          highlight ("Excellent base depth (" +:+ str_of_int b +:+ "cm)") (plus 2.5 st)
        else if (100 <=? b)%Z then
          highlight ("Good base depth (" +:+ str_of_int b +:+ "cm)") (plus 1.5 st)
        else if (60 <=? b)%Z then plus 0.5 st
        else if (b <? 40)%Z then
          concern ("Low snow base (" +:+ str_of_int b +:+ "cm)") (minus 2.0 st)
        else st
      else st
  | None => st
  end.

Definition snow_fresh_24h (c : SnowConditions) (st : Acc) : Acc :=
  match new_snow_24h c with
  | Some n =>
      if truthy_int (Some n) then
        if (20 <=? n)%Z then
          highlight ("Fresh powder! (" +:+ str_of_int n +:+ "cm in 24h)") (plus 3.0 st)
        else if (10 <=? n)%Z then
          highlight ("Fresh snow (" +:+ str_of_int n +:+ "cm in 24h)") (plus 2.0 st)
        else if (5 <=? n)%Z then plus 1.0 st
        else st
      else st
  | None => st
  end.

Definition snow_week (c : SnowConditions) (st : Acc) : Acc :=
  match new_snow_7d c with
  | Some n =>
      if truthy_int (Some n) then
        if (50 <=? n)%Z then
          highlight ("Great week of snow (" +:+ str_of_int n +:+ "cm)") (plus 1.0 st)
        else if (20 <=? n)%Z then plus 0.5 st
        else st
      else st
  | None => st
  end.

Definition snow_quality_adjust (c : SnowConditions) (st : Acc) : Acc :=
  let quality := lower (snow_quality c) in
  if str_in quality ["powder"; "fresh"] then
    highlight "Powder conditions" (plus 1.5 st)
  else if str_in quality ["packed"; "groomed"] then
    highlight "Well-groomed slopes" (plus 0.5 st)
  else if str_in quality ["icy"; "hard"] then
    concern "Icy conditions reported" (minus 2.0 st)
  else if str_in quality ["wet"; "spring"] then
    concern "Wet/spring snow" (minus 1.0 st)
  else st.

Definition score_snow (conds : option SnowConditions)
  : float * list string * list string :=
  match conds with
  | None => (SNOW_UNAVAILABLE_PENALTY, [], ["Snow data unavailable - conditions unknown"])
  | Some c =>
      finish (snow_quality_adjust c (snow_week c (snow_fresh_24h c
        (snow_base_depth c (start 5.0)))))
  end.

(** *** score_transport *)

(** [journey.duration_minutes / 60]: the one operation of the engine that can
    raise. *)
Definition journey_hours (j : Journey) : Outcome float := truediv (duration_minutes j) 60.

(** The duration bands set the score; nothing is accumulated before them. *)
Definition transport_duration (hours : float) : Acc :=
  if hours <? 2 then
    highlight ("Quick journey (" +:+ format_f 1 hours +:+ "h)") (start 10.0)
  else if hours <? 2.5 then
    highlight ("Good travel time (" +:+ format_f 1 hours +:+ "h)") (start 8.5)
  else if hours <? 3 then
    highlight ("Reasonable travel time (" +:+ format_f 1 hours +:+ "h)") (start 7.0)
  else if hours <? 3.5 then start 5.5
  else if hours <? 4 then
    concern ("Long journey (" +:+ format_f 1 hours +:+ "h)") (start 4.0)
  else
    concern ("Very long journey (" +:+ format_f 1 hours +:+ "h)") (start 2.0).

Definition transport_changes (j : Journey) (st : Acc) : Acc :=
  if (changes j =? 0)%Z then highlight "Direct connection" (plus 0.5 st)
  else if (changes j =? 1)%Z then st
  else if (changes j =? 2)%Z then minus 0.5 st
  else if (3 <=? changes j)%Z then
    concern ("Multiple changes (" +:+ str_of_int (changes j) +:+ ")") (minus 1.0 st)
  else st.

Definition score_transport (jo : option Journey)
  : Outcome (float * list string * list string) :=
  match jo with
  | None => Returned (3.0, [], ["Transport data unavailable"])
  | Some j =>
      hours <- journey_hours j ;;
      Returned (finish (transport_changes j (transport_duration hours)))
  end.

(** *** score_size *)

Definition size_band (km : float) : Acc :=
  if 200 <=? km then
    highlight ("Massive ski area (" +:+ format_f 0 km +:+ "km)") (start 10.0)
  else if 150 <=? km then
    highlight ("Very large ski area (" +:+ format_f 0 km +:+ "km)") (start 9.0)
  else if 100 <=? km then
    highlight ("Large ski area (" +:+ format_f 0 km +:+ "km)") (start 8.0)
  else if 70 <=? km then
    highlight ("Good-sized ski area (" +:+ format_f 0 km +:+ "km)") (start 7.0)
  else if 50 <=? km then start 6.0
  else if 30 <=? km then start 5.0
  else if 15 <=? km then
    concern ("Small ski area (" +:+ format_f 0 km +:+ "km)") (start 4.0)
  else if 5 <=? km then
    concern ("Very small ski area (" +:+ format_f 0 km +:+ "km)") (start 3.0)
  else
    concern ("Tiny ski area (" +:+ format_f 0 km +:+ "km)") (start 2.0).

(** No clamp here: the band score is rounded and returned. *)
Definition score_size (ro : option Resort) : float * list string * list string :=
  match ro with
  | None => (5.0, [], ["Resort size unknown"])
  | Some r =>
      match skiable_terrain_km r with
      | None => (5.0, [], ["Resort size unknown"])
      | Some km =>
          let a := size_band km in
          (round1 (acc_score a), acc_highlights a, acc_concerns a)
      end
  end.

(** *** calculate_total_score and score_resort *)

Definition calculate_total_score (weather_score snow_score transport_score size_score : float)
  : float :=
  round1 (weather_score * WEATHER_WEIGHT
          + snow_score * SNOW_WEIGHT
          + transport_score * TRANSPORT_WEIGHT
          + size_score * SIZE_WEIGHT).

Definition score_resort (weather : option WeatherForecast) (snow : option SnowConditions)
    (transport : option Journey) (resort : option Resort)
  : Outcome (float * float * float * float * float * list string * list string) :=
  let '(weather_score, weather_highlights, weather_concerns) := score_weather weather in
  let '(snow_score, snow_highlights, snow_concerns) := score_snow snow in
  scored_transport <- score_transport transport ;;
  let '(transport_score, transport_highlights, transport_concerns) := scored_transport in
  let '(size_score, size_highlights, size_concerns) := score_size resort in
  let total_score :=
    calculate_total_score weather_score snow_score transport_score size_score in
  Returned
    (total_score, weather_score, snow_score, transport_score, size_score,
     weather_highlights ++ snow_highlights ++ transport_highlights ++ size_highlights,
     weather_concerns ++ snow_concerns ++ transport_concerns ++ size_concerns).

End ScoringEngine.

(** ** The process clock and the in-memory cache ([utils/cache.py]) *)

Module Clock.

(** [datetime.now()] as a sequence of readings: every call returns the next
    one. *)
Record t := {
  reading : nat -> datetime;
  reads : nat
}.

Definition now (c : t) : datetime * t :=
  (reading c (reads c), {| reading := reading c; reads := S (reads c) |}).

(** What the [k]-th call from now will read ([k = 0] for the next one). *)
Definition peek (c : t) (k : nat) : datetime := reading c (k + reads c).

End Clock.

Module SimpleCache.

(** [timedelta(hours=h)] *)
Definition hours (h : Z) : Z := (h * 3600000000)%Z.

Section Cache.

Context {V : Type}.

(** [self._cache], with the clock its methods read. *)
Record State := {
  store : gmap string (V * datetime);
  clock : Clock.t
}.

(** A live entry is returned, an expired one deleted; the clock is read
    only when the key is present. *)
Definition get (key : string) (st : State) : option V * State :=
  match store st !! key with
  | Some (value, expiry) =>
      let '(now, clk) := Clock.now (clock st) in
      if (now <? expiry)%Z then (Some value, {| store := store st; clock := clk |})
      else (None, {| store := delete key (store st); clock := clk |})
  | None => (None, st)
  end.

Definition set (key : string) (value : V) (ttl_hours : Z) (st : State) : State :=
  let '(now, clk) := Clock.now (clock st) in
  let expiry := (now + hours ttl_hours)%Z in
  {| store := <[key := (value, expiry)]> (store st); clock := clk |}.

Definition clear (st : State) : State :=
  {| store := ∅; clock := clock st |}.

(** The keys are collected first and deleted afterwards; the count and the
    remaining entries do not depend on the order in which the dict is
    walked. *)
Definition cleanup (st : State) : nat * State :=
  let '(now, clk) := Clock.now (clock st) in
  let expired_keys :=
    map fst (List.filter (fun kv => (snd (snd kv) <=? now)%Z) (map_to_list (store st))) in
  (length expired_keys,
   {| store := fold_left (fun m key => delete key m) expired_keys (store st);
      clock := clk |}).

End Cache.

Arguments State : clear implicits.

End SimpleCache.

(** ** Weather service ([services/weather_service.py]) *)

Module WeatherService.

Section Batch.

(** [self.get_forecast] as the batch sees it: a call that returns a forecast
    or [None], or raises. *)
Variable get_forecast : float -> float -> date -> Outcome (option WeatherForecast).
Variable on_progress : option (Z -> Z -> Outcome unit).
Variable target_date : date.

(** The inner coroutine; [completed] is the enclosing counter, threaded
    through explicitly. *)
Definition fetch_with_progress (total : Z) (resort : Resort) (completed : Z)
  : Outcome (string * option WeatherForecast) * Z :=
  match get_forecast (latitude (coordinates resort)) (longitude (coordinates resort))
          target_date with
  | Raised e => (Raised e, completed)
  | Returned result =>
      let completed := (completed + 1)%Z in
      match on_progress with
      | Some callback =>
          match callback completed total with
          | Returned _ => (Returned (id resort, result), completed)
          | Raised e => (Raised e, completed)
          end
      | None => (Returned (id resort, result), completed)
      end
  end.

(** [asyncio.gather] over the tasks with [return_exceptions=True]: one outcome per task,
    in task order; the tasks are run here in list order. *)
Fixpoint gather (total : Z) (completed : Z) (resorts : list Resort)
  : list (Outcome (string * option WeatherForecast)) :=
  match resorts with
  | [] => []
  | resort :: rest =>
      let '(result, completed) := fetch_with_progress total resort completed in
      result :: gather total completed rest
  end.

(** The loop over [results]: an exception is logged and skipped, a pair is
    stored. *)
Definition store (forecasts : gmap string (option WeatherForecast))
    (result : Outcome (string * option WeatherForecast))
  : gmap string (option WeatherForecast) :=
  match result with
  | Raised _ => forecasts
  | Returned (resort_id, forecast) => <[resort_id := forecast]> forecasts
  end.

Definition get_forecasts_batch (resorts : list Resort)
  : gmap string (option WeatherForecast) :=
  let total := Z.of_nat (length resorts) in
  let results := gather total 0 resorts in
  fold_left store results ∅.

End Batch.

(** What the per-resort task hands back when the progress callback, if any,
    does not raise. *)
Definition task_result (get_forecast : float -> float -> date -> Outcome (option WeatherForecast))
    (target_date : date) (resort : Resort) : Outcome (string * option WeatherForecast) :=
  match get_forecast (latitude (coordinates resort)) (longitude (coordinates resort))
          target_date with
  | Raised e => Raised e
  | Returned result => Returned (id resort, result)
  end.

Definition raises {A} (o : Outcome A) : bool :=
  match o with
  | Raised _ => true
  | Returned _ => false
  end.

(** The outcome of the fetch for one resort. *)
Definition fetch (get_forecast : float -> float -> date -> Outcome (option WeatherForecast))
    (target_date : date) (resort : Resort) : Outcome (option WeatherForecast) :=
  get_forecast (latitude (coordinates resort)) (longitude (coordinates resort)) target_date.

(** The resorts whose fetch returns, in list order. *)
Definition fetched (get_forecast : float -> float -> date -> Outcome (option WeatherForecast))
    (target_date : date) (resorts : list Resort) : list Resort :=
  List.filter (fun resort => negb (raises (fetch get_forecast target_date resort))) resorts.

Definition progress_never_raises (on_progress : option (Z -> Z -> Outcome unit)) : Prop :=
  match on_progress with
  | Some callback => forall c t, callback c t = Returned tt
  | None => True
  end.

Definition progress_always_raises (on_progress : option (Z -> Z -> Outcome unit)) : Prop :=
  match on_progress with
  | Some callback => forall c t, raises (callback c t) = true
  | None => False
  end.

(** *** The helpers of the parser *)

Definition directions : list string := ["N"; "NE"; "E"; "SE"; "S"; "SW"; "W"; "NW"].

(** [directions[round(degrees / 45) % 8]]; the index is always in range, and
    [round] raises on NaN and the infinities. *)
Definition _degrees_to_direction (degrees : float) : Outcome string :=
  idx <- round_int (degrees / 45)%float ;;
  Returned (nth (Z.to_nat (idx mod 8)) directions "").

(** *** get_forecast *)

Section Fetch.

(** Everything inside the [try] up to the parsed forecast: the request to
    the forecast API, [raise_for_status], the decoding and
    [_parse_forecast_data].  It yields a forecast, nothing, or an
    exception. *)
Variable forecast_api : float -> float -> date -> Outcome (option WeatherForecast).
Variable isoformat : date -> string.
(** [settings.cache_enabled] and [settings.weather_cache_hours] *)
Variable cache_enabled : bool.
Variable weather_cache_hours : Z.

Definition cache_key (lat lon : float) (target_date : date) : string :=
  "weather:" +:+ format_f 4 lat +:+ ":" +:+ format_f 4 lon +:+ ":"
    +:+ isoformat target_date.

(** The cache keys of this service all start with [weather:], so the
    entries it sees in the process-wide cache are forecasts it stored. *)
Definition get_forecast (lat lon : float) (target_date : date)
    (st : SimpleCache.State WeatherForecast)
  : option WeatherForecast * SimpleCache.State WeatherForecast :=
  let key := cache_key lat lon target_date in
  let '(cached, st) := if cache_enabled then SimpleCache.get key st else (None, st) in
  match cached with
  | Some forecast => (Some forecast, st)
  | None =>
      match forecast_api lat lon target_date with
      | Returned (Some forecast) =>
          (Some forecast,
           if cache_enabled then SimpleCache.set key forecast weather_cache_hours st
           else st)
      | Returned None => (None, st)
      | Raised _ => (None, st)
      end
  end.

End Fetch.

End WeatherService.

(** ** Snow service ([services/snow_service.py]) *)

Module SnowService.

(** [o and test(o)] used as a condition. *)
Definition int_and (o : option Z) (test : Z -> bool) : bool :=
  match o with
  | Some n => truthy_int (Some n) && test n
  | None => false
  end.

(** [not o or test(o)] used as a condition. *)
Definition not_int_or (o : option Z) (test : Z -> bool) : bool :=
  match o with
  | Some n => negb (truthy_int (Some n)) || test n
  | None => true
  end.

Definition _determine_snow_quality (snow_base new_snow_24h new_snow_7d : option Z) : string :=
  if int_and new_snow_24h (fun n => 15 <=? n)%Z then "Powder"
  else if int_and new_snow_24h (fun n => 5 <=? n)%Z then "Fresh"
  else if int_and new_snow_7d (fun n => 20 <=? n)%Z then "Fresh"
  else if int_and snow_base (fun n => 30 <=? n)%Z then
    if not_int_or new_snow_7d (fun n => n <? 5)%Z then "Packed" else "Variable"
  else if int_and snow_base (fun n => n <? 30)%Z then "Variable"
  else "Unknown".

(** [x if x and x > 0 else None] *)
Definition positive_or_none (o : option Z) : option Z :=
  if int_and o (fun n => 0 <? n)%Z then o else None.

(** The last step of [_parse_open_meteo_data]: from the three metrics read off
    the response to the conditions returned, or [None] when none of them is
    of use.  [now] is the reading of [datetime.now()]. *)
Definition open_meteo_conditions (resort_id : string) (now : datetime)
    (snow_base new_snow_24h new_snow_7d : option Z) : option SnowConditions :=
  let snow_quality := _determine_snow_quality snow_base new_snow_24h new_snow_7d in
  if existsb truthy_int [snow_base; new_snow_24h; new_snow_7d] then
    Some {| resort_id := resort_id;
            date_updated := now;
            snow_base := positive_or_none snow_base;
            snow_summit := None;
            new_snow_24h := positive_or_none new_snow_24h;
            new_snow_7d := positive_or_none new_snow_7d;
            snow_quality := snow_quality;
            lifts_open := None;
            runs_open := None |}
  else None.

Section Conditions.

(** The two sources talk to the outside world, whose state is [W]; each
    catches every exception itself and answers with conditions or
    nothing. *)
Context {W : Type}.
Variable _fetch_from_snow_forecast : Resort -> W -> option SnowConditions * W.
Variable _fetch_from_open_meteo : Resort -> W -> option SnowConditions * W.
(** [settings.cache_enabled] and [settings.snow_cache_hours] *)
Variable cache_enabled : bool.
Variable snow_cache_hours : Z.

Definition truthy_slug (slug : option string) : bool :=
  match slug with
  | Some s => truthy_str s
  | None => false
  end.

Definition get_conditions (resort : Resort) (c : SimpleCache.State SnowConditions) (w : W)
  : option SnowConditions * SimpleCache.State SnowConditions * W :=
  let cache_key := "snow:" +:+ id resort in
  let '(cached, c) := if cache_enabled then SimpleCache.get cache_key c else (None, c) in
  match cached with
  | Some conditions => (Some conditions, c, w)
  | None =>
      let '(conditions, w) :=
        if truthy_slug (snow_forecast_slug resort)
        then _fetch_from_snow_forecast resort w
        else (None, w) in
      let '(conditions, w) :=
        match conditions with
        | Some found => (Some found, w)
        | None => _fetch_from_open_meteo resort w
        end in
      match conditions with
      | Some found =>
          (Some found,
           if cache_enabled then SimpleCache.set cache_key found snow_cache_hours c else c,
           w)
      | None => (None, c, w)
      end
  end.

End Conditions.

End SnowService.

(** ** Transport service ([services/transport_service.py]) *)

Module TransportService.

(** [Journey] objects are mutable and the cache hands out the very object it
    stores, so journeys live in a heap and are passed by address.  The cache
    keys of this service all start with [transport:], so the entries it sees
    in the process-wide cache are the ones it stored itself. *)
Record World := {
  heap : list Journey;
  cache : SimpleCache.State nat
}.

Definition set_cache (c : SimpleCache.State nat) (w : World) : World :=
  {| heap := heap w; cache := c |}.

Definition set_heap (h : list Journey) (w : World) : World :=
  {| heap := h; cache := cache w |}.

Definition cache_get (key : string) (w : World) : option nat * World :=
  let '(value, c) := SimpleCache.get key (cache w) in (value, set_cache c w).

Definition cache_set (key : string) (value : nat) (ttl_hours : Z) (w : World) : World :=
  set_cache (SimpleCache.set key value ttl_hours (cache w)) w.

(** [journey.duration_minutes += p] *)
Definition add_minutes (p : Z) (j : Journey) : Journey :=
  {| departure_time := departure_time j;
     arrival_time := arrival_time j;
     duration_minutes := (duration_minutes j + p)%Z;
     changes := changes j;
     segments := segments j |}.

Section Service.

(** Everything inside the [try] of [get_journey] up to the parsed journey:
    the HTTP request to the connections API and the parsing of the first
    connection.  It yields a journey, nothing, or an exception. *)
Variable connections_api : string -> string -> date -> Outcome (option Journey).
Variable isoformat : date -> string.
(** [settings.cache_enabled] and [settings.transport_cache_hours] *)
Variable cache_enabled : bool.
Variable transport_cache_hours : Z.

Definition cache_key (from_location to_location : string) (travel_date : date) : string :=
  "transport:" +:+ from_location +:+ ":" +:+ to_location +:+ ":"
    +:+ isoformat travel_date.

Definition get_journey (from_location to_location : string) (travel_date : date)
    (w : World) : option nat * World :=
  let key := cache_key from_location to_location travel_date in
  let '(cached, w) := if cache_enabled then cache_get key w else (None, w) in
  match cached with
  | Some r => (Some r, w)
  | None =>
      match connections_api from_location to_location travel_date with
      | Returned (Some j) =>
          let r := length (heap w) in
          let w := set_heap (heap w ++ [j]) w in
          let w := if cache_enabled then cache_set key r transport_cache_hours w
                   else w in
          (Some r, w)
      | Returned None => (None, w)
      | Raised _ => (None, w)
      end
  end.

Definition get_resort_journey (from_location : string) (resort : Resort)
    (travel_date : date) (w : World) : option nat * World :=
  let '(journey, w) := get_journey from_location (name resort) travel_date w in
  match journey with
  | Some r => (Some r, w)
  | None =>
      if truthy_str (nearest_station (access resort)) then
        let '(journey, w) :=
          get_journey from_location (nearest_station (access resort)) travel_date w in
        match journey, postbus_duration_minutes (access resort) with
        | Some r, Some p =>
            if truthy_int (Some p)
            then (Some r, set_heap (alter (add_minutes p) r (heap w)) w)
            else (Some r, w)
        | _, _ => (journey, w)
        end
      else (None, w)
  end.

End Service.

(** Every address the cache holds points into the heap. *)
Definition cache_valid (w : World) : Prop :=
  forall key r expiry,
    SimpleCache.store (cache w) !! key = Some (r, expiry) -> (r < length (heap w))%nat.

(** The journey at an address. *)
Definition journey_at (w : World) (r : nat) : option Journey := heap w !! r.

End TransportService.

(** ** LLM service ([services/llm_service.py]) *)

Module LLMService.

Definition _generate_fallback_summary (recs : list Recommendation) : string :=
  match recs with
  | [] => "Unable to generate recommendations at this time."
  | top :: _ =>
      let summary :=
        "Based on current conditions, " +:+ name (resort top)
          +:+ " looks like the best choice " in
      let summary :=
        summary +:+ "with a score of " +:+ format_f 1 (score top) +:+ "/10. " in
      let summary :=
        match weather_forecast top with
        | Some wf => summary +:+ "Weather forecast shows " +:+ conditions wf +:+ ". "
        | None => summary
        end in
      match journey top with
      | Some j =>
          let hours := (duration_minutes j / 60)%Z in
          let mins := (duration_minutes j mod 60)%Z in
          summary +:+ "Travel time from Geneva is approximately "
            +:+ str_of_int hours +:+ "h " +:+ str_of_int mins +:+ "min."
      | None => summary
      end
  end.

Section Client.

(** Everything inside the [try]: the chat-completion request on the prompt
    built from the recommendations and the weekend label, and the
    extraction of the reply text. *)
Variable chat_completion : list Recommendation -> string -> Outcome string.

Definition generate_recommendation_summary (recs : list Recommendation)
    (target_weekend : string) : Outcome string :=
  match recs with
  | [] =>
      Returned "Unfortunately, I couldn't generate recommendations at this time. Please try again later."
  | _ =>
      match chat_completion recs target_weekend with
      | Returned summary => Returned summary
      | Raised _ => Returned (_generate_fallback_summary recs)
      end
  end.

End Client.

End LLMService.

(** ** Recommendation orchestrator ([core/recommender.py]) *)

Module RecommenderEngine.

Import ScoringEngine.

(** [settings.start_location] *)
Definition settings_start_location : string := "Geneva".

(** The collaborators handed to the constructor, each method as the
    orchestrator uses it: awaited, and free to raise. *)
Record Services := {
  get_all_resorts : Outcome (list Resort);
  get_resort_by_id : string -> Outcome (option Resort);
  get_forecasts_batch :
    list Resort -> date -> Outcome (gmap string (option WeatherForecast));
  get_forecast : float -> float -> date -> Outcome (option WeatherForecast);
  get_conditions_batch : list Resort -> Outcome (gmap string (option SnowConditions));
  get_conditions : Resort -> Outcome (option SnowConditions);
  get_journeys_batch :
    string -> list Resort -> date -> Outcome (gmap string (option Journey));
  get_resort_journey : string -> Resort -> date -> Outcome (option Journey);
  generate_recommendation_summary : list Recommendation -> string -> Outcome string
}.

(** What the process reads from its environment: [date.today()],
    [datetime.now()] and the rendering [strftime('%b %d')]. *)
Record Runtime := {
  today : date;
  now : datetime;
  strftime_b_d : date -> string
}.

(** [date.weekday()]: Monday is 0; ordinal 1 is a Monday. *)
Definition weekday (d : date) : Z := ((d + 6) mod 7)%Z.

Definition _get_next_weekend_dates (rt : Runtime) : date * date :=
  let days_until_saturday := ((5 - weekday (today rt)) mod 7)%Z in
  let saturday :=
    if (days_until_saturday =? 0)%Z && (weekday (today rt) =? 5)%Z then today rt
    else (today rt + (if (days_until_saturday =? 0)%Z then 7 else days_until_saturday))%Z in
  let sunday := (saturday + 1)%Z in
  (saturday, sunday).

Definition _generate_reasoning (resort : Resort)
    (total_score weather_score snow_score transport_score : float) : string :=
  let parts :=
    if (8 <=? total_score)%float then [name resort +:+ " looks excellent this weekend"]
    else if (6 <=? total_score)%float then [name resort +:+ " is a solid choice"]
    else if (4 <=? total_score)%float then
      [name resort +:+ " is an option worth considering"]
    else [name resort +:+ " may not be ideal this weekend"] in
  let factors : list string := [] in
  let factors :=
    if (7 <=? weather_score)%float then factors ++ ["great weather"]
    else if (weather_score <? 4)%float then factors ++ ["challenging weather"]
    else factors in
  let factors :=
    if (7 <=? snow_score)%float then factors ++ ["excellent snow conditions"]
    else if (snow_score <? 4)%float then factors ++ ["limited snow"]
    else factors in
  let factors :=
    if (7 <=? transport_score)%float then factors ++ ["easy access"]
    else if (transport_score <? 4)%float then factors ++ ["long travel time"]
    else factors in
  let parts :=
    match factors with
    | [] => parts
    | _ => parts ++ ["with " +:+ join ", " factors]
    end in
  join ". " parts +:+ ".".

(** The body of the loop over the resorts in [generate_recommendations]. *)
Definition recommend (resort : Resort) (weather : option WeatherForecast)
    (snow : option SnowConditions) (transport : option Journey)
  : Outcome Recommendation :=
  scored <- score_resort weather snow transport (Some resort) ;;
  let '(total_score, weather_score, snow_score, transport_score, size_score,
        highlights, concerns) := scored in
  let reasoning :=
    _generate_reasoning resort total_score weather_score snow_score transport_score in
  Returned
    {| resort := resort;
       score := total_score;
       weather_score := weather_score;
       snow_score := snow_score;
       transport_score := transport_score;
       size_score := size_score;
       weather_forecast := weather;
       snow_conditions := snow;
       journey := transport;
       highlights := take 5 highlights;
       concerns := take 5 concerns;
       reasoning := reasoning |}.

(** [recommendations.sort(key=lambda r: r.score, reverse=True)]: the keys are
    compared with [<] only, the order is descending, and elements whose keys
    do not compare keep their relative order. *)
Fixpoint insert_by_score (r : Recommendation) (sorted : list Recommendation)
  : list Recommendation :=
  match sorted with
  | [] => [r]
  | x :: rest =>
      if (score r <? score x)%float then x :: insert_by_score r rest
      else r :: x :: rest
  end.

Fixpoint sort_by_score (recs : list Recommendation) : list Recommendation :=
  match recs with
  | [] => []
  | r :: rest => insert_by_score r (sort_by_score rest)
  end.

(** [x or default] on an optional string. *)
Definition str_or (x : option string) (default : string) : string :=
  match x with
  | Some s => if truthy_str s then s else default
  | None => default
  end.

(** The loop that scores every resort, in resort-list order; an exception
    from the scoring of one resort ends the loop. *)
Fixpoint score_all (resorts : list Resort)
    (weather_data : gmap string (option WeatherForecast))
    (snow_data : gmap string (option SnowConditions))
    (transport_data : gmap string (option Journey)) : Outcome (list Recommendation) :=
  match resorts with
  | [] => Returned []
  | resort :: rest =>
      recommendation <-
        recommend resort (dict_get weather_data (id resort))
          (dict_get snow_data (id resort)) (dict_get transport_data (id resort)) ;;
      recommendations <- score_all rest weather_data snow_data transport_data ;;
      Returned (recommendation :: recommendations)
  end.

(** Sort by score, highest first, and take the top N. *)
Definition take_top (num_recommendations : Z) (recs : list Recommendation)
  : list Recommendation :=
  slice_to num_recommendations (sort_by_score recs).

Definition weekend_label (rt : Runtime) : string :=
  let '(saturday, sunday) := _get_next_weekend_dates rt in
  strftime_b_d rt saturday +:+ " - " +:+ strftime_b_d rt sunday.

Definition generate_recommendations (sv : Services) (rt : Runtime)
    (start_location : option string) (target_date : option date)
    (num_recommendations : Z) : Outcome RecommendationsResponse :=
  let start_location := str_or start_location settings_start_location in
  let '(saturday, sunday) := _get_next_weekend_dates rt in
  let target_date := match target_date with Some d => d | None => saturday end in
  resorts <- get_all_resorts sv ;;
  weather_data <- get_forecasts_batch sv resorts target_date ;;
  snow_data <- get_conditions_batch sv resorts ;;
  transport_data <- get_journeys_batch sv start_location resorts target_date ;;
  recommendations <- score_all resorts weather_data snow_data transport_data ;;
  let top_recommendations := take_top num_recommendations recommendations in
  let target_weekend := weekend_label rt in
  ai_summary <- generate_recommendation_summary sv top_recommendations target_weekend ;;
  Returned {| recommendations := top_recommendations;
              ai_summary := ai_summary;
              generated_at := now rt;
              target_weekend := target_weekend |}.

Definition get_resort_details (sv : Services) (rt : Runtime) (resort_id : string)
    (target_date : option date) : Outcome (option Recommendation) :=
  found <- get_resort_by_id sv resort_id ;;
  match found with
  | None => Returned None
  | Some resort =>
      let '(saturday, _) := _get_next_weekend_dates rt in
      let target_date := match target_date with Some d => d | None => saturday end in
      weather <- get_forecast sv (latitude (coordinates resort))
                   (longitude (coordinates resort)) target_date ;;
      snow <- get_conditions sv resort ;;
      transport <- get_resort_journey sv settings_start_location resort target_date ;;
      scored <- score_resort weather snow transport (Some resort) ;;
      let '(total_score, weather_score, snow_score, transport_score, size_score,
            highlights, concerns) := scored in
      let reasoning :=
        _generate_reasoning resort total_score weather_score snow_score transport_score in
      Returned (Some {| resort := resort;
                        score := total_score;
                        weather_score := weather_score;
                        snow_score := snow_score;
                        transport_score := transport_score;
                        size_score := size_score;
                        weather_forecast := weather;
                        snow_conditions := snow;
                        journey := transport;
                        highlights := highlights;
                        concerns := concerns;
                        reasoning := reasoning |})
  end.

End RecommenderEngine.

(** ** Progress updates ([utils/progress.py]) *)

Module Progress.

Inductive ProgressStage :=
| LOADING_RESORTS
| FETCHING_WEATHER
| SCRAPING_SNOW
| FETCHING_TRANSPORT
| SCORING
| GENERATING_AI
| COMPLETE.

Record ProgressUpdate := {
  stage : ProgressStage;
  message : string;
  current : Z;
  total : Z
}.

(** The tracker: its unbounded queue, oldest update first, and the three
    private fields. *)
Record ProgressTracker := {
  queue : list ProgressUpdate;
  _current_stage : option ProgressStage;
  _current_count : Z;
  _total_count : Z
}.

Definition new_tracker : ProgressTracker :=
  {| queue := []; _current_stage := None; _current_count := 0; _total_count := 0 |}.

Definition set_stage (stage : ProgressStage) (message : string) (total : Z)
    (t : ProgressTracker) : ProgressTracker :=
  {| queue := queue t ++ [{| stage := stage; message := message; current := 0;
                             total := total |}];
     _current_stage := Some stage;
     _current_count := 0;
     _total_count := total |}.

Definition counter (current total : Z) : string :=
  "(" +:+ str_of_int current +:+ "/" +:+ str_of_int total +:+ ")".

(** [messages.get(self._current_stage, default)] *)
Definition increment_message (stage : ProgressStage) (current total : Z) : string :=
  match stage with
  | FETCHING_WEATHER => "Fetching weather from OpenWeather... " +:+ counter current total
  | SCRAPING_SNOW =>
      "Getting snow conditions from snow-forecast.com... " +:+ counter current total
  | FETCHING_TRANSPORT =>
      "Getting transport from Swiss Transport API... " +:+ counter current total
  | _ => "Processing... " +:+ counter current total
  end.

Definition increment (current total : Z) (t : ProgressTracker) : ProgressTracker :=
  match _current_stage t with
  | None => t
  | Some stage =>
      {| queue := queue t ++ [{| stage := stage;
                                 message := increment_message stage current total;
                                 current := current;
                                 total := total |}];
         _current_stage := Some stage;
         _current_count := current;
         _total_count := total |}
  end.

Definition complete (t : ProgressTracker) : ProgressTracker :=
  {| queue := queue t ++ [{| stage := COMPLETE; message := "Complete!"; current := 0;
                             total := 0 |}];
     _current_stage := _current_stage t;
     _current_count := _current_count t;
     _total_count := _total_count t |}.

(** One call on the tracker. *)
Inductive Call :=
| SetStage (stage : ProgressStage) (message : string) (total : Z)
| Increment (current total : Z)
| Complete.

Definition run (c : Call) (t : ProgressTracker) : ProgressTracker :=
  match c with
  | SetStage stage message total => set_stage stage message total t
  | Increment current total => increment current total t
  | Complete => complete t
  end.

End Progress.

(** ** The HTTP endpoints ([main.py]) *)

Module Main.

(** The default date of [get_resort_weather] and [get_transport] when the
    request names none: [today + timedelta(days=days_until_saturday or 7)]. *)
Definition default_target_date (today : date) : date :=
  let days_until_saturday := ((5 - RecommenderEngine.weekday today) mod 7)%Z in
  (today + (if (days_until_saturday =? 0)%Z then 7 else days_until_saturday))%Z.

End Main.

(** ** Vocabulary of the properties *)

Module Props.

Import ScoringEngine.
Local Open Scope float_scope.

Definition score_of (r : float * list string * list string) : float := fst (fst r).
Definition highlights_of (r : float * list string * list string) : list string :=
  snd (fst r).
Definition concerns_of (r : float * list string * list string) : list string := snd r.

(** The multiples of one half between 0 and 10. *)
Definition halves : list float :=
  [0; 0.5; 1; 1.5; 2; 2.5; 3; 3.5; 4; 4.5; 5; 5.5; 6; 6.5; 7; 7.5; 8; 8.5; 9; 9.5; 10].

(** In the closed interval [0, 10] and already rounded to one decimal. *)
Definition one_decimal_in_range (s : float) : Prop :=
  (0 <=? s) = true /\ (s <=? 10) = true /\ round1 s = s.

(** The weighted sum as the specification writes it. *)
Definition weighted_sum_spec (weather snow transport size : float) : float :=
  round1 (0.20 * weather + 0.45 * snow + 0.10 * transport + 0.25 * size).

(** The terrain size [score_size] looks at, if any. *)
Definition terrain_of (ro : option Resort) : option float :=
  match ro with
  | Some r => skiable_terrain_km r
  | None => None
  end.

(** The scores [score_size] can return. *)
Definition size_scores : list float := [2; 3; 4; 5; 6; 7; 8; 9; 10].

(** A total score usable as a sort key: not NaN, and within [0, 10]. *)
Definition total_ok (x : float) : bool :=
  negb (is_nan x) && (0 <=? x) && (x <=? 10).

(** The distinct values of [a + b] for [a] and [b] drawn from two lists, and
    of [x * k] for [x] drawn from one. *)
Definition insert_new (x : float) (l : list float) : list float :=
  if existsb (PrimFloat.Leibniz.eqb x) l then l else x :: l.

Definition sums (xs ys : list float) : list float :=
  fold_right insert_new [] (flat_map (fun a => map (fun b => a + b) ys) xs).

Definition scaled (k : float) (xs : list float) : list float := map (fun x => x * k) xs.

(** Every weighted sum [calculate_total_score] can be asked to round when the
    sub-scores are on their grids. *)
Definition weighted_sums : list float :=
  sums (sums (sums (scaled WEATHER_WEIGHT halves) (scaled SNOW_WEIGHT halves))
          (scaled TRANSPORT_WEIGHT halves)) (scaled SIZE_WEIGHT size_scores).

(** A sum that rounds to a usable total. *)
Definition rounds_ok (x : float) : bool := total_ok (round1 x).

(** A sum that rounds to a total in [0, 10] which rounding leaves alone. *)
Definition rounds_in_range (x : float) : bool :=
  let r := round1 x in
  (0 <=? r) && (r <=? 10) && PrimFloat.Leibniz.eqb (round1 r) r.

(** The total of a [score_resort] result. *)
Definition total_of
    (x : float * float * float * float * float * list string * list string) : float :=
  fst (fst (fst (fst (fst (fst x))))).

(** The length of [l[:n]] for a list of length [len]. *)
Definition slice_length (n : Z) (len : nat) : nat :=
  if (0 <=? n)%Z then Nat.min (Z.to_nat n) len else Z.to_nat (Z.of_nat len + n).

(** The float of a whole number of degrees. *)
Definition whole_degrees (d : Z) : float := SF2Prim (binary_normalize prec emax d 0 false).

(** The first number of minutes whose hours no float can hold: the quotient
    by 60 then rounds beyond the largest float (about 1.08e310 minutes). *)
Definition overflow_minutes : Z := (60 * (2 ^ 1024 - 2 ^ 970))%Z.

(** A duration below [overflow_minutes] in magnitude; an absent journey has
    none. *)
Definition duration_in_range (jo : option Journey) : Prop :=
  match jo with
  | Some j => (Z.abs (duration_minutes j) < overflow_minutes)%Z
  | None => True
  end.

(** The compass sector a whole number of degrees falls in. *)
Definition sector (d : Z) : string :=
  nth (Z.to_nat (((2 * d + 45) / 90) mod 8)) WeatherService.directions "".

(** The entry is still live at the reading [now]. *)
Definition live {V} (now : datetime) (entry : V * datetime) : bool :=
  (now <? snd entry)%Z.

(** [_degrees_to_direction] puts a whole number of degrees in its sector. *)
Definition direction_ok (d : Z) : bool :=
  match WeatherService._degrees_to_direction (whole_degrees d) with
  | Returned direction => String.eqb direction (sector d)
  | Raised _ => false
  end.

(** The labels [_determine_snow_quality] can return. *)
Definition derived_qualities : list string :=
  ["Powder"; "Fresh"; "Packed"; "Variable"; "Unknown"].

(** Present and strictly positive, or absent. *)
Definition positive_if_present (o : option Z) : Prop :=
  forall n, o = Some n -> (0 < n)%Z.

(** The tracker after a sequence of calls, first call first. *)
Definition run_all (calls : list Progress.Call) (t : Progress.ProgressTracker)
  : Progress.ProgressTracker :=
  fold_left (fun t c => Progress.run c t) calls t.

(** The first queue is an initial part of the second. *)
Definition extends (before after : list Progress.ProgressUpdate) : Prop :=
  exists added, after = before ++ added.

(** Two scores that [<] does not separate. *)
Definition tied (k x : float) : bool := negb (k <? x) && negb (x <? k).

(** No later element has a strictly greater score than an earlier one. *)
Definition descending (l : list Recommendation) : Prop :=
  forall i j a b, (i < j)%nat -> l !! i = Some a -> l !! j = Some b ->
    (score a <? score b) = false.

(** Recommendations whose scores tie with [k] keep their relative order. *)
Definition ties_in_order (input output : list Recommendation) : Prop :=
  forall k, is_nan k = false ->
    List.filter (fun r => tied k (score r)) output
    = List.filter (fun r => tied k (score r)) input.

Definition ranked_by_score (input output : list Recommendation) : Prop :=
  Permutation input output /\ descending output /\ ties_in_order input output.

(** The highlight and concern lists of a [score_resort] result. *)
Definition all_highlights
    (x : float * float * float * float * float * list string * list string)
  : list string := snd (fst x).
Definition all_concerns
    (x : float * float * float * float * float * list string * list string)
  : list string := snd x.

(** What [score_resort] yields for the data a recommendation carries. *)
Definition rescored (rec : Recommendation) :=
  score_resort (weather_forecast rec) (snow_conditions rec) (journey rec)
    (Some (resort rec)).

(** The integers [lo, lo+1, ..., lo+n-1]. *)
Definition minutes_from (lo : Z) (n : nat) : list Z :=
  map (fun k => (lo + Z.of_nat k)%Z) (seq 0 n).

(** The date the orchestrator fetches for: the one given, else the upcoming
    Saturday. *)
Definition target_date_or_saturday (rt : RecommenderEngine.Runtime)
    (target_date : option date) : date :=
  match target_date with
  | Some d => d
  | None => fst (RecommenderEngine._get_next_weekend_dates rt)
  end.

(** Resort id and score of each recommendation, in order. *)
Definition ids_and_scores (recs : list Recommendation) : list (string * float) :=
  map (fun r => (id (resort r), score r)) recs.

(** The base-depth step the tier table gives a depth below 40 cm: 2.0 off and
    the low-snow-base concern. *)
Definition low_base_concern (b : Z) : string := "Low snow base (" +:+ str_of_int b +:+ "cm)".

Definition low_base_step (b : Z) (st : Acc) : Acc :=
  concern (low_base_concern b) (minus 2.0 st).

(** The steps of [score_snow] that follow the base-depth step, and the
    triple [score_snow] returns when they start from [st]. *)
Definition after_base_depth (c : SnowConditions) (st : Acc) : Acc :=
  snow_quality_adjust c (snow_week c (snow_fresh_24h c st)).

Definition scored_from (c : SnowConditions) (st : Acc) : float * list string * list string :=
  finish (after_base_depth c st).

(** Nothing but the base depth is reported: no fresh snow figures and a
    quality label that is none of the words [score_snow] knows. *)
Definition base_depth_only (c : SnowConditions) : Prop :=
  new_snow_24h c = None /\ new_snow_7d c = None
  /\ str_in (lower (snow_quality c))
       ["powder"; "fresh"; "packed"; "groomed"; "icy"; "hard"; "wet"; "spring"] = false.

(** [b]'s score is not strictly greater than [a]'s. *)
Definition no_greater (a b : Recommendation) : Prop := (score a <? score b) = false.

(** The score is a number. *)
Definition comparable (r : Recommendation) : Prop := is_nan (score r) = false.

End Props.

(** ** Sample data *)

Module Samples.

Local Open Scope float_scope.

Definition resort_at (ident nm station : string) (postbus : option Z) (lat : float)
    (km : option float) : Resort :=
  {| id := ident; name := nm; region := "Valais"; canton := Some "VS";
     country := "Switzerland";
     coordinates := {| latitude := lat; longitude := 7.0 |};
     elevation_base := 1500%Z; elevation_top := 3000%Z;
     access := {| nearest_station := station; postbus_required := false;
                  postbus_duration_minutes := postbus |};
     website := ""; magic_pass_valid := true; snow_forecast_slug := None;
     skiable_terrain_km := km |}.

Definition snow_with (base fresh : option Z) (quality : string) : SnowConditions :=
  {| resort_id := ""; date_updated := 0%Z; snow_base := base; snow_summit := None;
     new_snow_24h := fresh; new_snow_7d := None; snow_quality := quality;
     lifts_open := None; runs_open := None |}.

Definition journey_of (minutes chg : Z) : Journey :=
  {| departure_time := 0%Z; arrival_time := 0%Z; duration_minutes := minutes;
     changes := chg; segments := [] |}.

Definition forecast_with (tmin tmax : float) (snowfall : option float) (clouds : Z)
    (wind rain : float) (text : string) : WeatherForecast :=
  {| forecast_date := 0%Z; temperature_min := tmin; temperature_max := tmax;
     precipitation_mm := rain; snowfall_cm := snowfall; wind_speed := wind;
     wind_direction := "N"; cloud_cover := clouds; visibility := "Good";
     conditions := text; icon := "" |}.

Definition powder_day : SnowConditions := snow_with (Some 160%Z) (Some 25%Z) "Powder".
Definition plain_snow : SnowConditions := snow_with (Some 50%Z) None "Unknown".
Definition bare_ground : SnowConditions := snow_with (Some 0%Z) None "Unknown".
Definition thin_cover : SnowConditions := snow_with (Some 30%Z) None "Unknown".

Definition alpha : Resort := resort_at "alpha" "Alpha" "Alpha Gare" None 46.1 (Some 210).
Definition bravo : Resort := resort_at "bravo" "Bravo" "Bravo Gare" None 46.2 (Some 200).
Definition charlie : Resort := resort_at "charlie" "Charlie" "Charlie Gare" None 46.3 (Some 200).
Definition delta : Resort := resort_at "delta" "Delta" "Delta Gare" None 46.4 (Some 40).
Definition echo : Resort := resort_at "echo" "Echo" "Echo Gare" None 46.5 None.
Definition five_resorts : list Resort := [alpha; bravo; charlie; delta; echo].

Definition clear_cold : WeatherForecast :=
  forecast_with (-9) (-5) (Some 12) 20%Z 10 0 "light snow".

(** A weather fetch that raises for the resort at latitude 46.3 and answers
    for every other one. *)
Definition flaky_forecast (lat lon : float) (d : date) : Outcome (option WeatherForecast) :=
  if (lat =? 46.3) then Raised "connection reset" else Returned (Some clear_cold).

Definition steady_forecast (lat lon : float) (d : date) : Outcome (option WeatherForecast) :=
  Returned (Some clear_cold).

(** Snow, transport and weather for the ranking scenario: Alpha scores 9.0,
    Bravo and Charlie 6.5 each. *)
Definition snow_table : gmap string (option SnowConditions) :=
  <["alpha" := Some powder_day]> (<["bravo" := Some plain_snow]>
    (<["charlie" := Some plain_snow]> ∅)).

Definition journey_table : gmap string (option Journey) :=
  <["alpha" := Some (journey_of 95 0)%Z]> (<["bravo" := Some (journey_of 150 0)%Z]>
    (<["charlie" := Some (journey_of 150 0)%Z]> ∅)).

Definition runtime : RecommenderEngine.Runtime :=
  {| RecommenderEngine.today := 739000%Z;
     RecommenderEngine.now := 0%Z;
     RecommenderEngine.strftime_b_d := fun d => str_of_int d |}.

(** Services over a fixed resort list and fixed tables, with the summarizer
    left open. *)
Definition services_over (resorts : list Resort)
    (summarizer : list Recommendation -> string -> Outcome string)
  : RecommenderEngine.Services :=
  {| RecommenderEngine.get_all_resorts := Returned resorts;
     RecommenderEngine.get_resort_by_id := fun rid =>
       Returned (List.find (fun r => String.eqb (id r) rid) resorts);
     RecommenderEngine.get_forecasts_batch := fun _ _ => Returned ∅;
     RecommenderEngine.get_forecast := fun _ _ _ => Returned None;
     RecommenderEngine.get_conditions_batch := fun _ => Returned snow_table;
     RecommenderEngine.get_conditions := fun r => Returned (dict_get snow_table (id r));
     RecommenderEngine.get_journeys_batch := fun _ _ _ => Returned journey_table;
     RecommenderEngine.get_resort_journey := fun _ r _ =>
       Returned (dict_get journey_table (id r));
     RecommenderEngine.generate_recommendation_summary := summarizer |}.

Definition canned_summary (recs : list Recommendation) (label : string) : Outcome string :=
  Returned "Alpha is the pick.".

Definition failing_summary (recs : list Recommendation) (label : string) : Outcome string :=
  Raised "summarizer unavailable".

Definition failing_completion (recs : list Recommendation) (label : string)
  : Outcome string := Raised "rate limited".

Definition three_resorts : list Resort := [alpha; bravo; charlie].

(** A resort reached by a twenty-minute bus from its station, a connections
    API that only knows the station, and a process that has just started. *)
Definition foxtrot : Resort :=
  resort_at "foxtrot" "Foxtrot" "Foxtrot Gare" (Some 20%Z) 46.6 (Some 60).

Definition station_only (from_location to_location : string) (d : date)
  : Outcome (option Journey) :=
  if String.eqb to_location "Foxtrot Gare" then Returned (Some (journey_of 100 1)%Z)
  else Returned None.

(** A process started on a Saturday. *)
Definition saturday_runtime : RecommenderEngine.Runtime :=
  {| RecommenderEngine.today := 739003%Z;
     RecommenderEngine.now := 0%Z;
     RecommenderEngine.strftime_b_d := fun d => str_of_int d |}.

(** A progress callback whose queue is gone. *)
Definition broken_callback (completed total : Z) : Outcome unit := Raised "queue closed".

(** A forecast API that answers, and one that is down. *)
Definition forecast_up (lat lon : float) (d : date) : Outcome (option WeatherForecast) :=
  Returned (Some clear_cold).

Definition forecast_down (lat lon : float) (d : date) : Outcome (option WeatherForecast) :=
  Raised "503".

Definition connections_down (from_location to_location : string) (d : date)
  : Outcome (option Journey) := Raised "timeout".

Definition ticking : Clock.t :=
  {| Clock.reading := fun n => Z.of_nat n; Clock.reads := 0 |}.

Definition fresh_world : TransportService.World :=
  {| TransportService.heap := [];
     TransportService.cache := {| SimpleCache.store := ∅; SimpleCache.clock := ticking |} |}.

Definition empty_cache {V} : SimpleCache.State V :=
  {| SimpleCache.store := ∅; SimpleCache.clock := ticking |}.

(** A cache read at time 10 holding one entry that expired at 5 and one that
    lives until 50. *)
Definition two_entries : SimpleCache.State Z :=
  {| SimpleCache.store := <["old" := (1, 5)%Z]> (<["new" := (2, 50)%Z]> ∅);
     SimpleCache.clock := {| Clock.reading := fun _ => 10%Z; Clock.reads := 0 |} |}.

(** Sources of snow conditions over a world that only counts the requests
    made. *)
Definition snow_forecast_silent (r : Resort) (requests : nat)
  : option SnowConditions * nat := (None, S requests).

Definition open_meteo_answers (r : Resort) (requests : nat)
  : option SnowConditions * nat := (Some thin_cover, S requests).

(** What a call returned, or the given value when it raised. *)
Definition returned_or {A} (otherwise : A) (o : Outcome A) : A :=
  match o with
  | Returned a => a
  | Raised _ => otherwise
  end.

Definition no_response : RecommendationsResponse :=
  {| recommendations := []; ai_summary := ""; generated_at := 0%Z; target_weekend := "" |}.

(** The two best of the three resorts, and the detail view of the first. *)
Definition top_two : RecommendationsResponse :=
  returned_or no_response
    (RecommenderEngine.generate_recommendations (services_over three_resorts canned_summary)
       runtime None None 2).

(** A recommendation that carries a resort and nothing else. *)
Definition unscored (r : Resort) : Recommendation :=
  {| resort := r; score := 0; weather_score := 0; snow_score := 0; transport_score := 0;
     size_score := 0; weather_forecast := None; snow_conditions := None; journey := None;
     highlights := []; concerns := []; reasoning := "" |}.

Definition alpha_details : Recommendation :=
  match RecommenderEngine.get_resort_details (services_over three_resorts canned_summary)
          runtime "alpha" None with
  | Returned (Some rec) => rec
  | _ => unscored alpha
  end.

(** The recommendations the three resorts get from the tables, in the order
    given. *)
Definition scored (resorts : list Resort) : list Recommendation :=
  returned_or []
    (RecommenderEngine.score_all resorts ∅ snow_table journey_table).

(** A journey no float can hold the hours of. *)
Definition endless_journey : Journey := journey_of (10 ^ 400) 1.

End Samples.

(** * Properties *)

(** ** Binary64 comparison and multiplication *)

Module FloatFacts.

Local Open Scope float_scope.

Ltac cmp_cases :=
  repeat match goal with
  | |- context [Pos.compare_cont Eq ?a ?b] =>
      change (Pos.compare_cont Eq a b) with (Pos.compare a b)
  | H : context [Pos.compare_cont Eq ?a ?b] |- _ =>
      change (Pos.compare_cont Eq a b) with (Pos.compare a b) in H
  end;
  repeat match goal with
  | H : context [Z.compare ?a ?b] |- _ => destruct (Z.compare_spec a b); simpl in H
  | |- context [Z.compare ?a ?b] => destruct (Z.compare_spec a b); simpl
  | H : context [Pos.compare ?a ?b] |- _ => destruct (Pos.compare_spec a b); simpl in H
  | |- context [Pos.compare ?a ?b] => destruct (Pos.compare_spec a b); simpl
  end;
  subst; try congruence; try lia.

Lemma SFmul_comm p e x y : SFmul p e x y = SFmul p e y x.
Proof.
  unfold SFmul.
  destruct x as [sx|sx| |sx mx ex], y as [sy|sy| |sy my ey];
    rewrite ?(xorb_comm sx sy); try reflexivity.
  rewrite (Pos.mul_comm mx my), (Z.add_comm ex ey). reflexivity.
Qed.

Lemma mul_comm (x y : float) : x * y = y * x.
Proof.
  rewrite <- (SF2Prim_Prim2SF (x * y)), <- (SF2Prim_Prim2SF (y * x)), !mul_spec.
  f_equal. apply SFmul_comm.
Qed.

Lemma SFltb_irrefl x : SFltb x x = false.
Proof.
  unfold SFltb, SFcompare.
  destruct x as [s|s| |s m e]; try destruct s; try reflexivity;
    rewrite Z.compare_refl; change (Pos.compare_cont Eq m m) with (Pos.compare m m);
    rewrite Pos.compare_refl; reflexivity.
Qed.

Lemma SFltb_trans x y z :
  SFltb x y = true -> SFltb y z = true -> SFltb x z = true.
Proof.
  unfold SFltb, SFcompare.
  destruct x as [sx|sx| |sx mx ex], y as [sy|sy| |sy my ey], z as [sz|sz| |sz mz ez];
    try destruct sx; try destruct sy; try destruct sz;
    intros H1 H2; try discriminate; try reflexivity; cmp_cases.
Qed.

Lemma SFltb_negtrans x y z :
  y <> S754_nan ->
  SFltb x y = false -> SFltb y z = false -> SFltb x z = false.
Proof.
  unfold SFltb, SFcompare.
  destruct x as [sx|sx| |sx mx ex], y as [sy|sy| |sy my ey], z as [sz|sz| |sz mz ez];
    try destruct sx; try destruct sy; try destruct sz;
    intros Hy H1 H2; try discriminate; try reflexivity; try congruence; cmp_cases.
Qed.

Lemma SFleb_trans x y z :
  SFleb x y = true -> SFleb y z = true -> SFleb x z = true.
Proof.
  unfold SFleb, SFcompare.
  destruct x as [sx|sx| |sx mx ex], y as [sy|sy| |sy my ey], z as [sz|sz| |sz mz ez];
    try destruct sx; try destruct sy; try destruct sz;
    intros H1 H2; try discriminate; try reflexivity; cmp_cases.
Qed.

Lemma leb_trans x y z : (x <=? y) = true -> (y <=? z) = true -> (x <=? z) = true.
Proof. rewrite !leb_spec. apply SFleb_trans. Qed.

Lemma SFltb_leb_trans x y z :
  SFltb x y = true -> SFleb y z = true -> SFltb x z = true.
Proof.
  unfold SFltb, SFleb, SFcompare.
  destruct x as [sx|sx| |sx mx ex], y as [sy|sy| |sy my ey], z as [sz|sz| |sz mz ez];
    try destruct sx; try destruct sy; try destruct sz;
    intros H1 H2; try discriminate; try reflexivity; cmp_cases.
Qed.

Lemma ltb_leb_trans x y z : (x <? y) = true -> (y <=? z) = true -> (x <? z) = true.
Proof. rewrite !ltb_spec, leb_spec. apply SFltb_leb_trans. Qed.

Lemma ltb_irrefl x : (x <? x) = false.
Proof. rewrite ltb_spec. apply SFltb_irrefl. Qed.

Lemma ltb_trans x y z : (x <? y) = true -> (y <? z) = true -> (x <? z) = true.
Proof. rewrite !ltb_spec. apply SFltb_trans. Qed.

Lemma ltb_asym x y : (x <? y) = true -> (y <? x) = false.
Proof.
  intros H. destruct (y <? x) eqn:E; [|reflexivity].
  pose proof (ltb_trans _ _ _ H E) as C. rewrite ltb_irrefl in C. discriminate.
Qed.

Lemma not_nan_SF x : is_nan x = false -> Prim2SF x <> S754_nan.
Proof.
  unfold is_nan. rewrite FloatAxioms.eqb_spec. intros H E. rewrite E in H. discriminate.
Qed.

Lemma ltb_negtrans x y z :
  is_nan y = false -> (x <? y) = false -> (y <? z) = false -> (x <? z) = false.
Proof.
  intros Hy. rewrite !ltb_spec. apply SFltb_negtrans. now apply not_nan_SF.
Qed.

End FloatFacts.

(** ** Integer true division *)

Module DivisionFacts.

Import Props.

Lemma digits2_pos_bound p : (Z.pos p < 2 ^ Z.pos (digits2_pos p))%Z.
Proof.
  induction p as [p IH|p IH|]; cbn [digits2_pos]; [| |reflexivity];
    rewrite Pos2Z.inj_succ, Z.pow_succ_r by lia; lia.
Qed.

Lemma digits2_pos_le p k : (Z.pos p < 2 ^ k)%Z -> (Z.pos (digits2_pos p) <= k)%Z.
Proof.
  revert k. induction p as [p IH|p IH|]; intros k H; cbn [digits2_pos].
  - assert (0 < k)%Z.
    { destruct (Z.lt_trichotomy k 0) as [Hk|[->|Hk]]; [|cbn in H; lia|lia].
      rewrite Z.pow_neg_r in H by lia. lia. }
    replace k with (Z.succ (k - 1)) in H by lia. rewrite Z.pow_succ_r in H by lia.
    specialize (IH (k - 1)%Z). lia.
  - assert (0 < k)%Z.
    { destruct (Z.lt_trichotomy k 0) as [Hk|[->|Hk]]; [|cbn in H; lia|lia].
      rewrite Z.pow_neg_r in H by lia. lia. }
    replace k with (Z.succ (k - 1)) in H by lia. rewrite Z.pow_succ_r in H by lia.
    specialize (IH (k - 1)%Z). lia.
  - destruct (Z.lt_trichotomy k 0) as [Hk|[->|Hk]]; [|cbn in H; lia|lia].
    rewrite Z.pow_neg_r in H by lia. lia.
Qed.

Lemma Zdigits2_le m k : (0 <= m < 2 ^ k)%Z -> (0 <= k)%Z -> (Zdigits2 m <= k)%Z.
Proof.
  intros [H0 H] Hk. destruct m as [|p|p]; cbn [Zdigits2]; [lia| |lia].
  now apply digits2_pos_le.
Qed.

Lemma Zdigits2_bound m : (0 <= m)%Z -> (m < 2 ^ Zdigits2 m)%Z /\ (0 <= Zdigits2 m)%Z.
Proof.
  intros H. destruct m as [|p|p]; cbn [Zdigits2]; [cbn; lia| |lia].
  split; [apply digits2_pos_bound|lia].
Qed.

Lemma shr_1_digits mrs :
  (0 <= shr_m mrs)%Z ->
  (0 <= shr_m (shr_1 mrs))%Z
  /\ Zdigits2 (shr_m (shr_1 mrs)) = Z.max (Zdigits2 (shr_m mrs) - 1) 0.
Proof.
  destruct mrs as [m r s]. cbn [shr_m]. intros H.
  destruct m as [|[p|p|]|p]; cbn [shr_1 shr_m Zdigits2 digits2_pos]; try lia.
Qed.

Lemma iter_shr_1_digits p : forall mrs,
  (0 <= shr_m mrs)%Z ->
  (0 <= shr_m (SpecFloat.iter_pos shr_1 p mrs))%Z
  /\ Zdigits2 (shr_m (SpecFloat.iter_pos shr_1 p mrs)) = Z.max (Zdigits2 (shr_m mrs) - Z.pos p) 0.
Proof.
  induction p as [p IH|p IH|]; intros mrs H; cbn [SpecFloat.iter_pos].
  - destruct (shr_1_digits mrs H) as [H1 E1].
    destruct (IH _ H1) as [H2 E2]. destruct (IH _ H2) as [H3 E3].
    split; [exact H3|]. rewrite E3, E2, E1. lia.
  - destruct (IH _ H) as [H2 E2]. destruct (IH _ H2) as [H3 E3].
    split; [exact H3|]. rewrite E3, E2. lia.
  - now apply shr_1_digits.
Qed.

Lemma shr_record_of_loc_m m l : shr_m (shr_record_of_loc m l) = m.
Proof. destruct l as [|[]]; reflexivity. Qed.

(** The exponent and the digits of what [shr_fexp] leaves. *)
Lemma shr_fexp_bound m e l mrs e' :
  (0 <= m)%Z ->
  shr_fexp prec emax m e l = (mrs, e') ->
  (0 <= shr_m mrs)%Z
  /\ (e' = e \/ e' = fexp prec emax (Zdigits2 m + e))
  /\ (Zdigits2 (shr_m mrs) + e' <= Z.max (Zdigits2 m + e) e')%Z.
Proof.
  intros Hm. unfold shr_fexp, shr.
  destruct (fexp prec emax (Zdigits2 m + e) - e)%Z as [|n|n] eqn:En;
    intros H; injection H as <- <-; rewrite ?shr_record_of_loc_m.
  - split; [exact Hm|]. split; [now left|lia].
  - destruct (iter_shr_1_digits n (shr_record_of_loc m l)) as [H1 E1];
      [now rewrite shr_record_of_loc_m|].
    rewrite shr_record_of_loc_m in E1.
    split; [exact H1|]. split; [right; lia|]. rewrite E1. lia.
  - split; [exact Hm|]. split; [now left|lia].
Qed.

Lemma round_nearest_even_bound m l :
  (0 <= m)%Z -> (0 <= round_nearest_even m l <= m + 1)%Z.
Proof.
  intros H. unfold round_nearest_even.
  destruct l as [|[]]; try destruct (Z.even m); lia.
Qed.

Lemma fexp_le x : (x <= 1024)%Z -> (fexp prec emax x <= emax - prec)%Z.
Proof. unfold fexp, emin, emax, prec. lia. Qed.

(** Rounding a mantissa of fewer than 1024 bits at exponent 0 or below never
    overflows. *)
Lemma binary_round_aux_finite s m e l :
  (0 <= m)%Z -> (e <= 0)%Z -> (Zdigits2 m + e <= 1023)%Z ->
  forall s', binary_round_aux prec emax s m e l <> S754_infinity s'.
Proof.
  intros Hm He Hd s'. unfold binary_round_aux.
  destruct (shr_fexp prec emax m e l) as [mrs1 e1] eqn:E1.
  destruct (shr_fexp_bound _ _ _ _ _ Hm E1) as [Hm1 [He1 Hd1]].
  pose proof (round_nearest_even_bound (shr_m mrs1) (loc_of_shr_record mrs1) Hm1) as Hr.
  set (m2 := round_nearest_even (shr_m mrs1) (loc_of_shr_record mrs1)) in *.
  destruct (shr_fexp prec emax m2 e1 loc_Exact) as [mrs2 e2] eqn:E2.
  destruct (shr_fexp_bound _ _ _ _ _ (proj1 Hr) E2) as [Hm2 [He2 Hd2]].
  destruct (Zdigits2_bound m Hm) as [_ Hdm].
  assert (He1' : (e1 <= emax - prec)%Z).
  { destruct He1 as [->| ->]; [unfold emax, prec; lia|apply fexp_le; lia]. }
  assert (Hdig : (Zdigits2 m2 <= Zdigits2 (shr_m mrs1) + 1)%Z).
  { destruct (Zdigits2_bound (shr_m mrs1) Hm1) as [Hb Hnn].
    apply Zdigits2_le; [|lia]. rewrite Z.pow_add_r by lia. lia. }
  assert (He2' : (e2 <= emax - prec)%Z).
  { destruct He2 as [->| ->]; [exact He1'|]. apply fexp_le.
    assert (e1 <= 971)%Z by (unfold emax, prec in He1'; lia). lia. }
  destruct (shr_m mrs2) as [|p|p]; try discriminate.
  apply Z.leb_le in He2'. rewrite He2'. discriminate.
Qed.

Lemma SFdiv_finite sa ma sb mb :
  (Z.pos ma < 2 ^ 1023)%Z ->
  forall s, SFdiv prec emax (S754_finite sa ma 0) (S754_finite sb mb 0) <> S754_infinity s.
Proof.
  intros Ha s. unfold SFdiv, SFdiv_core_binary.
  set (e' := Z.min (fexp prec emax (Zdigits2 (Z.pos ma) + 0 - (Zdigits2 (Z.pos mb) + 0)))
               (0 - 0)).
  set (m' := match (0 - 0 - e')%Z with
             | Z.pos _ => Z.shiftl (Z.pos ma) (0 - 0 - e')
             | 0%Z => Z.pos ma
             | Z.neg _ => 0%Z
             end).
  assert (He' : (e' <= 0)%Z) by (subst e'; lia).
  assert (Hm' : (0 <= m' < 2 ^ (1023 - e'))%Z).
  { subst m'. destruct (0 - 0 - e')%Z as [|n|n] eqn:En.
    - replace e' with 0%Z by lia. cbn. lia.
    - rewrite Z.shiftl_mul_pow2 by lia. replace (1023 - e')%Z with (1023 + Z.pos n)%Z by lia.
      rewrite Z.pow_add_r by lia.
      assert (0 < 2 ^ Z.pos n)%Z by (apply Z.pow_pos_nonneg; lia). nia.
    - lia. }
  pose proof (Z.div_eucl_eq m' (Z.pos mb) ltac:(lia)) as Hdiv.
  pose proof (Z.mod_pos_bound m' (Z.pos mb) ltac:(lia)) as Hmod.
  unfold Z.modulo in Hmod.
  destruct (Z.div_eucl m' (Z.pos mb)) as [q r].
  assert (Hq : (0 <= q <= m')%Z) by nia.
  apply binary_round_aux_finite; [lia|exact He'|].
  assert (Zdigits2 q <= 1023 - e')%Z by (apply Zdigits2_le; lia). lia.
Qed.

(** Division by a non-zero [int] returns whenever the dividend is below
    2^1023 in magnitude. *)
Lemma truediv_returns a b :
  b <> 0%Z -> (Z.abs a < 2 ^ 1023)%Z -> exists q, truediv a b = Returned q.
Proof.
  intros Hb Ha. unfold truediv. apply Z.eqb_neq in Hb. rewrite Hb.
  destruct a as [|ma|ma], b as [|mb|mb]; try discriminate; cbn [int_to_SF];
    try (cbn; eauto; fail).
  all: match goal with
       | |- context [SFdiv prec emax (S754_finite ?sa ?ma 0) (S754_finite ?sb ?mb 0)] =>
           pose proof (SFdiv_finite sa ma sb mb ltac:(cbn [Z.abs] in Ha; lia)) as Hfin;
           destruct (SFdiv prec emax (S754_finite sa ma 0) (S754_finite sb mb 0)) as [x|x| |x y z];
           eauto; exfalso; now apply (Hfin x)
       end.
Qed.

Local Open Scope Z_scope.

Lemma digits2_pos_lower p : (2 ^ (Z.pos (digits2_pos p) - 1) <= Z.pos p)%Z.
Proof.
  induction p as [p IH|p IH|]; cbn [digits2_pos]; [| |cbn; lia];
    rewrite Pos2Z.inj_succ;
    replace (Z.succ (Z.pos (digits2_pos p)) - 1)%Z
      with (Z.succ (Z.pos (digits2_pos p) - 1)) by lia;
    rewrite Z.pow_succ_r by lia; lia.
Qed.

Lemma Zdigits2_eq m k :
  (2 ^ (k - 1) <= m < 2 ^ k)%Z -> (0 < k)%Z -> Zdigits2 m = k.
Proof.
  intros [Hlo Hhi] Hk.
  assert (Hm : (0 < m)%Z).
  { assert (0 < 2 ^ (k - 1))%Z by (apply Z.pow_pos_nonneg; lia). lia. }
  destruct m as [|p|p]; try lia. cbn [Zdigits2].
  pose proof (digits2_pos_bound p) as Hu. pose proof (digits2_pos_lower p) as Hl.
  assert (Z.pos (digits2_pos p) <= k)%Z by (apply digits2_pos_le; lia).
  assert (k - 1 < Z.pos (digits2_pos p))%Z.
  { apply (Z.pow_lt_mono_r_iff 2); lia. }
  lia.
Qed.

Lemma shr_1_exact mrs :
  (0 <= shr_m mrs)%Z ->
  shr_m (shr_1 mrs) = (shr_m mrs / 2)%Z /\ shr_r (shr_1 mrs) = Z.odd (shr_m mrs).
Proof.
  destruct mrs as [m r s]. cbn [shr_m]. intros H.
  destruct m as [|[p|p|]|p]; cbn [shr_1 shr_m shr_r]; try lia; split; try reflexivity.
  - apply (Z.div_unique _ _ _ 1); lia.
  - apply (Z.div_unique _ _ _ 0); lia.
Qed.

Lemma iter_shr_1_exact p : forall mrs,
  (0 <= shr_m mrs)%Z ->
  shr_m (SpecFloat.iter_pos shr_1 p mrs) = (shr_m mrs / 2 ^ Z.pos p)%Z
  /\ shr_r (SpecFloat.iter_pos shr_1 p mrs) = Z.odd (shr_m mrs / 2 ^ (Z.pos p - 1)).
Proof.
  assert (Hpow : forall k, (0 <= k)%Z -> (0 < 2 ^ k)%Z)
    by (intros; apply Z.pow_pos_nonneg; lia).
  induction p as [p IH|p IH|]; intros mrs H; cbn [SpecFloat.iter_pos].
  - destruct (shr_1_exact mrs H) as [E1 _].
    assert (H1 : (0 <= shr_m (shr_1 mrs))%Z) by (rewrite E1; apply Z.div_pos; lia).
    destruct (IH _ H1) as [E2 _].
    assert (H2 : (0 <= shr_m (SpecFloat.iter_pos shr_1 p (shr_1 mrs)))%Z).
    { rewrite E2. apply Z.div_pos; [lia|apply Hpow; lia]. }
    destruct (IH _ H2) as [E3 R3]. rewrite E3, R3, E2, E1.
    pose proof (Hpow (Z.pos p) ltac:(lia)). pose proof (Hpow (Z.pos p - 1)%Z ltac:(lia)).
    rewrite !Z.div_div by lia.
    replace (Z.pos p~1) with (1 + Z.pos p + Z.pos p)%Z by lia.
    replace (1 + Z.pos p + Z.pos p - 1)%Z with (1 + Z.pos p + (Z.pos p - 1))%Z by lia.
    rewrite !Z.pow_add_r by lia. change (2 ^ 1)%Z with 2%Z.
    rewrite !Z.mul_assoc. split; reflexivity.
  - destruct (IH _ H) as [E2 _].
    assert (H2 : (0 <= shr_m (SpecFloat.iter_pos shr_1 p mrs))%Z).
    { rewrite E2. apply Z.div_pos; [lia|apply Hpow; lia]. }
    destruct (IH _ H2) as [E3 R3]. rewrite E3, R3, E2.
    pose proof (Hpow (Z.pos p) ltac:(lia)). pose proof (Hpow (Z.pos p - 1)%Z ltac:(lia)).
    rewrite !Z.div_div by lia.
    replace (Z.pos p~0) with (Z.pos p + Z.pos p)%Z by lia.
    replace (Z.pos p + Z.pos p - 1)%Z with (Z.pos p + (Z.pos p - 1))%Z by lia.
    rewrite !Z.pow_add_r by lia. split; reflexivity.
  - destruct (shr_1_exact mrs H) as [E1 R1]. rewrite E1, R1.
    change (2 ^ 1)%Z with 2%Z. change (2 ^ (1 - 1))%Z with 1%Z. now rewrite Z.div_1_r.
Qed.


(** Rounding a mantissa of more than 53 bits at exponent 0 overflows exactly
    when the mantissa has more than 1024 bits, or has 1024 bits of which the
    first 54 are ones. *)
Lemma binary_round_aux_wide s q l :
  (2 ^ 53 <= q)%Z ->
  (exists s', binary_round_aux prec emax s q 0 l = S754_infinity s')
  <-> (1025 <= Zdigits2 q
       \/ (Zdigits2 q = 1024
           /\ q / 2 ^ 971 = 9007199254740991 /\ Z.odd (q / 2 ^ 970) = true))%Z.
Proof.
  intros Hq. set (dq := Zdigits2 q).
  assert (Hpow : forall k, (0 <= k)%Z -> (0 < 2 ^ k)%Z)
    by (intros; apply Z.pow_pos_nonneg; lia).
  assert (Hpos : (0 < q)%Z) by (pose proof (Hpow 53%Z ltac:(lia)); lia).
  destruct (Zdigits2_bound q ltac:(lia)) as [Hup Hnn]. fold dq in Hup, Hnn.
  assert (Hlow : (2 ^ (dq - 1) <= q)%Z).
  { subst dq. destruct q as [|p|p]; try lia. apply digits2_pos_lower. }
  assert (Hdq : (54 <= dq)%Z).
  { assert (53 < dq)%Z; [|lia]. apply (Z.pow_lt_mono_r_iff 2); lia. }
  unfold binary_round_aux.
  assert (E1 : shr_fexp prec emax q 0 l
               = (SpecFloat.iter_pos shr_1 (Z.to_pos (dq - 53)) (shr_record_of_loc q l),
                  (dq - 53)%Z)).
  { unfold shr_fexp, shr. fold dq.
    replace (fexp prec emax (dq + 0) - 0)%Z with (Z.pos (Z.to_pos (dq - 53))).
    2: { unfold fexp, emin, prec, emax. rewrite Z2Pos.id by lia. lia. }
    f_equal. rewrite Z2Pos.id by lia. lia. }
  rewrite E1.
  destruct (iter_shr_1_exact (Z.to_pos (dq - 53)) (shr_record_of_loc q l)) as [Em Er].
  { rewrite shr_record_of_loc_m. lia. }
  rewrite shr_record_of_loc_m, Z2Pos.id in Em, Er by lia.
  replace (dq - 53 - 1)%Z with (dq - 54)%Z in Er by lia.
  set (mrs1 := SpecFloat.iter_pos shr_1 (Z.to_pos (dq - 53)) (shr_record_of_loc q l)) in *.
  set (m1 := (q / 2 ^ (dq - 53))%Z) in *.
  set (r1 := Z.odd (q / 2 ^ (dq - 54))) in *.
  assert (Hm1 : (4503599627370496 <= m1 < 9007199254740992)%Z).
  { subst m1. pose proof (Hpow (dq - 53)%Z ltac:(lia)). split.
    - apply Z.div_le_lower_bound; [lia|].
      change 4503599627370496%Z with (2 ^ 52)%Z. rewrite <- Z.pow_add_r by lia.
      replace (dq - 53 + 52)%Z with (dq - 1)%Z by lia. exact Hlow.
    - apply Z.div_lt_upper_bound; [lia|].
      change 9007199254740992%Z with (2 ^ 53)%Z. rewrite <- Z.pow_add_r by lia.
      replace (dq - 53 + 53)%Z with dq by lia. exact Hup. }
  set (m2 := round_nearest_even (shr_m mrs1) (loc_of_shr_record mrs1)).
  assert (Hm2 : (m1 <= m2 <= m1 + 1)%Z
                /\ (m2 = 9007199254740992%Z
                    <-> m1 = 9007199254740991%Z /\ r1 = true)).
  { subst m2. destruct mrs1 as [m r0 s0]. cbn [shr_m shr_r] in Em, Er.
    rewrite Em. clear Em. rewrite <- Er. clear Er.
    destruct r0, s0; cbn [loc_of_shr_record round_nearest_even shr_m].
    - split; [lia|]. split; [intros H; split; [lia|reflexivity]|lia].
    - destruct (Z.even m1) eqn:Ev.
      + split; [lia|]. split; [lia|]. intros [H _]. rewrite H in Ev. discriminate.
      + split; [lia|]. split; [intros H; split; [lia|reflexivity]|lia].
    - split; [lia|]. split; [lia|intros [_ H]; discriminate].
    - split; [lia|]. split; [lia|intros [_ H]; discriminate]. }
  destruct Hm2 as [Hb2 Hcarry].
  assert (Hresult :
    (exists s',
       (let '(mrs'', e'') := shr_fexp prec emax m2 (dq - 53) loc_Exact in
        match shr_m mrs'' with
        | 0%Z => S754_zero s
        | Z.pos m => if (e'' <=? emax - prec)%Z then S754_finite s m e'' else S754_infinity s
        | Z.neg _ => S754_nan
        end) = S754_infinity s')
    <-> (1025 <= dq \/ (dq = 1024 /\ m2 = 9007199254740992))%Z).
  { destruct (Z.eq_dec m2 9007199254740992) as [E2|N2].
    - rewrite E2. unfold shr_fexp.
      change (Zdigits2 9007199254740992) with 54%Z.
      replace (fexp prec emax (54 + (dq - 53)) - (dq - 53))%Z with 1%Z
        by (unfold fexp, emin, prec, emax; lia).
      cbn [shr shr_record_of_loc SpecFloat.iter_pos shr_1 shr_m].
      destruct (Z.leb_spec (dq - 53 + 1) (emax - prec)) as [Hle|Hgt];
        unfold emax, prec in *.
      + split; [intros [s' H]; discriminate|]. intros [H|[H _]]; lia.
      + split; [intros _|eauto]. destruct (Z.eq_dec dq 1024); [right|left]; lia.
    - assert (Hd2 : Zdigits2 m2 = 53%Z).
      { apply Zdigits2_eq; [|lia].
        change (2 ^ (53 - 1))%Z with 4503599627370496%Z.
        change (2 ^ 53)%Z with 9007199254740992%Z. lia. }
      unfold shr_fexp. rewrite Hd2.
      replace (fexp prec emax (53 + (dq - 53)) - (dq - 53))%Z with 0%Z
        by (unfold fexp, emin, prec, emax; lia).
      cbn [shr shr_record_of_loc shr_m].
      destruct m2 as [|p2|p2]; try lia.
      destruct (Z.leb_spec (dq - 53) (emax - prec)) as [Hle|Hgt];
        unfold emax, prec in *.
      + split; [intros [s' H]; discriminate|]. intros [H|[_ H]]; [lia|congruence].
      + split; [intros _; left; lia|eauto]. }
  rewrite Hresult. clear Hresult.
  split.
  - intros [H|[Hd H]]; [now left|right]. split; [exact Hd|].
    apply Hcarry in H as [H1 H2]. subst m1 r1. rewrite Hd in H1, H2.
    change (1024 - 53)%Z with 971%Z in H1. change (1024 - 54)%Z with 970%Z in H2.
    now split.
  - intros [H|[Hd [H1 H2]]]; [now left|right]. split; [exact Hd|].
    apply Hcarry. subst m1 r1. rewrite Hd.
    change (1024 - 53)%Z with 971%Z. change (1024 - 54)%Z with 970%Z. now split.
Qed.

Lemma wide_overflow_threshold q :
  2 ^ 53 <= q ->
  (1025 <= Zdigits2 q
   \/ (Zdigits2 q = 1024 /\ q / 2 ^ 971 = 9007199254740991 /\ Z.odd (q / 2 ^ 970) = true))
  <-> 2 ^ 1024 - 2 ^ 970 <= q.
Proof.
  intros Hq.
  assert (HP : 0 < 2 ^ 970) by (apply Z.pow_pos_nonneg; lia).
  assert (E971 : 2 ^ 971 = 2 ^ 970 * 2).
  { change 971 with (970 + 1). now rewrite Z.pow_add_r by lia. }
  assert (E1023 : 2 ^ 1023 = 9007199254740992 * 2 ^ 970).
  { change 1023 with (53 + 970). now rewrite Z.pow_add_r by lia. }
  assert (E1024 : 2 ^ 1024 = 18014398509481984 * 2 ^ 970).
  { change 1024 with (54 + 970). now rewrite Z.pow_add_r by lia. }
  assert (Hpos : 0 < q) by (assert (0 < 2 ^ 53) by (apply Z.pow_pos_nonneg; lia); lia).
  destruct (Zdigits2_bound q ltac:(lia)) as [Hup Hnn].
  rewrite E971, E1024. generalize dependent (2 ^ 970). intros P HP E971 E1023 E1024.
  split.
  - intros [Hd|[Hd [H1 H2]]].
    + assert (2 ^ 1024 <= 2 ^ (Zdigits2 q - 1)) by (apply Z.pow_le_mono_r; lia).
      assert (2 ^ (Zdigits2 q - 1) <= q).
      { destruct q as [|p|p]; try lia. apply digits2_pos_lower. }
      lia.
    + rewrite <- Z.div_div in H1 by lia.
      pose proof (Z.div_mod (q / P) 2 ltac:(lia)) as Hdm.
      rewrite Zmod_odd, H2, H1 in Hdm.
      pose proof (Z.mul_div_le q P HP). lia.
  - intros Hge. destruct (Z.lt_ge_cases q (18014398509481984 * P)) as [Hlt|Hbig].
    + right.
      assert (Hd : Zdigits2 q = 1024).
      { apply Zdigits2_eq; [|lia]. change (1024 - 1) with 1023. lia. }
      assert (Hu : q / P = 18014398509481983).
      { assert (18014398509481983 <= q / P) by (apply Z.div_le_lower_bound; lia).
        assert (q / P < 18014398509481984) by (apply Z.div_lt_upper_bound; lia).
        lia. }
      split; [exact Hd|]. rewrite <- Z.div_div by lia. rewrite Hu. split; reflexivity.
    + left. assert (1024 < Zdigits2 q); [|lia].
      apply (Z.pow_lt_mono_r_iff 2); lia.
Qed.

Lemma SFdiv_60_overflow sa ma :
  (exists s, SFdiv prec emax (S754_finite sa ma 0) (S754_finite false 60 0) = S754_infinity s)
  <-> overflow_minutes <= Z.pos ma.
Proof.
  assert (HP : 0 < 2 ^ 970) by (apply Z.pow_pos_nonneg; lia).
  assert (E1023 : 2 ^ 1023 = 9007199254740992 * 2 ^ 970).
  { change 1023 with (53 + 970). now rewrite Z.pow_add_r by lia. }
  assert (E1024 : 2 ^ 1024 = 18014398509481984 * 2 ^ 970).
  { change 1024 with (54 + 970). now rewrite Z.pow_add_r by lia. }
  destruct (Z.lt_ge_cases (Z.pos ma) (2 ^ 1023)) as [Hsmall|Hbig].
  - split.
    + intros [s H]. exfalso. exact (SFdiv_finite sa ma false 60 Hsmall s H).
    + unfold overflow_minutes. lia.
  - assert (Hd1 : 1024 <= Zdigits2 (Z.pos ma)).
    { destruct (Zdigits2_bound (Z.pos ma) ltac:(lia)) as [Hup Hnn].
      assert (1023 < Zdigits2 (Z.pos ma)); [|lia]. apply (Z.pow_lt_mono_r_iff 2); lia. }
    unfold SFdiv, SFdiv_core_binary.
    change (Zdigits2 60) with 6.
    replace (Z.min (fexp prec emax (Zdigits2 (Z.pos ma) + 0 - (6 + 0))) (0 - 0)) with 0
      by (unfold fexp, emin, prec, emax; lia).
    change (0 - 0 - 0) with 0. cbv beta iota.
    change (IntDef.Z.div_eucl (Z.pos ma) 60) with (Z.div_eucl (Z.pos ma) 60).
    pose proof (Z.div_eucl_eq (Z.pos ma) 60 ltac:(lia)) as Hdiv.
    pose proof (Z.mod_pos_bound (Z.pos ma) 60 ltac:(lia)) as Hmod.
    assert (Hq : fst (Z.div_eucl (Z.pos ma) 60) = Z.pos ma / 60) by reflexivity.
    unfold Z.modulo in Hmod.
    destruct (Z.div_eucl (Z.pos ma) 60) as [q r]. cbn [fst] in Hq.
    assert (Hq53 : 2 ^ 53 <= q).
    { change (2 ^ 53) with 9007199254740992. lia. }
    rewrite (binary_round_aux_wide _ q _ Hq53), (wide_overflow_threshold q Hq53).
    unfold overflow_minutes. lia.
Qed.

(** [a / 60] overflows exactly from [overflow_minutes] on, in either
    direction. *)
Lemma truediv_60 a :
  ((exists q, truediv a 60 = Returned q) <-> Z.abs a < overflow_minutes)
  /\ (truediv a 60 = Raised "OverflowError" <-> overflow_minutes <= Z.abs a)
  /\ (forall e, truediv a 60 = Raised e -> e = "OverflowError").
Proof.
  assert (Hpos : 0 < overflow_minutes) by (vm_compute; reflexivity).
  assert (Hkey : forall s p,
             match SFdiv prec emax (S754_finite s p 0) (S754_finite false 60 0) with
             | S754_infinity _ => overflow_minutes <= Z.pos p
             | _ => Z.pos p < overflow_minutes
             end).
  { intros s p. pose proof (SFdiv_60_overflow s p) as H.
    destruct (SFdiv prec emax (S754_finite s p 0) (S754_finite false 60 0)) eqn:E;
      try (apply H; eauto; fail);
      (destruct (Z.lt_ge_cases (Z.pos p) overflow_minutes) as [Hl|Hg];
       [exact Hl|apply H in Hg as [s' Hs']; discriminate]). }
  assert (Hcases : forall s p,
    ((exists q,
        match SFdiv prec emax (S754_finite s p 0) (S754_finite false 60 0) with
        | S754_infinity _ => Raised "OverflowError"
        | quotient => Returned (SF2Prim quotient)
        end = Returned q) <-> Z.pos p < overflow_minutes)
    /\ (match SFdiv prec emax (S754_finite s p 0) (S754_finite false 60 0) with
        | S754_infinity _ => Raised "OverflowError"
        | quotient => Returned (SF2Prim quotient)
        end = Raised "OverflowError" <-> overflow_minutes <= Z.pos p)
    /\ (forall e,
          match SFdiv prec emax (S754_finite s p 0) (S754_finite false 60 0) with
          | S754_infinity _ => Raised "OverflowError"
          | quotient => Returned (SF2Prim quotient)
          end = Raised e -> e = "OverflowError")).
  { intros s p. specialize (Hkey s p).
    destruct (SFdiv prec emax (S754_finite s p 0) (S754_finite false 60 0)).
    2: { split; [split; [intros [q Hq]; discriminate|intros Hlt; exfalso; lia]|].
         split; [split; [intros _; exact Hkey|reflexivity]|].
         intros e He. now injection He as <-. }
    all: (split; [split; [intros _; exact Hkey|intros _; eexists; reflexivity]|];
          split; [split; [discriminate|intros Hge; exfalso; lia]|discriminate]). }
  unfold truediv. cbn [Z.eqb].
  destruct a as [|p|p]; cbn [int_to_SF Z.abs]; [|apply Hcases|apply Hcases].
  cbn [SFdiv].
  split; [split; [intros _; exact Hpos|intros _; eexists; reflexivity]|].
  split; [split; [discriminate|intros Hge; exfalso; lia]|discriminate].
Qed.

End DivisionFacts.

(** ** The scoring engine *)

Module ScoringFacts.

Import ScoringEngine Props Samples.
Local Open Scope float_scope.

(** Every branch of a scoring stage, with the score it leaves. *)
Ltac branches :=
  repeat match goal with
  | |- context [if ?c then _ else _] => destruct c
  | |- context [match ?c with Some _ => _ | None => _ end] => destruct c
  end;
  unfold highlight, concern, plus, minus, start; cbn [acc_score In]; tauto.

(** Membership of a closed float in a closed list, by evaluation. *)
Ltac on_grid := vm_compute; repeat (first [left; reflexivity | right]); fail.

Ltac cases H :=
  cbn [In] in H;
  repeat (destruct H as [H|H]; [rewrite <- H; clear H | ]); try contradiction.

Lemma weather_temperature_score f st :
  In (acc_score (weather_temperature f st))
    [acc_score st + 2.0; acc_score st + 1.0; acc_score st - 2.0; acc_score st - 1.0;
     acc_score st].
Proof. unfold weather_temperature. branches. Qed.

Lemma weather_snowfall_score f st :
  In (acc_score (weather_snowfall f st))
    [acc_score st + 3.5; acc_score st + 2.5; acc_score st + 1.0; acc_score st].
Proof. unfold weather_snowfall. branches. Qed.

Lemma weather_cloud_cover_score f st :
  In (acc_score (weather_cloud_cover f st))
    [acc_score st + 1.5; acc_score st + 0.5; acc_score st - 1.0; acc_score st].
Proof. unfold weather_cloud_cover. branches. Qed.

Lemma weather_wind_score f st :
  In (acc_score (weather_wind f st))
    [acc_score st + 0.5; acc_score st - 2.0; acc_score st - 1.0; acc_score st].
Proof. unfold weather_wind. branches. Qed.

Lemma weather_precipitation_score f st :
  In (acc_score (weather_precipitation f st)) [acc_score st - 3.0; acc_score st].
Proof. unfold weather_precipitation. branches. Qed.

Lemma score_weather_on_grid fo : In (score_of (score_weather fo)) halves.
Proof.
  destruct fo as [f|]; [|on_grid].
  unfold score_weather, finish, score_of; cbn [fst].
  pose proof (weather_temperature_score f (start 5.0)) as H1.
  set (s1 := weather_temperature f (start 5.0)) in *.
  pose proof (weather_snowfall_score f s1) as H2.
  set (s2 := weather_snowfall f s1) in *.
  pose proof (weather_cloud_cover_score f s2) as H3.
  set (s3 := weather_cloud_cover f s2) in *.
  pose proof (weather_wind_score f s3) as H4.
  set (s4 := weather_wind f s3) in *.
  pose proof (weather_precipitation_score f s4) as H5.
  set (s5 := weather_precipitation f s4) in *.
  clearbody s1 s2 s3 s4 s5.
  change (acc_score (start 5.0)) with 5.0 in H1.
  revert H2 H3 H4 H5.
  generalize (acc_score s5) (acc_score s4) (acc_score s3) (acc_score s2).
  generalize dependent (acc_score s1).
  intros v1 H1 v5 v4 v3 v2 H2 H3 H4 H5.
  cases H5; cases H4; cases H3; cases H2; cases H1; on_grid.
Qed.

Lemma snow_base_depth_score c st :
  In (acc_score (snow_base_depth c st))
    [acc_score st + 2.5; acc_score st + 1.5; acc_score st + 0.5; acc_score st - 2.0;
     acc_score st].
Proof. unfold snow_base_depth. branches. Qed.

Lemma snow_fresh_24h_score c st :
  In (acc_score (snow_fresh_24h c st))
    [acc_score st + 3.0; acc_score st + 2.0; acc_score st + 1.0; acc_score st].
Proof. unfold snow_fresh_24h. branches. Qed.

Lemma snow_week_score c st :
  In (acc_score (snow_week c st)) [acc_score st + 1.0; acc_score st + 0.5; acc_score st].
Proof. unfold snow_week. branches. Qed.

Lemma snow_quality_adjust_score c st :
  In (acc_score (snow_quality_adjust c st))
    [acc_score st + 1.5; acc_score st + 0.5; acc_score st - 2.0; acc_score st - 1.0;
     acc_score st].
Proof. unfold snow_quality_adjust. branches. Qed.

Lemma score_snow_on_grid co : In (score_of (score_snow co)) halves.
Proof.
  destruct co as [c|]; [|on_grid].
  unfold score_snow, finish, score_of; cbn [fst].
  pose proof (snow_base_depth_score c (start 5.0)) as H1.
  set (s1 := snow_base_depth c (start 5.0)) in *.
  pose proof (snow_fresh_24h_score c s1) as H2.
  set (s2 := snow_fresh_24h c s1) in *.
  pose proof (snow_week_score c s2) as H3.
  set (s3 := snow_week c s2) in *.
  pose proof (snow_quality_adjust_score c s3) as H4.
  set (s4 := snow_quality_adjust c s3) in *.
  clearbody s1 s2 s3 s4.
  change (acc_score (start 5.0)) with 5.0 in H1.
  revert H2 H3 H4.
  generalize (acc_score s4) (acc_score s3) (acc_score s2).
  generalize dependent (acc_score s1).
  intros v1 H1 v4 v3 v2 H2 H3 H4.
  cases H4; cases H3; cases H2; cases H1; on_grid.
Qed.

Lemma transport_duration_score hours :
  In (acc_score (transport_duration hours)) [10.0; 8.5; 7.0; 5.5; 4.0; 2.0].
Proof. unfold transport_duration. branches. Qed.

Lemma transport_changes_score j st :
  In (acc_score (transport_changes j st))
    [acc_score st + 0.5; acc_score st; acc_score st - 0.5; acc_score st - 1.0].
Proof. unfold transport_changes. branches. Qed.

(** [score_transport] on a present journey is the division followed by the
    two scoring steps. *)
Lemma score_transport_hours j :
  score_transport (Some j)
  = match journey_hours j with
    | Returned hours => Returned (finish (transport_changes j (transport_duration hours)))
    | Raised e => Raised e
    end.
Proof. unfold score_transport. now destruct (journey_hours j). Qed.

Lemma score_transport_on_grid jo scored :
  score_transport jo = Returned scored -> In (score_of scored) halves.
Proof.
  destruct jo as [j|]; [|intros H; injection H as <-; on_grid].
  rewrite score_transport_hours.
  destruct (journey_hours j) as [hours|e]; [|discriminate].
  intros H. injection H as <-. unfold finish, score_of; cbn [fst].
  pose proof (transport_duration_score hours) as H1.
  set (s1 := transport_duration hours) in *.
  pose proof (transport_changes_score j s1) as H2.
  set (s2 := transport_changes j s1) in *.
  clearbody s1 s2.
  revert H2. generalize (acc_score s2). generalize dependent (acc_score s1).
  intros v1 H1 v2 H2.
  cases H2; cases H1; on_grid.
Qed.

(** The division of the minutes by 60 returns exactly below
    [overflow_minutes], and raises nothing but [OverflowError]. *)
Lemma journey_hours_returns j :
  (exists hours, journey_hours j = Returned hours)
  <-> (Z.abs (duration_minutes j) < overflow_minutes)%Z.
Proof. exact (proj1 (DivisionFacts.truediv_60 (duration_minutes j))). Qed.

Lemma journey_hours_raises j :
  journey_hours j = Raised "OverflowError"
  <-> (overflow_minutes <= Z.abs (duration_minutes j))%Z.
Proof. exact (proj1 (proj2 (DivisionFacts.truediv_60 (duration_minutes j)))). Qed.

Lemma journey_hours_raised j e : journey_hours j = Raised e -> e = "OverflowError".
Proof. exact (proj2 (proj2 (DivisionFacts.truediv_60 (duration_minutes j))) e). Qed.

Lemma score_transport_returns jo :
  duration_in_range jo -> exists scored, score_transport jo = Returned scored.
Proof.
  destruct jo as [j|]; [|eauto]. cbn [duration_in_range]. intros H.
  rewrite score_transport_hours.
  apply journey_hours_returns in H as [hours ->]. eauto.
Qed.

Lemma score_transport_raises jo :
  score_transport jo = Raised "OverflowError" <-> ~ duration_in_range jo.
Proof.
  destruct jo as [j|]; cbn [duration_in_range].
  - rewrite score_transport_hours. split.
    + intros H Hlt. apply journey_hours_returns in Hlt as [hours E].
      rewrite E in H. discriminate.
    + intros H. assert (Hge : (overflow_minutes <= Z.abs (duration_minutes j))%Z) by lia.
      apply journey_hours_raises in Hge. now rewrite Hge.
  - split; [discriminate|tauto].
Qed.

Lemma size_band_score km :
  In (acc_score (size_band km)) [10.0; 9.0; 8.0; 7.0; 6.0; 5.0; 4.0; 3.0; 2.0].
Proof. unfold size_band. branches. Qed.

Lemma score_size_in_sizes ro : In (score_of (score_size ro)) size_scores.
Proof.
  destruct ro as [r|]; [|on_grid].
  unfold score_size, score_of.
  destruct (skiable_terrain_km r) as [km|]; [|on_grid].
  cbn [fst].
  pose proof (size_band_score km) as H1.
  revert H1. generalize (acc_score (size_band km)). intros v1 H1.
  cases H1; on_grid.
Qed.

Lemma size_scores_on_grid s : In s size_scores -> In s halves.
Proof. intros H. cases H; on_grid. Qed.

Lemma score_size_on_grid ro : In (score_of (score_size ro)) halves.
Proof. apply size_scores_on_grid, score_size_in_sizes. Qed.

Lemma halves_one_decimal : Forall one_decimal_in_range halves.
Proof. repeat constructor; vm_compute; reflexivity. Qed.

Lemma on_grid_one_decimal s : In s halves -> one_decimal_in_range s.
Proof. intros H. exact (proj1 (List.Forall_forall _ _) halves_one_decimal s H). Qed.

(** C1 as amended: for every forecast, snow conditions and resort, present or
    absent, [score_weather], [score_snow] and [score_size] return a score in
    the closed interval [0, 10] that is rounded to one decimal ([score_size]
    without a clamp).  [score_transport] does so for an absent journey and for
    exactly the journeys of fewer than 60 * (2^1024 - 2^970) minutes in
    magnitude; whenever it returns, its score is in [0, 10] and rounded to one
    decimal; from that many minutes on, the division of the minutes by 60
    overflows and it raises [OverflowError], which is the only thing it
    raises. *)
Theorem sub_scores_in_range_one_decimal
    (forecast : option WeatherForecast) (conds : option SnowConditions)
    (jo : option Journey) (ro : option Resort) :
  one_decimal_in_range (score_of (score_weather forecast))
  /\ one_decimal_in_range (score_of (score_snow conds))
  /\ one_decimal_in_range (score_of (score_size ro))
  /\ (forall scored,
        score_transport jo = Returned scored -> one_decimal_in_range (score_of scored))
  /\ (duration_in_range jo <->
        exists scored,
          score_transport jo = Returned scored /\ one_decimal_in_range (score_of scored))
  /\ (~ duration_in_range jo <-> score_transport jo = Raised "OverflowError")
  /\ (forall e, score_transport jo = Raised e -> e = "OverflowError").
Proof.
  assert (Hret : forall scored,
             score_transport jo = Returned scored -> one_decimal_in_range (score_of scored)).
  { intros scored H. apply on_grid_one_decimal. now apply (score_transport_on_grid jo). }
  split; [apply on_grid_one_decimal, score_weather_on_grid|].
  split; [apply on_grid_one_decimal, score_snow_on_grid|].
  split; [apply on_grid_one_decimal, score_size_on_grid|].
  split; [exact Hret|]. split; [|split].
  - split.
    + intros Hrange. destruct (score_transport_returns jo Hrange) as [scored Hs].
      exists scored. split; [exact Hs|now apply Hret].
    + intros [scored [Hs _]]. destruct jo as [j|]; [|exact I]. cbn [duration_in_range].
      rewrite score_transport_hours in Hs.
      destruct (journey_hours j) as [hours|e] eqn:E; [|discriminate].
      apply journey_hours_returns. eauto.
  - split; apply score_transport_raises.
  - intros e. destruct jo as [j|]; [|discriminate].
    rewrite score_transport_hours.
    destruct (journey_hours j) as [hours|e'] eqn:E; [discriminate|].
    intros H. injection H as <-. exact (journey_hours_raised j e' E).
Qed.

Lemma sub_scores_in_range_one_decimal_witness :
  exists scored,
    score_transport (Some (journey_of 95 0)) = Returned scored
    /\ one_decimal_in_range (score_of scored).
Proof.
  apply (proj1 (proj1 (proj2 (proj2 (proj2 (proj2
           (sub_scores_in_range_one_decimal None None (Some (journey_of 95 0)) None))))))).
  vm_compute. reflexivity.
Defined.

(** C1 as stated fails: for a journey of 10^400 minutes [score_transport]
    returns no score at all, the division of the minutes by 60 raising
    [OverflowError]; so it does at 60 * (2^1024 - 2^970) minutes, while one
    minute less is scored 2.0, its hours being the largest float. *)
Lemma endless_journey_is_not_scored :
  score_transport (Some endless_journey) = Raised "OverflowError"
  /\ ~ (exists scored,
          score_transport (Some endless_journey) = Returned scored
          /\ one_decimal_in_range (score_of scored))
  /\ score_transport (Some (journey_of overflow_minutes 1)) = Raised "OverflowError"
  /\ score_transport (Some (journey_of (overflow_minutes - 1) 1))
     = Returned
         (2.0, [],
          ["Very long journey (" +:+ format_f 1 0x1.fffffffffffffp+1023 +:+ "h)"]).
Proof.
  assert (H : score_transport (Some endless_journey) = Raised "OverflowError").
  { vm_compute. reflexivity. }
  split; [exact H|]. split; [|split; vm_compute; reflexivity].
  intros [scored [Hs _]]. rewrite H in Hs. discriminate.
Qed.

Lemma calculate_total_score_spec w s t z :
  calculate_total_score w s t z = weighted_sum_spec w s t z.
Proof.
  unfold calculate_total_score, weighted_sum_spec,
    WEATHER_WEIGHT, SNOW_WEIGHT, TRANSPORT_WEIGHT, SIZE_WEIGHT.
  rewrite (FloatFacts.mul_comm w), (FloatFacts.mul_comm s),
    (FloatFacts.mul_comm t), (FloatFacts.mul_comm z). reflexivity.
Qed.

(** What [score_resort] returns, in terms of the four scorers. *)
Lemma score_resort_scored weather snow transport resort scored :
  score_transport transport = Returned scored ->
  score_resort weather snow transport resort
  = Returned
      (calculate_total_score (score_of (score_weather weather)) (score_of (score_snow snow))
         (score_of scored) (score_of (score_size resort)),
       score_of (score_weather weather), score_of (score_snow snow), score_of scored,
       score_of (score_size resort),
       highlights_of (score_weather weather) ++ highlights_of (score_snow snow)
         ++ highlights_of scored ++ highlights_of (score_size resort),
       concerns_of (score_weather weather) ++ concerns_of (score_snow snow)
         ++ concerns_of scored ++ concerns_of (score_size resort)).
Proof.
  intros H. unfold score_resort. rewrite H.
  destruct (score_weather weather) as [[ws wh] wc].
  destruct (score_snow snow) as [[ss sh] sc].
  destruct scored as [[ts th] tc].
  destruct (score_size resort) as [[zs zh] zc].
  reflexivity.
Qed.

Lemma score_resort_raised weather snow transport resort e :
  score_transport transport = Raised e ->
  score_resort weather snow transport resort = Raised e.
Proof.
  intros H. unfold score_resort. rewrite H.
  destruct (score_weather weather) as [[ws wh] wc].
  destruct (score_snow snow) as [[ss sh] sc].
  reflexivity.
Qed.

(** C2: [calculate_total_score] is the weighted sum
    [round(0.20*weather + 0.45*snow + 0.10*transport + 0.25*size, 1)], for all
    sub-scores; [score_resort] returns, as its four sub-scores, the scores
    that [score_weather], [score_snow], [score_transport] and [score_size]
    give for its four arguments, and, as its total, that weighted sum of
    exactly these four; it returns whenever [score_transport] does, and
    raises what [score_transport] raises. *)
Theorem calculate_total_score_weighted_sum :
  (forall w s t z, calculate_total_score w s t z = weighted_sum_spec w s t z)
  /\ (forall weather snow transport resort,
        match score_transport transport with
        | Returned scored =>
            score_resort weather snow transport resort
            = Returned
                (weighted_sum_spec (score_of (score_weather weather))
                   (score_of (score_snow snow)) (score_of scored)
                   (score_of (score_size resort)),
                 score_of (score_weather weather), score_of (score_snow snow),
                 score_of scored, score_of (score_size resort),
                 highlights_of (score_weather weather) ++ highlights_of (score_snow snow)
                   ++ highlights_of scored ++ highlights_of (score_size resort),
                 concerns_of (score_weather weather) ++ concerns_of (score_snow snow)
                   ++ concerns_of scored ++ concerns_of (score_size resort))
        | Raised e => score_resort weather snow transport resort = Raised e
        end)
  /\ score_resort (Some clear_cold) (Some powder_day) (Some (journey_of 95 0)) (Some delta)
     = Returned (8.8, 10.0, 10.0, 10.0, 5.0,
                 ["Perfect ski temperature (-7C)"; "Good snowfall expected (12cm)";
                  "Sunny conditions expected"; "Excellent base depth (160cm)";
                  "Fresh powder! (25cm in 24h)"; "Powder conditions";
                  "Quick journey (1.6h)"; "Direct connection"], []).
Proof.
  split; [exact calculate_total_score_spec|]. split; [|vm_compute; reflexivity].
  intros weather snow transport resort.
  destruct (score_transport transport) as [scored|e] eqn:E.
  - rewrite (score_resort_scored _ _ _ _ _ E), calculate_total_score_spec. reflexivity.
  - now apply score_resort_raised.
Qed.

(** C3: absent data is scored, not raised: an absent forecast gives exactly
    5.0, absent snow conditions 2.5, an absent journey 3.0 and an unknown
    terrain size 5.0, each with its standard concern and no highlight;
    [score_resort] on nothing but absent data returns 3.7 with the four
    concerns. *)
Theorem absent_data_defaults (ro : option Resort) :
  terrain_of ro = None ->
  score_weather None = (5.0, [], ["Weather data unavailable"])
  /\ score_snow None = (2.5, [], ["Snow data unavailable - conditions unknown"])
  /\ score_transport None = Returned (3.0, [], ["Transport data unavailable"])
  /\ score_size ro = (5.0, [], ["Resort size unknown"])
  /\ score_resort None None None ro
     = Returned
         (3.7, 5.0, 2.5, 3.0, 5.0, [],
          ["Weather data unavailable"; "Snow data unavailable - conditions unknown";
           "Transport data unavailable"; "Resort size unknown"]).
Proof.
  intros H.
  assert (Hsize : score_size ro = (5.0, [], ["Resort size unknown"])).
  { destruct ro as [r|]; cbn in H |- *; [rewrite H|]; reflexivity. }
  repeat split; [exact Hsize|].
  unfold score_resort. rewrite Hsize. vm_compute. reflexivity.
Qed.

Lemma absent_data_defaults_witness :
  terrain_of (Some echo) = None
  /\ score_size (Some echo) = (5.0, [], ["Resort size unknown"]).
Proof.
  split; [reflexivity|].
  exact (proj1 (proj2 (proj2 (proj2 (absent_data_defaults (Some echo) eq_refl))))).
Defined.

Lemma in_minutes_from lo n d :
  (lo <= d < lo + Z.of_nat n)%Z -> In d (minutes_from lo n).
Proof.
  intros H. unfold minutes_from. apply List.in_map_iff.
  exists (Z.to_nat (d - lo)). split; [lia|]. apply List.in_seq. lia.
Qed.

Lemma under_two_hours d :
  (0 <= d < 120)%Z -> exists hours, truediv d 60 = Returned hours /\ (hours <? 2) = true.
Proof.
  intros H. apply (in_minutes_from 0 120) in H.
  assert (A : forall x, In x (minutes_from 0 120) ->
            match truediv x 60 with
            | Returned hours => hours <? 2
            | Raised _ => false
            end = true).
  { apply List.forallb_forall. vm_compute. reflexivity. }
  specialize (A d H). destruct (truediv d 60) as [hours|e]; [eauto|discriminate].
Qed.

Lemma two_to_two_and_a_half_hours d :
  (120 <= d < 150)%Z ->
  exists hours,
    truediv d 60 = Returned hours /\ (hours <? 2) = false /\ (hours <? 2.5) = true.
Proof.
  intros H. apply (in_minutes_from 120 30) in H.
  assert (A : forall x, In x (minutes_from 120 30) ->
            match truediv x 60 with
            | Returned hours => negb (hours <? 2) && (hours <? 2.5)
            | Raised _ => false
            end = true).
  { apply List.forallb_forall. vm_compute. reflexivity. }
  specialize (A d H). destruct (truediv d 60) as [hours|e]; [|discriminate].
  apply andb_prop in A as [A1 A2]. apply negb_true_iff in A1. eauto.
Qed.

(** C7: the duration bands of [score_transport] are half-open with a strict
    upper comparison: every journey of 0 to 119 minutes is in the first band
    (base score 10.0), every journey of 120 to 149 minutes in the second (base
    score 8.5); 119 minutes gives 10.0 and exactly 120 minutes gives 8.5, both
    before the change adjustment and, with one change, as the final
    transport score. *)
Theorem transport_duration_bands (j : Journey) :
  ((0 <= duration_minutes j < 120)%Z ->
     exists hours,
       journey_hours j = Returned hours
       /\ transport_duration hours
          = highlight ("Quick journey (" +:+ format_f 1 hours +:+ "h)") (start 10.0))
  /\ ((120 <= duration_minutes j < 150)%Z ->
     exists hours,
       journey_hours j = Returned hours
       /\ transport_duration hours
          = highlight ("Good travel time (" +:+ format_f 1 hours +:+ "h)") (start 8.5))
  /\ (duration_minutes j = 119%Z ->
     (exists hours,
        journey_hours j = Returned hours
        /\ transport_duration hours = highlight "Quick journey (2.0h)" (start 10.0))
     /\ (changes j = 1%Z ->
         score_transport (Some j) = Returned (10.0, ["Quick journey (2.0h)"], [])))
  /\ (duration_minutes j = 120%Z ->
     (exists hours,
        journey_hours j = Returned hours
        /\ transport_duration hours = highlight "Good travel time (2.0h)" (start 8.5))
     /\ (changes j = 1%Z ->
         score_transport (Some j) = Returned (8.5, ["Good travel time (2.0h)"], []))).
Proof.
  assert (B1 : (0 <= duration_minutes j < 120)%Z ->
     exists hours,
       journey_hours j = Returned hours
       /\ transport_duration hours
          = highlight ("Quick journey (" +:+ format_f 1 hours +:+ "h)") (start 10.0)).
  { intros H. destruct (under_two_hours _ H) as [hours [E H1]].
    exists hours. split; [exact E|]. unfold transport_duration. now rewrite H1. }
  assert (B2 : (120 <= duration_minutes j < 150)%Z ->
     exists hours,
       journey_hours j = Returned hours
       /\ transport_duration hours
          = highlight ("Good travel time (" +:+ format_f 1 hours +:+ "h)") (start 8.5)).
  { intros H. destruct (two_to_two_and_a_half_hours _ H) as [hours [E [H1 H2]]].
    exists hours. split; [exact E|]. unfold transport_duration. now rewrite H1, H2. }
  split; [exact B1|]. split; [exact B2|]. split; intros H.
  - destruct (B1 ltac:(lia)) as [hours [E Hband]].
    assert (Eh : journey_hours j = truediv 119 60) by (unfold journey_hours; now rewrite H).
    assert (Hh : hours = SF2Prim (SFdiv prec emax (int_to_SF 119) (int_to_SF 60))).
    { rewrite Eh in E. vm_compute in E. injection E as <-. vm_compute. reflexivity. }
    assert (Hd : transport_duration hours = highlight "Quick journey (2.0h)" (start 10.0)).
    { rewrite Hband, Hh. vm_compute. reflexivity. }
    split; [exists hours; now split|]. intros Hc.
    rewrite score_transport_hours, E. unfold transport_changes. rewrite Hd, Hc.
    vm_compute. reflexivity.
  - destruct (B2 ltac:(lia)) as [hours [E Hband]].
    assert (Eh : journey_hours j = truediv 120 60) by (unfold journey_hours; now rewrite H).
    assert (Hh : hours = SF2Prim (SFdiv prec emax (int_to_SF 120) (int_to_SF 60))).
    { rewrite Eh in E. vm_compute in E. injection E as <-. vm_compute. reflexivity. }
    assert (Hd : transport_duration hours = highlight "Good travel time (2.0h)" (start 8.5)).
    { rewrite Hband, Hh. vm_compute. reflexivity. }
    split; [exists hours; now split|]. intros Hc.
    rewrite score_transport_hours, E. unfold transport_changes. rewrite Hd, Hc.
    vm_compute. reflexivity.
Qed.

Lemma transport_duration_bands_witness :
  duration_minutes (journey_of 120 1) = 120%Z
  /\ changes (journey_of 120 1) = 1%Z
  /\ score_transport (Some (journey_of 120 1))
     = Returned (8.5, ["Good travel time (2.0h)"], []).
Proof.
  split; [reflexivity|]. split; [reflexivity|].
  exact (proj2 (proj2 (proj2 (proj2 (transport_duration_bands (journey_of 120 1)))) eq_refl)
           eq_refl).
Defined.

(** What the base-depth step does with a depth below 40 cm. *)
Lemma snow_base_depth_low c b st :
  snow_base c = Some b -> (b < 40)%Z ->
  snow_base_depth c st = if (b =? 0)%Z then st else low_base_step b st.
Proof.
  intros Hb Hlt. unfold snow_base_depth, low_base_step, low_base_concern. rewrite Hb.
  cbn [truthy_int]. destruct (b =? 0)%Z eqn:E0; [reflexivity|]. cbn [negb].
  destruct (150 <=? b)%Z eqn:E1; [apply Z.leb_le in E1; lia|].
  destruct (100 <=? b)%Z eqn:E2; [apply Z.leb_le in E2; lia|].
  destruct (60 <=? b)%Z eqn:E3; [apply Z.leb_le in E3; lia|].
  destruct (b <? 40)%Z eqn:E4; [reflexivity|apply Z.ltb_ge in E4; lia].
Qed.

(** The steps after the base-depth step look at the conditions only: they
    add to the score they are handed and append to the lists they are
    handed. *)
Lemma after_base_depth_lists c st :
  acc_highlights (after_base_depth c st)
  = acc_highlights st ++ acc_highlights (after_base_depth c (start 5.0))
  /\ acc_concerns (after_base_depth c st)
     = acc_concerns st ++ acc_concerns (after_base_depth c (start 5.0)).
Proof.
  unfold after_base_depth, snow_quality_adjust, snow_week, snow_fresh_24h.
  repeat match goal with
  | |- context [if ?c then _ else _] => destruct c
  | |- context [match ?c with Some _ => _ | None => _ end] => destruct c
  end;
  unfold highlight, concern, plus, minus, start; cbn [acc_highlights acc_concerns];
  rewrite <- ?app_assoc, ?app_nil_r; cbn [app]; split; reflexivity.
Qed.

Lemma after_base_depth_score c st st' :
  acc_score st = acc_score st' ->
  acc_score (after_base_depth c st) = acc_score (after_base_depth c st').
Proof.
  intros H. unfold after_base_depth, snow_quality_adjust, snow_week, snow_fresh_24h.
  repeat match goal with
  | |- context [if ?c then _ else _] => destruct c
  | |- context [match ?c with Some _ => _ | None => _ end] => destruct c
  end;
  unfold highlight, concern, plus, minus; cbn [acc_score]; now rewrite H.
Qed.

Lemma after_base_depth_nothing c st :
  base_depth_only c -> after_base_depth c st = st.
Proof.
  intros [H24 [H7 Hq]].
  unfold after_base_depth, snow_quality_adjust, snow_week, snow_fresh_24h.
  rewrite H24, H7. unfold str_in in *. cbn [existsb] in *.
  repeat match type of Hq with
  | (_ || _)%bool = false => apply orb_false_elim in Hq as [? Hq]
  end.
  repeat match goal with
  | H : String.eqb _ _ = false |- _ => rewrite H; clear H
  end.
  reflexivity.
Qed.

(** C8 as amended: for present snow conditions whose base depth is below 40 cm
    and not 0, [score_snow] takes 2.0 off the base score of 5.0, so that the
    remaining steps start from 3.0, and reports the low-snow-base concern as
    its first concern, the highlights and the other concerns being those of
    the remaining steps; when nothing but the base depth is reported the
    result is 3.0 with that one concern.  A base depth of 0 is treated like a
    missing one: nothing is taken off and no such concern is reported. *)
Theorem low_base_depth_penalty (c : SnowConditions) (b : Z) :
  snow_base c = Some b -> (b < 40)%Z ->
  (b <> 0%Z ->
     score_snow (Some c) = scored_from c (low_base_step b (start 5.0))
     /\ score_of (score_snow (Some c)) = score_of (scored_from c (start 3.0))
     /\ highlights_of (score_snow (Some c)) = highlights_of (scored_from c (start 5.0))
     /\ concerns_of (score_snow (Some c))
        = low_base_concern b :: concerns_of (scored_from c (start 5.0))
     /\ (base_depth_only c -> score_snow (Some c) = (3.0, [], [low_base_concern b])))
  /\ (b = 0%Z -> score_snow (Some c) = scored_from c (start 5.0)).
Proof.
  intros Hb Hlt.
  assert (E : score_snow (Some c)
              = scored_from c (if (b =? 0)%Z then start 5.0
                               else low_base_step b (start 5.0))).
  { unfold score_snow, scored_from, after_base_depth.
    now rewrite (snow_base_depth_low c b (start 5.0) Hb Hlt). }
  split; [|intros ->; exact E].
  intros H0. apply Z.eqb_neq in H0. rewrite H0 in E.
  split; [exact E|]. rewrite E. unfold scored_from, finish, score_of, highlights_of,
    concerns_of. cbn [fst snd].
  destruct (after_base_depth_lists c (low_base_step b (start 5.0))) as [Hh Hc].
  split; [|split; [exact Hh|split; [exact Hc|]]].
  - f_equal. f_equal. apply after_base_depth_score. vm_compute. reflexivity.
  - intros Honly. rewrite (after_base_depth_nothing c _ Honly).
    unfold low_base_step, concern, minus, start.
    cbn [acc_score acc_highlights acc_concerns app]. reflexivity.
Qed.

Lemma low_base_depth_penalty_witness :
  snow_base thin_cover = Some 30%Z
  /\ score_snow (Some thin_cover) = (3.0, [], ["Low snow base (30cm)"]).
Proof.
  split; [reflexivity|].
  apply (proj2 (proj2 (proj2 (proj2
           (proj1 (low_base_depth_penalty thin_cover 30 eq_refl eq_refl)
              ltac:(discriminate)))))).
  repeat split; reflexivity.
Defined.

(** C8 as stated fails: a present base depth of exactly 0 is below 40, yet
    [score_snow] takes nothing off the base score of 5.0 and reports no
    concern. *)
Lemma zero_base_depth_not_penalised :
  snow_base bare_ground = Some 0%Z
  /\ score_snow (Some bare_ground) = (5.0, [], [])
  /\ ~ (forall c b, snow_base c = Some b -> (b < 40)%Z ->
          score_snow (Some c) = scored_from c (low_base_step b (start 5.0)))
  /\ ~ (forall c b, snow_base c = Some b -> (b < 40)%Z ->
          In (low_base_concern b) (concerns_of (score_snow (Some c)))).
Proof.
  split; [reflexivity|]. split; [vm_compute; reflexivity|]. split.
  - intros H. specialize (H bare_ground 0%Z eq_refl eq_refl).
    apply (f_equal concerns_of) in H. vm_compute in H. discriminate.
  - intros H. specialize (H bare_ground 0%Z eq_refl eq_refl).
    vm_compute in H. exact H.
Qed.

End ScoringFacts.

(** ** The weather batch *)

Module BatchFacts.

Import WeatherService Props Samples.

Section Batch.

Variable get_forecast : float -> float -> date -> Outcome (option WeatherForecast).
Variable on_progress : option (Z -> Z -> Outcome unit).
Variable target_date : date.
Hypothesis quiet : progress_never_raises on_progress.

Let task := task_result get_forecast target_date.

Lemma fetch_with_progress_result total r completed :
  fst (fetch_with_progress get_forecast on_progress target_date total r completed)
  = task r.
Proof using quiet.
  unfold fetch_with_progress, task, task_result.
  destruct (get_forecast _ _ _); [|reflexivity].
  destruct on_progress as [callback|]; [|reflexivity].
  cbn in quiet. now rewrite quiet.
Qed.

Lemma gather_results total resorts :
  forall completed,
    gather get_forecast on_progress target_date total completed resorts
    = map task resorts.
Proof using quiet.
  induction resorts as [|r rest IH]; intros completed; cbn [gather map]; [reflexivity|].
  pose proof (fetch_with_progress_result total r completed) as E.
  destruct (fetch_with_progress _ _ _ total r completed) as [result completed'].
  cbn [fst] in E. now rewrite E, IH.
Qed.

Lemma get_forecasts_batch_fold resorts :
  get_forecasts_batch get_forecast on_progress target_date resorts
  = fold_left store (map task resorts) ∅.
Proof using quiet. unfold get_forecasts_batch. now rewrite gather_results. Qed.

(** A key no returning task carries is left as it was. *)
Lemma fold_store_other resorts :
  forall m k,
    ~ In k (map id (fetched get_forecast target_date resorts)) ->
    fold_left store (map task resorts) m !! k = m !! k.
Proof.
  induction resorts as [|r rest IH]; intros m k Hk; cbn [map fold_left]; [reflexivity|].
  unfold fetched in Hk. cbn [List.filter] in Hk.
  unfold task at 2, task_result. unfold fetch in Hk.
  destruct (get_forecast _ _ _) as [v|e]; cbn [raises negb map In] in Hk; cbn [store].
  - rewrite IH by tauto. apply lookup_insert_ne. tauto.
  - now apply IH.
Qed.

Lemma fetched_ids resorts k :
  In k (map id (fetched get_forecast target_date resorts)) -> In k (map id resorts).
Proof.
  intros H. apply List.in_map_iff in H as [r [<- Hr]].
  apply List.filter_In in Hr as [Hr _]. now apply List.in_map.
Qed.

Lemma fold_store_returned resorts :
  List.NoDup (map id resorts) ->
  forall m r v, In r resorts -> fetch get_forecast target_date r = Returned v ->
    fold_left store (map task resorts) m !! id r = Some v.
Proof.
  induction resorts as [|x rest IH]; intros Hnd m r v Hin Hv; [destruct Hin|].
  cbn [map] in Hnd. apply List.NoDup_cons_iff in Hnd as [Hx Hnd].
  cbn [map fold_left]. destruct Hin as [->|Hin].
  - rewrite fold_store_other.
    + unfold task, task_result. unfold fetch in Hv. rewrite Hv. cbn [store].
      apply lookup_insert_eq.
    + intros H. apply Hx. now apply fetched_ids.
  - now apply IH.
Qed.

Lemma fold_store_raised resorts :
  List.NoDup (map id resorts) ->
  forall m r e, In r resorts -> fetch get_forecast target_date r = Raised e ->
    fold_left store (map task resorts) m !! id r = m !! id r.
Proof.
  induction resorts as [|x rest IH]; intros Hnd m r e Hin He; [destruct Hin|].
  cbn [map] in Hnd. apply List.NoDup_cons_iff in Hnd as [Hx Hnd].
  cbn [map fold_left]. destruct Hin as [->|Hin].
  - rewrite fold_store_other.
    + unfold task, task_result. unfold fetch in He. now rewrite He.
    + intros H. apply Hx. now apply fetched_ids.
  - rewrite (IH Hnd _ r e Hin He).
    unfold task, task_result. destruct (get_forecast _ _ _); cbn [store]; [|reflexivity].
    apply lookup_insert_ne. intros E. apply Hx. rewrite E. now apply List.in_map.
Qed.

Lemma fold_store_size resorts :
  List.NoDup (map id resorts) ->
  forall m, (forall r, In r resorts -> m !! id r = None) ->
    size (fold_left store (map task resorts) m)
    = (size m + length (fetched get_forecast target_date resorts))%nat.
Proof.
  induction resorts as [|x rest IH]; intros Hnd m Hfresh; cbn [map fold_left].
  - cbn. lia.
  - cbn [map] in Hnd. apply List.NoDup_cons_iff in Hnd as [Hx Hnd].
    unfold fetched. cbn [List.filter]. unfold task at 2, task_result, fetch.
    destruct (get_forecast _ _ _) as [v|e]; cbn [raises negb store length].
    + rewrite IH; [|exact Hnd|].
      * rewrite map_size_insert_None by (apply Hfresh; now left).
        unfold fetched, fetch. lia.
      * intros r Hr. rewrite lookup_insert_ne; [apply Hfresh; now right|].
        intros E. apply Hx. rewrite E. now apply List.in_map.
    + apply IH; [exact Hnd|]. intros r Hr. apply Hfresh. now right.
Qed.

End Batch.

(** C4 as amended: with a progress callback that does not raise and resorts of
    distinct ids, [get_forecasts_batch] returns a mapping (it has no way to
    raise) in which every resort whose fetch returned has its forecast and
    every resort whose fetch raised has no entry at all; the number of entries
    is the number of fetches that returned, so one failure among N resorts
    leaves N - 1 entries.  *)
Theorem get_forecasts_batch_skips_failed
    (get_forecast : float -> float -> date -> Outcome (option WeatherForecast))
    (on_progress : option (Z -> Z -> Outcome unit)) (target_date : date)
    (resorts : list Resort) :
  progress_never_raises on_progress ->
  List.NoDup (map id resorts) ->
  let forecasts := get_forecasts_batch get_forecast on_progress target_date resorts in
  (forall r, In r resorts ->
     match fetch get_forecast target_date r with
     | Returned forecast => forecasts !! id r = Some forecast
     | Raised _ => forecasts !! id r = None /\ dict_get forecasts (id r) = None
     end)
  /\ size forecasts = length (fetched get_forecast target_date resorts)
  /\ (forall failed,
        Permutation resorts (failed :: fetched get_forecast target_date resorts) ->
        S (size forecasts) = length resorts).
Proof.
  intros quiet Hnd forecasts. subst forecasts.
  rewrite get_forecasts_batch_fold by exact quiet.
  assert (Hsize : size (fold_left store (map (task_result get_forecast target_date) resorts) ∅)
                  = length (fetched get_forecast target_date resorts)).
  { rewrite fold_store_size; [now rewrite map_size_empty|exact Hnd|].
    intros r _. apply lookup_empty. }
  split; [|split; [exact Hsize|]].
  - intros r Hr. destruct (fetch get_forecast target_date r) as [v|e] eqn:E.
    + now apply fold_store_returned.
    + assert (A : fold_left store (map (task_result get_forecast target_date) resorts) ∅
                  !! id r = None).
      { rewrite (fold_store_raised get_forecast target_date resorts Hnd _ r e Hr E).
        apply lookup_empty. }
      split; [exact A|]. unfold dict_get. now rewrite A.
  - intros failed Hp. rewrite Hsize. apply Permutation_length in Hp. now rewrite Hp.
Qed.

Lemma get_forecasts_batch_skips_failed_witness :
  size (get_forecasts_batch flaky_forecast None 0%Z five_resorts)
  = length (fetched flaky_forecast 0%Z five_resorts).
Proof.
  refine (proj1 (proj2 (get_forecasts_batch_skips_failed flaky_forecast None 0%Z
                          five_resorts _ _))).
  - exact I.
  - vm_compute. repeat constructor; cbn; intuition discriminate.
Defined.

(** C4 as stated fails: of five resorts one fetch raises, and the mapping has
    four entries, none of them for the failed resort. *)
Lemma failed_fetch_leaves_no_entry :
  length five_resorts = 5%nat
  /\ length (List.filter (fun r => raises (fetch flaky_forecast 0%Z r)) five_resorts) = 1%nat
  /\ size (get_forecasts_batch flaky_forecast None 0%Z five_resorts) = 4%nat
  /\ get_forecasts_batch flaky_forecast None 0%Z five_resorts !! "charlie" = None
  /\ size (get_forecasts_batch flaky_forecast None 0%Z five_resorts)
     <> length five_resorts.
Proof.
  assert (S4 : size (get_forecasts_batch flaky_forecast None 0%Z five_resorts) = 4%nat).
  { vm_compute. reflexivity. }
  split; [reflexivity|]. split; [vm_compute; reflexivity|]. split; [exact S4|].
  split; [vm_compute; reflexivity|]. rewrite S4. discriminate.
Qed.

End BatchFacts.

(** ** Ranking: the sort by score *)

Module RankingFacts.

Import ScoringEngine RecommenderEngine Props Samples.
Import FloatFacts.
Local Open Scope float_scope.

Lemma insert_by_score_perm r l : Permutation (r :: l) (insert_by_score r l).
Proof.
  induction l as [|x l IH]; cbn [insert_by_score]; [reflexivity|].
  destruct (score r <? score x); [|reflexivity].
  rewrite perm_swap. now constructor.
Qed.

Lemma sort_by_score_perm l : Permutation l (sort_by_score l).
Proof.
  induction l as [|r l IH]; cbn [sort_by_score]; [constructor|].
  rewrite <- insert_by_score_perm. now constructor.
Qed.

Lemma insert_by_score_sorted r l :
  List.Forall comparable l -> StronglySorted no_greater l ->
  StronglySorted no_greater (insert_by_score r l).
Proof.
  induction l as [|x l IH]; cbn [insert_by_score]; intros Hok Hs.
  - repeat constructor.
  - apply StronglySorted_inv in Hs as [Hs Hx].
    inversion Hok as [|? ? Hokx Hokl]; subst.
    destruct (score r <? score x) eqn:E.
    + constructor; [now apply IH|].
      apply (Permutation_Forall (insert_by_score_perm r l)).
      constructor; [|exact Hx]. now apply ltb_asym.
    + constructor; [now constructor|].
      constructor; [exact E|].
      rewrite List.Forall_forall in Hx |- *. intros y Hy.
      exact (ltb_negtrans _ _ _ Hokx E (Hx y Hy)).
Qed.

Lemma sort_by_score_sorted l :
  List.Forall comparable l -> StronglySorted no_greater (sort_by_score l).
Proof.
  induction l as [|r l IH]; cbn [sort_by_score]; intros Hok; [constructor|].
  inversion Hok; subst.
  apply insert_by_score_sorted; [|now apply IH].
  now apply (Permutation_Forall (sort_by_score_perm l)).
Qed.

Lemma strongly_sorted_descending l : StronglySorted no_greater l -> descending l.
Proof.
  induction 1 as [|a l Hs IH Ha]; intros i j x y Hij Hi Hj.
  - now rewrite lookup_nil in Hi.
  - destruct j as [|j]; [lia|]. cbn in Hj.
    destruct i as [|i]; cbn in Hi.
    + injection Hi as <-. rewrite List.Forall_forall in Ha. apply Ha.
      apply list_elem_of_In. eapply list_elem_of_lookup_2; eauto.
    + eapply IH; [|eassumption|eassumption]. lia.
Qed.

Lemma insert_by_score_ties r l k :
  is_nan k = false ->
  List.filter (fun x => tied k (score x)) (insert_by_score r l)
  = List.filter (fun x => tied k (score x)) (r :: l).
Proof.
  intros Hk. induction l as [|x l IH]; cbn [insert_by_score]; [reflexivity|].
  destruct (score r <? score x) eqn:E; [|reflexivity].
  cbn [List.filter] in *. rewrite IH.
  destruct (tied k (score x)) eqn:Tx, (tied k (score r)) eqn:Tr; try reflexivity.
  exfalso. unfold tied in Tx, Tr.
  apply andb_prop in Tx as [Tx1 Tx2]. apply andb_prop in Tr as [Tr1 Tr2].
  apply negb_true_iff in Tx1, Tx2, Tr1, Tr2.
  rewrite (ltb_negtrans _ _ _ Hk Tr2 Tx1) in E. discriminate.
Qed.

Lemma sort_by_score_ties l : ties_in_order l (sort_by_score l).
Proof.
  intros k Hk. induction l as [|r l IH]; cbn [sort_by_score]; [reflexivity|].
  rewrite insert_by_score_ties by exact Hk. cbn [List.filter]. now rewrite IH.
Qed.

Lemma sort_by_score_ranked l :
  List.Forall comparable l -> ranked_by_score l (sort_by_score l).
Proof.
  intros Hok. split; [apply sort_by_score_perm|]. split.
  - apply strongly_sorted_descending, sort_by_score_sorted, Hok.
  - apply sort_by_score_ties.
Qed.

(** *** The scores that are sorted are numbers *)

Lemma insert_new_In x l y : In y (insert_new x l) <-> y = x \/ In y l.
Proof.
  unfold insert_new. destruct (existsb (PrimFloat.Leibniz.eqb x) l) eqn:E.
  - split; [tauto|]. intros [->|H]; [|exact H].
    apply List.existsb_exists in E as [z [Hz Ez]].
    apply FloatAxioms.Leibniz.eqb_spec in Ez. now subst z.
  - cbn [In]. split; intros [H|H]; auto.
Qed.

Lemma fold_insert_new_In l y : In y (fold_right insert_new [] l) <-> In y l.
Proof.
  induction l as [|x l IH]; cbn [fold_right In]; [tauto|].
  rewrite insert_new_In, IH. split; intros [H|H]; auto.
Qed.

Lemma sums_In xs ys a b : In a xs -> In b ys -> In (a + b) (sums xs ys).
Proof.
  intros Ha Hb. unfold sums. apply fold_insert_new_In, List.in_flat_map.
  exists a. split; [exact Ha|]. now apply List.in_map.
Qed.

Lemma scaled_In k xs x : In x xs -> In (x * k) (scaled k xs).
Proof. intros H. unfold scaled. now apply (List.in_map (fun x => x * k)). Qed.

Lemma forallb_In {A} (f : A -> bool) (l : list A) x :
  forallb f l = true -> In x l -> f x = true.
Proof. intros H. now apply List.forallb_forall. Qed.

Lemma weighted_sums_ok : forallb rounds_ok weighted_sums = true.
Proof. vm_compute. reflexivity. Qed.

Lemma weighted_sum_In w s t z :
  In w halves -> In s halves -> In t halves -> In z size_scores ->
  In (w * WEATHER_WEIGHT + s * SNOW_WEIGHT + t * TRANSPORT_WEIGHT + z * SIZE_WEIGHT)
    weighted_sums.
Proof.
  intros Hw Hs Ht Hz. unfold weighted_sums.
  apply sums_In; [apply sums_In; [apply sums_In|]|]; apply scaled_In; assumption.
Qed.

Lemma total_score_ok w s t z :
  In w halves -> In s halves -> In t halves -> In z size_scores ->
  total_ok (calculate_total_score w s t z) = true.
Proof.
  intros Hw Hs Ht Hz.
  exact (forallb_In rounds_ok weighted_sums _ weighted_sums_ok
           (weighted_sum_In w s t z Hw Hs Ht Hz)).
Qed.

(** A recommendation is built from what [score_resort] returns. *)
Lemma recommend_returned r w s t rec :
  recommend r w s t = Returned rec ->
  exists scored transport_scored,
    score_resort w s t (Some r) = Returned scored
    /\ score_transport t = Returned transport_scored
    /\ score rec
       = calculate_total_score (score_of (score_weather w)) (score_of (score_snow s))
           (score_of transport_scored) (score_of (score_size (Some r)))
    /\ resort rec = r
    /\ weather_forecast rec = w
    /\ snow_conditions rec = s
    /\ journey rec = t
    /\ highlights rec = take 5 (all_highlights scored)
    /\ concerns rec = take 5 (all_concerns scored).
Proof.
  unfold recommend.
  destruct (score_transport t) as [transport_scored|e] eqn:Et.
  - rewrite (ScoringFacts.score_resort_scored w s t (Some r) _ Et). cbn [bind].
    intros H. injection H as <-. eexists. exists transport_scored.
    split; [reflexivity|]. repeat split; reflexivity.
  - rewrite (ScoringFacts.score_resort_raised w s t (Some r) _ Et). discriminate.
Qed.

Lemma recommend_total_ok r w s t rec :
  recommend r w s t = Returned rec -> total_ok (score rec) = true.
Proof.
  intros H. apply recommend_returned in H as [scored [ts [_ [Et [-> _]]]]].
  apply total_score_ok;
    eauto using ScoringFacts.score_weather_on_grid, ScoringFacts.score_snow_on_grid,
      ScoringFacts.score_transport_on_grid, ScoringFacts.score_size_in_sizes.
Qed.

Lemma total_ok_comparable r : total_ok (score r) = true -> comparable r.
Proof.
  unfold total_ok, comparable. intros H.
  apply andb_prop in H as [H _]. apply andb_prop in H as [H _].
  now apply negb_true_iff in H.
Qed.

(** The scoring loop, one resort at a time. *)
Lemma score_all_cons r resorts wd sd jd recs :
  score_all (r :: resorts) wd sd jd = Returned recs ->
  exists rec rest,
    recs = rec :: rest
    /\ recommend r (dict_get wd (id r)) (dict_get sd (id r)) (dict_get jd (id r))
       = Returned rec
    /\ score_all resorts wd sd jd = Returned rest.
Proof.
  cbn [score_all].
  destruct (recommend r _ _ _) as [rec|e]; cbn [bind]; [|discriminate].
  destruct (score_all resorts wd sd jd) as [rest|e]; cbn [bind]; [|discriminate].
  intros H. injection H as <-. eauto.
Qed.

Lemma score_all_In resorts wd sd jd : forall recs rec,
  score_all resorts wd sd jd = Returned recs -> In rec recs ->
  exists r,
    In r resorts
    /\ recommend r (dict_get wd (id r)) (dict_get sd (id r)) (dict_get jd (id r))
       = Returned rec.
Proof.
  induction resorts as [|r resorts IH]; intros recs rec H Hin.
  - injection H as <-. destruct Hin.
  - apply score_all_cons in H as [first [rest [-> [Hfirst Hrest]]]].
    destruct Hin as [<-|Hin]; [exists r; split; [now left|exact Hfirst]|].
    destruct (IH rest rec Hrest Hin) as [r' [Hr' Hrec]].
    exists r'. split; [now right|exact Hrec].
Qed.

Lemma score_all_comparable resorts wd sd jd recs :
  score_all resorts wd sd jd = Returned recs -> List.Forall comparable recs.
Proof.
  intros H. apply List.Forall_forall. intros rec Hin.
  destruct (score_all_In _ _ _ _ _ _ H Hin) as [r [_ Hrec]].
  eapply total_ok_comparable, recommend_total_ok, Hrec.
Qed.

Lemma score_all_resorts resorts wd sd jd : forall recs,
  score_all resorts wd sd jd = Returned recs -> map resort recs = resorts.
Proof.
  induction resorts as [|r resorts IH]; intros recs H.
  - now injection H as <-.
  - apply score_all_cons in H as [first [rest [-> [Hfirst Hrest]]]].
    cbn [map]. rewrite (IH rest Hrest).
    apply recommend_returned in Hfirst as [_ [_ [_ [_ [_ [-> _]]]]]]. reflexivity.
Qed.

(** The loop returns when the hours of every journey it is handed fit a
    float. *)
Lemma recommend_returns r w s t :
  duration_in_range t -> exists rec, recommend r w s t = Returned rec.
Proof.
  intros H. destruct (ScoringFacts.score_transport_returns t H) as [scored Hs].
  unfold recommend. rewrite (ScoringFacts.score_resort_scored w s t (Some r) _ Hs).
  cbn [bind]. eauto.
Qed.

Lemma score_all_returns resorts wd sd jd :
  (forall r, In r resorts -> duration_in_range (dict_get jd (id r))) ->
  exists recs, score_all resorts wd sd jd = Returned recs.
Proof.
  induction resorts as [|r resorts IH]; intros H; [now exists []|].
  cbn [score_all].
  destruct (recommend_returns r (dict_get wd (id r)) (dict_get sd (id r))
              (dict_get jd (id r)) (H r (or_introl eq_refl))) as [rec ->].
  destruct IH as [rest ->]; [intros r' Hr'; apply H; now right|].
  cbn [bind]. eauto.
Qed.

(** *** The orchestrator around the sort *)

(** Once the four fetches have returned, what is left of
    [generate_recommendations] is the scoring loop, the summarizer call and
    the response. *)
Lemma generate_recommendations_fetched sv rt start_location target_date n
    resorts wd sd jd :
  let day := target_date_or_saturday rt target_date in
  get_all_resorts sv = Returned resorts ->
  get_forecasts_batch sv resorts day = Returned wd ->
  get_conditions_batch sv resorts = Returned sd ->
  get_journeys_batch sv (str_or start_location settings_start_location) resorts day
    = Returned jd ->
  generate_recommendations sv rt start_location target_date n
  = bind (score_all resorts wd sd jd)
      (fun recs =>
         bind (generate_recommendation_summary sv (take_top n recs) (weekend_label rt))
           (fun summary =>
              Returned {| recommendations := take_top n recs;
                          ai_summary := summary;
                          generated_at := now rt;
                          target_weekend := weekend_label rt |})).
Proof.
  intros day Hres Hw Hs Hj. subst day.
  unfold generate_recommendations.
  unfold target_date_or_saturday in Hw, Hj.
  destruct (_get_next_weekend_dates rt) as [saturday sunday].
  cbn [fst] in Hw, Hj.
  rewrite Hres. cbn [bind]. rewrite Hw. cbn [bind]. rewrite Hs. cbn [bind].
  rewrite Hj. cbn [bind]. reflexivity.
Qed.

Lemma generate_recommendations_scored sv rt start_location target_date n
    resorts wd sd jd recs :
  let day := target_date_or_saturday rt target_date in
  get_all_resorts sv = Returned resorts ->
  get_forecasts_batch sv resorts day = Returned wd ->
  get_conditions_batch sv resorts = Returned sd ->
  get_journeys_batch sv (str_or start_location settings_start_location) resorts day
    = Returned jd ->
  score_all resorts wd sd jd = Returned recs ->
  generate_recommendations sv rt start_location target_date n
  = bind (generate_recommendation_summary sv (take_top n recs) (weekend_label rt))
      (fun summary =>
         Returned {| recommendations := take_top n recs;
                     ai_summary := summary;
                     generated_at := now rt;
                     target_weekend := weekend_label rt |}).
Proof.
  intros day Hres Hw Hs Hj Hrecs.
  rewrite (generate_recommendations_fetched sv rt start_location target_date n
             resorts wd sd jd Hres Hw Hs Hj), Hrecs.
  reflexivity.
Qed.

(** A response, when there is one, carries the top of some scored list. *)
Lemma generate_recommendations_returned sv rt start_location target_date n resp :
  generate_recommendations sv rt start_location target_date n = Returned resp ->
  exists resorts wd sd jd recs,
    score_all resorts wd sd jd = Returned recs
    /\ recommendations resp = take_top n recs.
Proof.
  unfold generate_recommendations.
  destruct (_get_next_weekend_dates rt) as [saturday sunday].
  destruct (get_all_resorts sv) as [resorts|]; cbn [bind]; [|discriminate].
  destruct (get_forecasts_batch sv resorts _) as [wd|]; cbn [bind]; [|discriminate].
  destruct (get_conditions_batch sv resorts) as [sd|]; cbn [bind]; [|discriminate].
  destruct (get_journeys_batch sv _ resorts _) as [jd|]; cbn [bind]; [|discriminate].
  destruct (score_all resorts wd sd jd) as [recs|] eqn:E; cbn [bind]; [|discriminate].
  destruct (generate_recommendation_summary sv _ _) as [summary|]; cbn [bind];
    [|discriminate].
  intros H. injection H as <-. now exists resorts, wd, sd, jd, recs.
Qed.

Lemma take_In {A} n (l : list A) x : In x (take n l) -> In x l.
Proof.
  revert l. induction n as [|n IH]; intros [|a l]; cbn; try tauto.
  intros [->|H]; [now left|right; now apply IH].
Qed.

Lemma slice_to_In {A} n (l : list A) x : In x (slice_to n l) -> In x l.
Proof. unfold slice_to. destruct (0 <=? n)%Z; apply take_In. Qed.

Lemma take_top_In n recs x : In x (take_top n recs) -> In x recs.
Proof.
  unfold take_top. intros H. apply slice_to_In in H.
  eapply Permutation_in; [symmetry; apply sort_by_score_perm|exact H].
Qed.

(** C6: [generate_recommendations] returns the first [n] of the scored
    recommendations sorted by score, highest first, where the sorted list is a
    permutation of the scored list (one recommendation per resort, in resort
    order), no later element has a greater score than an earlier one, and
    recommendations with equal scores keep their resort-list order.  With
    totals 9.0, 6.5, 6.5 and n = 2 the result is the 9.0 resort followed by
    the tied resort that comes first in the input. *)
Theorem generate_recommendations_ranks_by_score :
  (forall sv rt start_location target_date n resorts wd sd jd recs summary,
      let day := target_date_or_saturday rt target_date in
      let ranked := sort_by_score recs in
      get_all_resorts sv = Returned resorts ->
      get_forecasts_batch sv resorts day = Returned wd ->
      get_conditions_batch sv resorts = Returned sd ->
      get_journeys_batch sv (str_or start_location settings_start_location) resorts day
        = Returned jd ->
      score_all resorts wd sd jd = Returned recs ->
      generate_recommendation_summary sv (slice_to n ranked) (weekend_label rt)
        = Returned summary ->
      exists resp,
        generate_recommendations sv rt start_location target_date n = Returned resp
        /\ recommendations resp = slice_to n ranked
        /\ ((0 <= n)%Z -> recommendations resp = take (Z.to_nat n) ranked)
        /\ map resort recs = resorts
        /\ ranked_by_score recs ranked)
  /\ (forall resorts wd sd jd,
        (forall r, In r resorts -> duration_in_range (dict_get jd (id r))) ->
        exists recs, score_all resorts wd sd jd = Returned recs)
  /\ (exists recs,
        score_all [alpha; bravo; charlie] ∅ snow_table journey_table = Returned recs
        /\ ids_and_scores recs = [("alpha", 9.0); ("bravo", 6.5); ("charlie", 6.5)]
        /\ ids_and_scores (take_top 2 recs) = [("alpha", 9.0); ("bravo", 6.5)])
  /\ (exists recs,
        score_all [charlie; alpha; bravo] ∅ snow_table journey_table = Returned recs
        /\ ids_and_scores recs = [("charlie", 6.5); ("alpha", 9.0); ("bravo", 6.5)]
        /\ ids_and_scores (take_top 2 recs) = [("alpha", 9.0); ("charlie", 6.5)]).
Proof.
  split; [|split; [exact score_all_returns|split]].
  - intros sv rt start_location target_date n resorts wd sd jd recs summary day ranked
      Hres Hw Hs Hj Hrecs Hsum.
    exists {| recommendations := slice_to n ranked;
              ai_summary := summary;
              generated_at := now rt;
              target_weekend := weekend_label rt |}.
    split; [|split; [reflexivity|split; [|split]]].
    + rewrite (generate_recommendations_scored sv rt start_location target_date n
                 resorts wd sd jd recs Hres Hw Hs Hj Hrecs).
      unfold take_top. fold ranked. rewrite Hsum. reflexivity.
    + cbn [recommendations]. intros Hn. unfold slice_to.
      destruct (0 <=? n)%Z eqn:E; [reflexivity|]. apply Z.leb_gt in E. lia.
    + now apply (score_all_resorts resorts wd sd jd).
    + eapply sort_by_score_ranked, score_all_comparable, Hrecs.
  - exists (scored [alpha; bravo; charlie]). repeat split; vm_compute; reflexivity.
  - exists (scored [charlie; alpha; bravo]). repeat split; vm_compute; reflexivity.
Qed.

Lemma generate_recommendations_ranks_by_score_witness :
  exists resp,
    generate_recommendations (services_over three_resorts canned_summary) runtime
      None None 2 = Returned resp
    /\ recommendations resp = slice_to 2 (sort_by_score (scored three_resorts)).
Proof.
  destruct (proj1 generate_recommendations_ranks_by_score
              (services_over three_resorts canned_summary) runtime None None 2%Z
              three_resorts ∅ snow_table journey_table (scored three_resorts)
              "Alpha is the pick."
              eq_refl eq_refl eq_refl eq_refl eq_refl eq_refl) as [resp [H1 [H2 _]]].
  exists resp. split; assumption.
Defined.

(** C9: every recommendation in the response of [generate_recommendations]
    carries the first five highlights and the first five concerns of what
    [score_resort] yields for its data (exactly five when there are more),
    whereas the recommendation [get_resort_details] returns carries both lists
    in full; for the same resort and data the former are the first five of the
    latter. *)
Theorem highlights_truncated_only_in_ranking
    (sv : Services) (rt : Runtime) (start_location : option string)
    (target_date : option date) (n : Z) (resp : RecommendationsResponse)
    (resort_id : string) (details_date : option date) (full : Recommendation) :
  generate_recommendations sv rt start_location target_date n = Returned resp ->
  get_resort_details sv rt resort_id details_date = Returned (Some full) ->
  (exists scored,
     rescored full = Returned scored
     /\ highlights full = all_highlights scored
     /\ concerns full = all_concerns scored)
  /\ (forall rec, In rec (recommendations resp) ->
        exists scored,
          rescored rec = Returned scored
          /\ highlights rec = take 5 (all_highlights scored)
          /\ concerns rec = take 5 (all_concerns scored)
          /\ ((5 < length (all_highlights scored))%nat -> length (highlights rec) = 5%nat)
          /\ ((5 < length (all_concerns scored))%nat -> length (concerns rec) = 5%nat)
          /\ (resort rec = resort full ->
              weather_forecast rec = weather_forecast full ->
              snow_conditions rec = snow_conditions full ->
              journey rec = journey full ->
              highlights rec = take 5 (highlights full)
              /\ concerns rec = take 5 (concerns full))).
Proof.
  intros Hgen Hdet.
  assert (Hfull : exists scored,
             rescored full = Returned scored
             /\ highlights full = all_highlights scored
             /\ concerns full = all_concerns scored).
  { revert Hdet. unfold get_resort_details.
    destruct (get_resort_by_id sv resort_id) as [[r|]|]; cbn [bind]; try discriminate.
    destruct (_get_next_weekend_dates rt) as [saturday sunday].
    destruct (get_forecast sv _ _ _) as [w|]; cbn [bind]; [|discriminate].
    destruct (get_conditions sv r) as [s|]; cbn [bind]; [|discriminate].
    destruct (get_resort_journey sv _ r _) as [t|]; cbn [bind]; [|discriminate].
    unfold rescored, all_highlights, all_concerns.
    destruct (score_resort w s t (Some r)) as [[[[[[[a b] c] d] e] f] g]|err] eqn:E;
      cbn [bind]; [|discriminate].
    intros H. injection H as <-. cbn. rewrite E. eexists. split; [reflexivity|].
    split; reflexivity. }
  split; [exact Hfull|]. destruct Hfull as [full_scored [Hfs [Hh Hc]]].
  intros rec Hin.
  apply generate_recommendations_returned in Hgen
    as [resorts [wd [sd [jd [recs [Hscored Hrecs]]]]]].
  rewrite Hrecs in Hin. apply take_top_In in Hin.
  destruct (score_all_In _ _ _ _ _ _ Hscored Hin) as [r [_ Hrec]].
  apply recommend_returned in Hrec
    as [scored [_ [Hs [_ [_ [F1 [F2 [F3 [F4 [F5 F6]]]]]]]]]].
  assert (Hre : rescored rec = Returned scored).
  { unfold rescored. now rewrite F1, F2, F3, F4. }
  exists scored. split; [exact Hre|]. split; [exact F5|]. split; [exact F6|].
  split; [|split].
  - intros Hlen. rewrite F5, length_take. lia.
  - intros Hlen. rewrite F6, length_take. lia.
  - intros E1 E2 E3 E4.
    assert (E : scored = full_scored).
    { unfold rescored in Hre, Hfs. rewrite E1, E2, E3, E4, Hfs in Hre. congruence. }
    rewrite F5, F6, Hh, Hc, E. split; reflexivity.
Qed.

Lemma highlights_truncated_only_in_ranking_witness :
  length (highlights alpha_details) = 6%nat
  /\ (exists scored,
        rescored alpha_details = Returned scored
        /\ highlights alpha_details = all_highlights scored
        /\ concerns alpha_details = all_concerns scored)
  /\ map highlights (recommendations top_two)
     = [take 5 (highlights alpha_details);
        ["Reasonable travel time (2.5h)"; "Direct connection"; "Massive ski area (200km)"]].
Proof.
  split; [vm_compute; reflexivity|].
  split; [|vm_compute; reflexivity].
  refine (proj1 (highlights_truncated_only_in_ranking
                   (services_over three_resorts canned_summary) runtime None None 2%Z
                   top_two "alpha" None alpha_details _ _)); vm_compute; reflexivity.
Defined.

End RankingFacts.

(** ** The narrative summary and who recovers from its failure *)

Module SummaryFacts.

Import RecommenderEngine Props Samples.

Lemma append_assoc (a b c : string) : (a +:+ b) +:+ c = a +:+ b +:+ c.
Proof.
  induction a as [|x a IH]; [reflexivity|].
  change (String x ((a +:+ b) +:+ c) = String x (a +:+ b +:+ c)). now rewrite IH.
Qed.

(** C5 as amended: when the chat completion fails it is the summarizer
    ([LLMService.generate_recommendation_summary]) that catches the failure and
    returns the deterministic fallback built from the top recommendation's
    name, score, weather condition text and travel time; the orchestrator
    wired to it therefore returns a response carrying that fallback.  The
    orchestrator itself catches nothing: a summarizer that raises makes
    [generate_recommendations] raise. *)
Theorem summarizer_failure_recovered_by_summarizer
    (sv : Services) (rt : Runtime) (start_location : option string)
    (target_date : option date) (n : Z)
    (chat_completion : list Recommendation -> string -> Outcome string)
    (resorts : list Resort) (wd : gmap string (option WeatherForecast))
    (sd : gmap string (option SnowConditions)) (jd : gmap string (option Journey))
    (recs : list Recommendation) (e : string) :
  let day := target_date_or_saturday rt target_date in
  let top := take_top n recs in
  get_all_resorts sv = Returned resorts ->
  get_forecasts_batch sv resorts day = Returned wd ->
  get_conditions_batch sv resorts = Returned sd ->
  get_journeys_batch sv (str_or start_location settings_start_location) resorts day
    = Returned jd ->
  score_all resorts wd sd jd = Returned recs ->
  top <> [] ->
  chat_completion top (weekend_label rt) = Raised e ->
  LLMService.generate_recommendation_summary chat_completion top (weekend_label rt)
    = Returned (LLMService._generate_fallback_summary top)
  /\ (generate_recommendation_summary sv
        = LLMService.generate_recommendation_summary chat_completion ->
      generate_recommendations sv rt start_location target_date n
      = Returned {| recommendations := top;
                    ai_summary := LLMService._generate_fallback_summary top;
                    generated_at := now rt;
                    target_weekend := weekend_label rt |})
  /\ (generate_recommendation_summary sv top (weekend_label rt) = Raised e ->
      generate_recommendations sv rt start_location target_date n = Raised e)
  /\ (forall first rest wf j,
        top = first :: rest ->
        weather_forecast first = Some wf -> journey first = Some j ->
        LLMService._generate_fallback_summary top
        = "Based on current conditions, " +:+ name (resort first)
            +:+ " looks like the best choice with a score of "
            +:+ format_f 1 (score first) +:+ "/10. Weather forecast shows "
            +:+ conditions wf +:+ ". Travel time from Geneva is approximately "
            +:+ str_of_int (duration_minutes j / 60) +:+ "h "
            +:+ str_of_int (duration_minutes j mod 60) +:+ "min.").
Proof.
  intros day top Hres Hw Hs Hj Hrecs Htop Hchat.
  assert (Hllm : LLMService.generate_recommendation_summary chat_completion top
                   (weekend_label rt)
                 = Returned (LLMService._generate_fallback_summary top)).
  { unfold LLMService.generate_recommendation_summary.
    destruct top as [|first rest]; [contradiction|]. now rewrite Hchat. }
  pose proof (RankingFacts.generate_recommendations_scored sv rt start_location
                target_date n resorts wd sd jd recs Hres Hw Hs Hj Hrecs) as Hgen.
  cbv zeta in Hgen. fold top in Hgen.
  split; [exact Hllm|]. split; [|split].
  - intros Hwired. rewrite Hgen, Hwired, Hllm. reflexivity.
  - intros Hraise. rewrite Hgen, Hraise. reflexivity.
  - intros first rest wf j E Hwf Hjo. rewrite E.
    unfold LLMService._generate_fallback_summary. rewrite Hwf, Hjo.
    rewrite !append_assoc. reflexivity.
Qed.

Lemma summarizer_failure_recovered_by_summarizer_witness :
  generate_recommendations
    (services_over three_resorts
       (LLMService.generate_recommendation_summary failing_completion))
    runtime None None 2
  = Returned
      {| recommendations := take_top 2 (scored three_resorts);
         ai_summary :=
           LLMService._generate_fallback_summary (take_top 2 (scored three_resorts));
         generated_at := now runtime;
         target_weekend := weekend_label runtime |}.
Proof.
  refine (proj1 (proj2 (summarizer_failure_recovered_by_summarizer
            (services_over three_resorts
               (LLMService.generate_recommendation_summary failing_completion))
            runtime None None 2%Z failing_completion three_resorts ∅ snow_table
            journey_table (scored three_resorts) "rate limited"
            eq_refl eq_refl eq_refl eq_refl eq_refl _ eq_refl))
          eq_refl).
  vm_compute. discriminate.
Defined.

(** C5 as stated fails: with a summarizer that raises, nothing in
    [generate_recommendations] catches the failure and the caller gets the
    exception instead of a response. *)
Lemma summarizer_failure_reaches_caller :
  generate_recommendations (services_over three_resorts failing_summary) runtime
    None None 2
  = Raised "summarizer unavailable"
  /\ ~ (exists resp,
          generate_recommendations (services_over three_resorts failing_summary) runtime
            None None 2 = Returned resp).
Proof.
  assert (H : generate_recommendations (services_over three_resorts failing_summary)
                runtime None None 2 = Raised "summarizer unavailable").
  { vm_compute. reflexivity. }
  split; [exact H|]. intros [resp Hresp]. rewrite H in Hresp. discriminate.
Qed.

End SummaryFacts.

(** ** The journey to a resort *)

Module TransportFacts.

Import TransportService Props Samples.

Section Service.

Variable connections_api : string -> string -> date -> Outcome (option Journey).
Variable isoformat : date -> string.
Variable cache_enabled : bool.
Variable transport_cache_hours : Z.

Abbreviation get_journey :=
  (get_journey connections_api isoformat cache_enabled transport_cache_hours).
Abbreviation get_resort_journey :=
  (get_resort_journey connections_api isoformat cache_enabled transport_cache_hours).

(** A cache lookup never touches the heap, never adds an entry, and what it
    returns is an entry of the cache. *)
Lemma cache_get_spec key w v w' :
  cache_get key w = (v, w') ->
  heap w' = heap w
  /\ (forall k r e, SimpleCache.store (cache w') !! k = Some (r, e) ->
        SimpleCache.store (cache w) !! k = Some (r, e))
  /\ (forall r, v = Some r ->
        exists e, SimpleCache.store (cache w) !! key = Some (r, e)).
Proof.
  unfold cache_get, SimpleCache.get.
  destruct (SimpleCache.store (cache w) !! key) as [[value expiry]|] eqn:E.
  - cbn [Clock.now]. destruct (_ <? expiry)%Z; intros H; injection H as <- <-; cbn.
    + split; [reflexivity|]. split; [tauto|]. intros r Hr. injection Hr as <-. eauto.
    + split; [reflexivity|]. split; [|discriminate].
      intros k r e Hk. apply lookup_delete_Some in Hk. tauto.
  - intros H. injection H as <- <-. cbn. split; [reflexivity|]. split; [tauto|discriminate].
Qed.

Lemma cache_get_valid key w v w' :
  cache_valid w -> cache_get key w = (v, w') ->
  cache_valid w' /\ (forall r, v = Some r -> (r < length (heap w))%nat).
Proof.
  intros Hv H. apply cache_get_spec in H as [Hh [Hsub Hret]]. split.
  - intros k r e Hk. rewrite Hh. eapply Hv, Hsub, Hk.
  - intros r Hr. destruct (Hret r Hr) as [e He]. eapply Hv, He.
Qed.

(** What [get_journey] does to the world: the journeys already in the heap
    stay where and as they are, the cache stays valid, and a returned
    address points into the heap. *)
Lemma get_journey_spec from_location to_location travel_date w found w' :
  cache_valid w ->
  get_journey from_location to_location travel_date w = (found, w') ->
  cache_valid w'
  /\ (forall i, (i < length (heap w))%nat -> heap w' !! i = heap w !! i)
  /\ (found = None -> heap w' = heap w)
  /\ (forall r, found = Some r -> (r < length (heap w'))%nat).
Proof.
  intros Hv. unfold TransportService.get_journey.
  set (key := cache_key isoformat from_location to_location travel_date).
  assert (Hmiss : forall w0, cache_valid w0 -> heap w0 = heap w ->
    (match connections_api from_location to_location travel_date with
     | Returned (Some j) =>
         let r := length (heap w0) in
         let w1 := set_heap (heap w0 ++ [j]) w0 in
         let w2 := if cache_enabled then cache_set key r transport_cache_hours w1
                   else w1 in
         (Some r, w2)
     | Returned None => (None, w0)
     | Raised _ => (None, w0)
     end) = (found, w') ->
    cache_valid w'
    /\ (forall i, (i < length (heap w))%nat -> heap w' !! i = heap w !! i)
    /\ (found = None -> heap w' = heap w)
    /\ (forall r, found = Some r -> (r < length (heap w'))%nat)).
  { intros w0 Hv0 Hh0.
    destruct (connections_api from_location to_location travel_date) as [[j|]|err].
    - cbv zeta. intros H. injection H as <- <-.
      assert (Hheap : heap (if cache_enabled
                            then cache_set key (length (heap w0)) transport_cache_hours
                                   (set_heap (heap w0 ++ [j]) w0)
                            else set_heap (heap w0 ++ [j]) w0) = heap w0 ++ [j]).
      { destruct cache_enabled; reflexivity. }
      split; [|split; [|split]].
      + intros k r e Hk. rewrite Hheap, length_app. cbn [length].
        destruct cache_enabled; cbn in Hk.
        * apply lookup_insert_Some in Hk as [[_ Hk]|[_ Hk]].
          -- injection Hk as <- _. lia.
          -- apply Hv0 in Hk. lia.
        * apply Hv0 in Hk. lia.
      + intros i Hi. rewrite Hheap, <- Hh0. apply lookup_app_l. now rewrite Hh0.
      + discriminate.
      + intros r Hr. injection Hr as <-. rewrite Hheap, length_app. cbn [length]. lia.
    - intros H. injection H as <- <-.
      split; [exact Hv0|]. split; [now rewrite Hh0|]. split; [now rewrite Hh0|discriminate].
    - intros H. injection H as <- <-.
      split; [exact Hv0|]. split; [now rewrite Hh0|]. split; [now rewrite Hh0|discriminate]. }
  destruct cache_enabled eqn:Ece.
  - destruct (cache_get key w) as [cached w0] eqn:Eget.
    pose proof (cache_get_valid _ _ _ _ Hv Eget) as [Hv0 Hbound].
    pose proof (cache_get_spec _ _ _ _ Eget) as [Hh0 _].
    destruct cached as [r|].
    + intros H. injection H as <- <-.
      split; [exact Hv0|]. split; [now rewrite Hh0|]. split; [discriminate|].
      intros r' Hr'. injection Hr' as <-. rewrite Hh0. now apply Hbound.
    + now apply Hmiss.
  - now apply Hmiss.
Qed.

Lemma get_resort_journey_by_name from_location r travel_date w addr w1 :
  get_journey from_location (name r) travel_date w = (Some addr, w1) ->
  get_resort_journey from_location r travel_date w = (Some addr, w1).
Proof. intros H. unfold TransportService.get_resort_journey. now rewrite H. Qed.

Lemma get_resort_journey_by_station from_location r travel_date w w1 addr w2 p :
  get_journey from_location (name r) travel_date w = (None, w1) ->
  truthy_str (nearest_station (access r)) = true ->
  get_journey from_location (nearest_station (access r)) travel_date w1 = (Some addr, w2) ->
  postbus_duration_minutes (access r) = Some p -> p <> 0%Z ->
  get_resort_journey from_location r travel_date w
  = (Some addr, set_heap (alter (add_minutes p) addr (heap w2)) w2).
Proof.
  intros H1 Hst H2 Hp Hp0. unfold TransportService.get_resort_journey.
  rewrite H1, Hst, H2, Hp. cbn [truthy_int].
  apply Z.eqb_neq in Hp0. now rewrite Hp0.
Qed.

End Service.

(** C10: when the lookup by resort name yields a journey,
    [get_resort_journey] returns that journey and leaves the world as the
    lookup left it, so its duration is unchanged; when the lookup by name
    yields nothing, the lookup by nearest station yields a journey and the
    resort has a postbus duration, the journey returned is the station journey
    with its [duration_minutes] increased by the postbus duration, every other
    journey and the cache being as the station lookup left them. *)
Theorem get_resort_journey_postbus
    (connections_api : string -> string -> date -> Outcome (option Journey))
    (isoformat : date -> string) (cache_enabled : bool) (transport_cache_hours : Z)
    (from_location : string) (r : Resort) (travel_date : date)
    (w w1 : World) (first : option nat) :
  cache_valid w ->
  get_journey connections_api isoformat cache_enabled transport_cache_hours
    from_location (name r) travel_date w = (first, w1) ->
  (forall addr, first = Some addr ->
     get_resort_journey connections_api isoformat cache_enabled transport_cache_hours
       from_location r travel_date w = (Some addr, w1))
  /\ (forall addr w2 p,
        first = None ->
        truthy_str (nearest_station (access r)) = true ->
        get_journey connections_api isoformat cache_enabled transport_cache_hours
          from_location (nearest_station (access r)) travel_date w1 = (Some addr, w2) ->
        postbus_duration_minutes (access r) = Some p -> p <> 0%Z ->
        exists j j' w3,
          get_resort_journey connections_api isoformat cache_enabled transport_cache_hours
            from_location r travel_date w = (Some addr, w3)
          /\ journey_at w2 addr = Some j
          /\ journey_at w3 addr = Some j'
          /\ j' = add_minutes p j
          /\ duration_minutes j' = (duration_minutes j + p)%Z
          /\ (forall other, other <> addr -> journey_at w3 other = journey_at w2 other)
          /\ cache w3 = cache w2).
Proof.
  intros Hv H1. split.
  - intros addr ->. now apply get_resort_journey_by_name.
  - intros addr w2 p -> Hst H2 Hp Hp0.
    pose proof (get_journey_spec _ _ _ _ _ _ _ _ _ _ Hv H1) as [Hv1 _].
    pose proof (get_journey_spec _ _ _ _ _ _ _ _ _ _ Hv1 H2) as [_ [_ [_ Hb]]].
    specialize (Hb addr eq_refl).
    destruct (lookup_lt_is_Some_2 _ _ Hb) as [j Hj].
    exists j, (add_minutes p j),
      (set_heap (alter (add_minutes p) addr (heap w2)) w2).
    split; [now apply (get_resort_journey_by_station _ _ _ _ _ _ _ _ w1)|].
    split; [exact Hj|]. unfold journey_at. cbn [heap set_heap].
    split; [now rewrite list_lookup_alter_eq, Hj|].
    split; [reflexivity|]. split; [reflexivity|]. split; [|reflexivity].
    intros other Hne. apply list_lookup_alter_ne. congruence.
Qed.

Lemma fresh_world_valid : cache_valid fresh_world.
Proof. intros key r expiry H. cbn in H. rewrite lookup_empty in H. discriminate. Qed.

Lemma get_resort_journey_postbus_witness :
  exists j j' w3,
    get_resort_journey station_only str_of_int true 24 "Geneva" foxtrot 0%Z fresh_world
    = (Some 0%nat, w3)
    /\ journey_at
         (snd (get_journey station_only str_of_int true 24 "Geneva" "Foxtrot Gare" 0%Z
                 fresh_world)) 0 = Some j
    /\ journey_at w3 0 = Some j'
    /\ duration_minutes j' = (duration_minutes j + 20)%Z.
Proof.
  destruct (proj2 (get_resort_journey_postbus station_only str_of_int true 24 "Geneva"
                     foxtrot 0%Z fresh_world fresh_world None fresh_world_valid eq_refl)
              0%nat
              (snd (get_journey station_only str_of_int true 24 "Geneva" "Foxtrot Gare"
                      0%Z fresh_world))
              20%Z eq_refl eq_refl eq_refl eq_refl ltac:(discriminate))
    as [j [j' [w3 [H1 [H2 [H3 [_ [H4 _]]]]]]]].
  exists j, j', w3. repeat split; assumption.
Defined.

End TransportFacts.

(** ** Totals and resort size *)

Module TotalFacts.

Import ScoringEngine Props Samples.
Local Open Scope float_scope.

Lemma weighted_sums_in_range : forallb rounds_in_range weighted_sums = true.
Proof. vm_compute. reflexivity. Qed.

(** The total score [score_resort] returns is always in the closed interval
    [0, 10] and rounded to one decimal, whatever the four inputs are. *)
Theorem total_score_in_range_one_decimal
    (weather : option WeatherForecast) (snow : option SnowConditions)
    (transport : option Journey) (ro : option Resort)
    (scored : float * float * float * float * float * list string * list string) :
  score_resort weather snow transport ro = Returned scored ->
  one_decimal_in_range (total_of scored).
Proof.
  destruct (score_transport transport) as [ts|e] eqn:Et.
  - rewrite (ScoringFacts.score_resort_scored _ _ _ _ _ Et).
    intros H. injection H as <-. unfold total_of. cbn [fst].
    unfold calculate_total_score.
    pose proof (RankingFacts.forallb_In rounds_in_range weighted_sums _
                  weighted_sums_in_range
                  (RankingFacts.weighted_sum_In _ _ _ _
                     (ScoringFacts.score_weather_on_grid weather)
                     (ScoringFacts.score_snow_on_grid snow)
                     (ScoringFacts.score_transport_on_grid transport ts Et)
                     (ScoringFacts.score_size_in_sizes ro))) as H.
    unfold rounds_in_range in H. cbv zeta in H.
    apply andb_prop in H as [H H3]. apply andb_prop in H as [H1 H2].
    apply FloatAxioms.Leibniz.eqb_spec in H3.
    unfold one_decimal_in_range. auto.
  - rewrite (ScoringFacts.score_resort_raised _ _ _ _ _ Et). discriminate.
Qed.

Lemma total_score_in_range_one_decimal_witness :
  one_decimal_in_range
    (total_of (8.8, 10.0, 10.0, 10.0, 5.0,
               ["Perfect ski temperature (-7C)"; "Good snowfall expected (12cm)";
                "Sunny conditions expected"; "Excellent base depth (160cm)";
                "Fresh powder! (25cm in 24h)"; "Powder conditions";
                "Quick journey (1.6h)"; "Direct connection"], [])).
Proof.
  apply (total_score_in_range_one_decimal (Some clear_cold) (Some powder_day)
           (Some (journey_of 95 0)) (Some delta)).
  vm_compute. reflexivity.
Defined.

Lemma size_band_monotone km1 km2 :
  (km1 <=? km2) = true ->
  (round1 (acc_score (size_band km1)) <=? round1 (acc_score (size_band km2))) = true.
Proof.
  intros Hle. unfold size_band.
  repeat match goal with
  | |- context [if (?k <=? km1) then _ else _] => destruct (k <=? km1) eqn:?
  end;
  repeat match goal with
  | |- context [if (?k <=? km2) then _ else _] => destruct (k <=? km2) eqn:?
  end;
  try (exfalso;
       match goal with
       | H1 : (?k <=? km1) = true, H2 : (?k <=? km2) = false |- _ =>
           rewrite (FloatFacts.leb_trans _ _ _ H1 Hle) in H2; discriminate
       end);
  cbn [acc_score highlight concern start]; vm_compute; reflexivity.
Qed.

(** A resort with more skiable terrain never gets a smaller size score. *)
Theorem score_size_monotone (r1 r2 : Resort) (km1 km2 : float) :
  skiable_terrain_km r1 = Some km1 ->
  skiable_terrain_km r2 = Some km2 ->
  (km1 <=? km2) = true ->
  (score_of (score_size (Some r1)) <=? score_of (score_size (Some r2))) = true.
Proof.
  intros H1 H2 Hle. unfold score_size, score_of. rewrite H1, H2. cbn [fst].
  now apply size_band_monotone.
Qed.

Lemma score_size_monotone_witness :
  (score_of (score_size (Some delta)) <=? score_of (score_size (Some alpha))) = true.
Proof. exact (score_size_monotone delta alpha 40 210 eq_refl eq_refl eq_refl). Defined.

End TotalFacts.

(** ** The orchestrator: dates, failures and the shape of the response *)

Module OrchestratorFacts.

Import ScoringEngine RecommenderEngine Props Samples.
Local Open Scope Z_scope.

Ltac weekdays :=
  cbv zeta;
  repeat match goal with
  | |- _ /\ _ => split
  | |- _ -> _ => intro
  end;
  unfold Main.default_target_date, _get_next_weekend_dates, weekday in *;
  cbn [fst snd] in *;
  repeat match goal with
  | |- context [(?a =? ?b)] => destruct (Z.eqb_spec a b)
  end;
  cbn [andb]; Z.to_euclidean_division_equations; lia.

(** [_get_next_weekend_dates] returns a Saturday that is today or at most six
    days ahead, and today itself when today is a Saturday, together with the
    Sunday that follows it. *)
Theorem next_weekend_is_the_upcoming_one (rt : Runtime) :
  let saturday := fst (_get_next_weekend_dates rt) in
  let sunday := snd (_get_next_weekend_dates rt) in
  weekday saturday = 5
  /\ weekday sunday = 6
  /\ sunday = saturday + 1
  /\ today rt <= saturday <= today rt + 6
  /\ (weekday (today rt) = 5 -> saturday = today rt).
Proof. weekdays. Qed.

Lemma next_weekend_is_the_upcoming_one_witness :
  fst (_get_next_weekend_dates saturday_runtime) = today saturday_runtime.
Proof.
  apply (proj2 (proj2 (proj2 (proj2 (next_weekend_is_the_upcoming_one saturday_runtime))))).
  reflexivity.
Defined.

(** The default date of the weather and transport endpoints is always a
    Saturday strictly after today; it is the orchestrator's Saturday on every
    day but a Saturday, when the orchestrator takes today and the endpoints
    the Saturday a week later. *)
Theorem endpoint_default_date_differs_on_saturdays (rt : Runtime) :
  let saturday := fst (_get_next_weekend_dates rt) in
  let default := Main.default_target_date (today rt) in
  weekday default = 5
  /\ today rt < default <= today rt + 7
  /\ (weekday (today rt) <> 5 -> default = saturday)
  /\ (weekday (today rt) = 5 -> saturday = today rt /\ default = saturday + 7).
Proof. weekdays. Qed.

Lemma endpoint_default_date_differs_on_saturdays_witness :
  Main.default_target_date (today saturday_runtime)
  = fst (_get_next_weekend_dates saturday_runtime) + 7.
Proof.
  apply (proj2 (proj2 (proj2 (endpoint_default_date_differs_on_saturdays
                                  saturday_runtime)))).
  reflexivity.
Defined.

Lemma generate_recommendations_inv sv rt start_location target_date n resp :
  generate_recommendations sv rt start_location target_date n = Returned resp ->
  exists resorts wd sd jd recs summary,
    get_all_resorts sv = Returned resorts
    /\ get_forecasts_batch sv resorts (target_date_or_saturday rt target_date) = Returned wd
    /\ get_conditions_batch sv resorts = Returned sd
    /\ get_journeys_batch sv (str_or start_location settings_start_location) resorts
         (target_date_or_saturday rt target_date) = Returned jd
    /\ score_all resorts wd sd jd = Returned recs
    /\ generate_recommendation_summary sv (take_top n recs) (weekend_label rt)
       = Returned summary
    /\ resp = {| recommendations := take_top n recs;
                 ai_summary := summary;
                 generated_at := now rt;
                 target_weekend := weekend_label rt |}.
Proof.
  unfold generate_recommendations, target_date_or_saturday.
  destruct (_get_next_weekend_dates rt) as [saturday sunday]. cbn [fst].
  destruct (get_all_resorts sv) as [resorts|]; cbn [bind]; [|discriminate].
  destruct (get_forecasts_batch sv resorts _) as [wd|] eqn:Ew; cbn [bind]; [|discriminate].
  destruct (get_conditions_batch sv resorts) as [sd|] eqn:Es; cbn [bind]; [|discriminate].
  destruct (get_journeys_batch sv _ resorts _) as [jd|] eqn:Ej; cbn [bind]; [|discriminate].
  destruct (score_all resorts wd sd jd) as [recs|] eqn:Er; cbn [bind]; [|discriminate].
  destruct (generate_recommendation_summary sv _ _) as [summary|] eqn:Ea; cbn [bind];
    [|discriminate].
  intros H. injection H as <-. exists resorts, wd, sd, jd, recs, summary. auto 10.
Qed.

(** [generate_recommendations] returns a response exactly when the resort
    list, the three batches, the scoring loop and the summarizer on the ranked
    top all return; it has no handler of its own, so a failing resort list and
    a scoring loop that raises are raised to the caller as they are. *)
Theorem generate_recommendations_returns_iff
    (sv : Services) (rt : Runtime) (start_location : option string)
    (target_date : option date) (n : Z) :
  ((exists resp, generate_recommendations sv rt start_location target_date n = Returned resp)
   <-> exists resorts wd sd jd recs summary,
         get_all_resorts sv = Returned resorts
         /\ get_forecasts_batch sv resorts (target_date_or_saturday rt target_date)
            = Returned wd
         /\ get_conditions_batch sv resorts = Returned sd
         /\ get_journeys_batch sv (str_or start_location settings_start_location) resorts
              (target_date_or_saturday rt target_date) = Returned jd
         /\ score_all resorts wd sd jd = Returned recs
         /\ generate_recommendation_summary sv (take_top n recs) (weekend_label rt)
            = Returned summary)
  /\ (forall e, get_all_resorts sv = Raised e ->
        generate_recommendations sv rt start_location target_date n = Raised e)
  /\ (forall resorts wd sd jd e,
        get_all_resorts sv = Returned resorts ->
        get_forecasts_batch sv resorts (target_date_or_saturday rt target_date)
          = Returned wd ->
        get_conditions_batch sv resorts = Returned sd ->
        get_journeys_batch sv (str_or start_location settings_start_location) resorts
          (target_date_or_saturday rt target_date) = Returned jd ->
        score_all resorts wd sd jd = Raised e ->
        generate_recommendations sv rt start_location target_date n = Raised e).
Proof.
  split; [split|split].
  - intros [resp H].
    apply generate_recommendations_inv in H
      as [resorts [wd [sd [jd [recs [summary [H1 [H2 [H3 [H4 [H5 [H6 _]]]]]]]]]]]].
    exists resorts, wd, sd, jd, recs, summary. auto 10.
  - intros [resorts [wd [sd [jd [recs [summary [H1 [H2 [H3 [H4 [H5 H6]]]]]]]]]]].
    rewrite (RankingFacts.generate_recommendations_scored sv rt start_location
               target_date n resorts wd sd jd recs H1 H2 H3 H4 H5).
    rewrite H6. cbn [bind]. eauto.
  - intros e H. unfold generate_recommendations.
    destruct (_get_next_weekend_dates rt) as [saturday sunday]. now rewrite H.
  - intros resorts wd sd jd e H1 H2 H3 H4 H5.
    rewrite (RankingFacts.generate_recommendations_fetched sv rt start_location
               target_date n resorts wd sd jd H1 H2 H3 H4), H5.
    reflexivity.
Qed.

Lemma generate_recommendations_returns_iff_witness :
  exists resp,
    generate_recommendations (services_over three_resorts canned_summary) runtime
      None None 2 = Returned resp.
Proof.
  apply (proj2 (proj1 (generate_recommendations_returns_iff
                         (services_over three_resorts canned_summary) runtime
                         None None 2))).
  exists three_resorts, ∅, snow_table, journey_table, (scored three_resorts),
    "Alpha is the pick.".
  repeat split; reflexivity.
Defined.

Lemma score_all_length resorts wd sd jd : forall recs,
  score_all resorts wd sd jd = Returned recs -> length recs = length resorts.
Proof.
  intros recs H. rewrite <- (RankingFacts.score_all_resorts _ _ _ _ _ H).
  now rewrite length_map.
Qed.

Lemma slice_to_length {A} n (l : list A) :
  length (slice_to n l) = slice_length n (length l).
Proof.
  unfold slice_to, slice_length. destruct (0 <=? n) eqn:E; rewrite length_take.
  - reflexivity.
  - apply Z.leb_gt in E. lia.
Qed.

Lemma sort_by_score_length l : length (sort_by_score l) = length l.
Proof. symmetry. apply Permutation_length, RankingFacts.sort_by_score_perm. Qed.

(** A response never holds more recommendations than were asked for, nor more
    than there are resorts: it holds [min(n, number of resorts)] of them for
    [n >= 0], and for a negative [n], which nothing rejects, all but the last
    [-n]; every one of them is for a resort of the resort list. *)
Theorem response_length
    (sv : Services) (rt : Runtime) (start_location : option string)
    (target_date : option date) (n : Z) (resp : RecommendationsResponse) :
  generate_recommendations sv rt start_location target_date n = Returned resp ->
  exists resorts,
    get_all_resorts sv = Returned resorts
    /\ length (recommendations resp) = slice_length n (length resorts)
    /\ (0 <= n -> length (recommendations resp) = Nat.min (Z.to_nat n) (length resorts))
    /\ (n < 0 -> length (recommendations resp) = (length resorts - Z.to_nat (- n))%nat)
    /\ (forall rec, In rec (recommendations resp) -> In (resort rec) resorts).
Proof.
  intros H.
  apply generate_recommendations_inv in H
    as [resorts [wd [sd [jd [recs [summary [H1 [_ [_ [_ [Hrecs [_ ->]]]]]]]]]]]].
  exists resorts. split; [exact H1|]. cbn [recommendations].
  assert (L : length (take_top n recs) = slice_length n (length resorts)).
  { unfold take_top. rewrite slice_to_length, sort_by_score_length.
    now rewrite (score_all_length resorts wd sd jd recs Hrecs). }
  split; [exact L|]. split; [|split].
  - intros Hn. rewrite L. unfold slice_length.
    destruct (0 <=? n) eqn:E; [reflexivity|]. apply Z.leb_gt in E. lia.
  - intros Hn. rewrite L. unfold slice_length.
    destruct (0 <=? n) eqn:E; [apply Z.leb_le in E; lia|]. lia.
  - intros rec Hin. apply RankingFacts.take_top_In in Hin.
    rewrite <- (RankingFacts.score_all_resorts _ _ _ _ _ Hrecs).
    now apply List.in_map.
Qed.

Lemma response_length_witness :
  exists resorts,
    get_all_resorts (services_over three_resorts canned_summary) = Returned resorts
    /\ length (recommendations top_two) = slice_length 2 (length resorts).
Proof.
  destruct (response_length (services_over three_resorts canned_summary) runtime
              None None 2 top_two eq_refl) as [resorts [H1 [H2 _]]].
  exists resorts. split; assumption.
Defined.

Lemma take_head {A} k (l : list A) x rest : take k l = x :: rest -> exists tl, l = x :: tl.
Proof.
  destruct k as [|k], l as [|y l]; cbn; try discriminate.
  intros H. injection H as -> _. eauto.
Qed.

Lemma slice_to_head {A} n (l : list A) x rest :
  slice_to n l = x :: rest -> exists tl, l = x :: tl.
Proof. unfold slice_to. destruct (0 <=? n); apply take_head. Qed.

(** The first recommendation of a response is one no scored resort beats: no
    recommendation computed for any resort of the list has a strictly greater
    score. *)
Theorem first_recommendation_is_unbeaten
    (sv : Services) (rt : Runtime) (start_location : option string)
    (target_date : option date) (n : Z) (resp : RecommendationsResponse)
    (first : Recommendation) (rest : list Recommendation) :
  generate_recommendations sv rt start_location target_date n = Returned resp ->
  recommendations resp = first :: rest ->
  exists resorts wd sd jd recs,
    get_all_resorts sv = Returned resorts
    /\ score_all resorts wd sd jd = Returned recs
    /\ In first recs
    /\ forall rec, In rec recs -> (score first <? score rec)%float = false.
Proof.
  intros H Hfirst.
  apply generate_recommendations_inv in H
    as [resorts [wd [sd [jd [recs [summary [H1 [_ [_ [_ [Hrecs [_ ->]]]]]]]]]]]].
  cbn [recommendations] in Hfirst. unfold take_top in Hfirst.
  apply slice_to_head in Hfirst as [tl Htl].
  exists resorts, wd, sd, jd, recs. split; [exact H1|]. split; [exact Hrecs|].
  pose proof (RankingFacts.sort_by_score_perm recs) as Hp.
  pose proof (RankingFacts.sort_by_score_sorted _
                (RankingFacts.score_all_comparable resorts wd sd jd recs Hrecs)) as Hs.
  rewrite Htl in Hp, Hs. split.
  - eapply Permutation_in; [symmetry; exact Hp|]. now left.
  - intros rec Hrec. apply (Permutation_in _ Hp) in Hrec.
    destruct Hrec as [<-|Hrec]; [apply FloatFacts.ltb_irrefl|].
    apply StronglySorted_inv in Hs as [_ Hs].
    rewrite List.Forall_forall in Hs. exact (Hs rec Hrec).
Qed.

Lemma first_recommendation_is_unbeaten_witness :
  exists resorts wd sd jd recs,
    get_all_resorts (services_over three_resorts canned_summary) = Returned resorts
    /\ score_all resorts wd sd jd = Returned recs
    /\ In (hd (unscored alpha) (recommendations top_two)) recs.
Proof.
  destruct (first_recommendation_is_unbeaten (services_over three_resorts canned_summary)
              runtime None None 2 top_two
              (hd (unscored alpha) (recommendations top_two))
              (tl (recommendations top_two)) eq_refl eq_refl)
    as [resorts [wd [sd [jd [recs [H1 [H2 [H3 _]]]]]]]].
  exists resorts, wd, sd, jd, recs. repeat split; assumption.
Defined.

Lemma sort_by_score_sorted_id l : StronglySorted no_greater l -> sort_by_score l = l.
Proof.
  induction 1 as [|a l Hs IH Ha]; cbn [sort_by_score]; [reflexivity|].
  rewrite IH. destruct l as [|x l]; cbn [insert_by_score]; [reflexivity|].
  inversion Ha as [|? ? Hax _]; subst. unfold no_greater in Hax. now rewrite Hax.
Qed.

(** Sorting by score is idempotent: a list of recommendations that is already
    ranked is left exactly as it is, so ranking a ranked list again reorders
    nothing. *)
Theorem sort_by_score_idempotent (recs : list Recommendation) :
  List.Forall comparable recs ->
  sort_by_score (sort_by_score recs) = sort_by_score recs.
Proof.
  intros H. apply sort_by_score_sorted_id. now apply RankingFacts.sort_by_score_sorted.
Qed.

Lemma sort_by_score_idempotent_witness :
  sort_by_score (sort_by_score (scored three_resorts))
  = sort_by_score (scored three_resorts).
Proof.
  apply sort_by_score_idempotent.
  apply (RankingFacts.score_all_comparable three_resorts ∅ snow_table journey_table).
  reflexivity.
Defined.

End OrchestratorFacts.

(** ** The in-memory cache *)

Module CacheFacts.

Import SimpleCache Props Samples.

Section Cache.

Context {V : Type}.
Implicit Types (st : State V) (m : gmap string (V * datetime)).

Lemma get_missing key st : store st !! key = None -> get key st = (None, st).
Proof. intros H. unfold get. unfold datetime in *. now rewrite H. Qed.

Lemma get_present key st value expiry :
  store st !! key = Some (value, expiry) ->
  get key st
  = if (Clock.peek (clock st) 0 <? expiry)%Z
    then (Some value, {| store := store st; clock := snd (Clock.now (clock st)) |})
    else (None, {| store := delete key (store st); clock := snd (Clock.now (clock st)) |}).
Proof. intros H. unfold get. unfold datetime in *. rewrite H. reflexivity. Qed.

Lemma fold_delete_none keys :
  forall m key, m !! key = None ->
    fold_left (fun m key => delete key m) keys m !! key = None.
Proof.
  induction keys as [|k keys IH]; intros m key H; cbn [fold_left]; [exact H|].
  apply IH. apply lookup_delete_None. now right.
Qed.

Lemma fold_delete_in keys :
  forall m key, In key keys ->
    fold_left (fun m key => delete key m) keys m !! key = None.
Proof.
  induction keys as [|k keys IH]; intros m key Hin; [destruct Hin|].
  cbn [fold_left]. destruct Hin as [->|Hin]; [|now apply IH].
  apply fold_delete_none, lookup_delete_eq.
Qed.

Lemma fold_delete_out keys :
  forall m key, ~ In key keys ->
    fold_left (fun m key => delete key m) keys m !! key = m !! key.
Proof.
  induction keys as [|k keys IH]; intros m key Hout; cbn [fold_left]; [reflexivity|].
  rewrite IH by (intros H; apply Hout; now right).
  apply lookup_delete_ne. intros ->. apply Hout. now left.
Qed.

Lemma fold_delete_size keys :
  forall m, NoDup keys -> (forall key, In key keys -> is_Some (m !! key)) ->
    (length keys + size (fold_left (fun m key => delete key m) keys m) = size m)%nat.
Proof.
  induction keys as [|k keys IH]; intros m Hnd Hin; cbn [fold_left length]; [reflexivity|].
  apply NoDup_cons in Hnd as [Hk Hnd].
  rewrite Nat.add_succ_l, IH.
  - destruct (Hin k (or_introl eq_refl)) as [x Hx].
    rewrite <- (insert_delete_id m k x Hx) at 2.
    rewrite map_size_insert_None by apply lookup_delete_eq. reflexivity.
  - exact Hnd.
  - intros key Hkey. rewrite lookup_delete_ne.
    + apply Hin. now right.
    + intros ->. apply Hk. now apply list_elem_of_In.
Qed.

Lemma expired_keys_In now m key :
  In key (map fst (List.filter (fun kv => (snd (snd kv) <=? now)%Z) (map_to_list m)))
  <-> exists value expiry, m !! key = Some (value, expiry) /\ (expiry <= now)%Z.
Proof.
  rewrite List.in_map_iff. split.
  - intros [[k [value expiry]] [<- H]]. apply List.filter_In in H as [H1 H2].
    apply list_elem_of_In, elem_of_map_to_list in H1. cbn in H2.
    exists value, expiry. split; [exact H1|]. now apply Z.leb_le.
  - intros [value [expiry [H1 H2]]]. exists (key, (value, expiry)). split; [reflexivity|].
    apply List.filter_In. split.
    + now apply list_elem_of_In, elem_of_map_to_list.
    + cbn. now apply Z.leb_le.
Qed.

Lemma NoDup_fst_filter (p : string * (V * datetime) -> bool) l :
  NoDup (map fst l) -> NoDup (map fst (List.filter p l)).
Proof.
  induction l as [|x l IH]; cbn [map List.filter]; [auto|].
  rewrite NoDup_cons. intros [Hx Hnd]. destruct (p x); cbn [map]; [|auto].
  apply NoDup_cons. split; [|auto].
  intros H. apply Hx. apply list_elem_of_In in H. apply list_elem_of_In.
  apply List.in_map_iff in H as [y [Hy Hin]]. apply List.in_map_iff.
  exists y. split; [exact Hy|]. now apply List.filter_In in Hin as [Hin _].
Qed.

End Cache.

(** A value stored with [set] is returned by the next [get] of its key if the
    clock then reads a time before the expiry (the time read by [set] plus the
    time to live), and otherwise is not returned and its entry is deleted;
    the entries of other keys are as they were, and a [get] of a key that has
    no entry returns nothing and changes nothing. *)
Theorem set_then_get {V : Type} (key : string) (value : V) (ttl_hours : Z) (st : State V) :
  let expiry := (Clock.peek (clock st) 0 + hours ttl_hours)%Z in
  let now := Clock.peek (clock st) 1 in
  let found := fst (get key (set key value ttl_hours st)) in
  let st' := snd (get key (set key value ttl_hours st)) in
  ((now < expiry)%Z -> found = Some value /\ store st' !! key = Some (value, expiry))
  /\ ((expiry <= now)%Z -> found = None /\ store st' !! key = None)
  /\ (forall other, other <> key -> store st' !! other = store st !! other)
  /\ (forall missing, store st' !! missing = None -> get missing st' = (None, st')).
Proof.
  cbv zeta. unfold set. cbn [Clock.now].
  rewrite (get_present key _ value
             (Clock.reading (clock st) (Clock.reads (clock st)) + hours ttl_hours)%Z)
    by (cbn; apply lookup_insert_eq).
  unfold Clock.peek. cbn [store clock Clock.reading Clock.reads Nat.add Clock.now snd].
  destruct (Z.ltb_spec (Clock.reading (clock st) (S (Clock.reads (clock st))))
              (Clock.reading (clock st) (Clock.reads (clock st)) + hours ttl_hours)%Z)
    as [Hlt|Hge]; cbn [fst snd store].
  - split; [intros _; split; [reflexivity|apply lookup_insert_eq]|].
    split; [intros H; lia|]. split.
    + intros other Hne. now apply lookup_insert_ne.
    + intros missing H. apply get_missing. exact H.
  - split; [intros H; lia|].
    split; [intros _; split; [reflexivity|apply lookup_delete_eq]|]. split.
    + intros other Hne. rewrite lookup_delete_ne by congruence.
      now apply lookup_insert_ne.
    + intros missing H. apply get_missing. exact H.
Qed.

Lemma set_then_get_witness :
  fst (get "k" (set "k" 7%Z 1 (empty_cache (V := Z)))) = Some 7%Z.
Proof.
  apply (proj1 (set_then_get "k" 7%Z 1 (empty_cache (V := Z)))). reflexivity.
Defined.

(** [cleanup] deletes exactly the entries that have expired at the time it
    reads, keeps every other entry as it is, and returns the number of
    entries it deleted. *)
Theorem cleanup_removes_expired {V : Type} (st : State V) :
  let now := Clock.peek (clock st) 0 in
  let removed := fst (cleanup st) in
  let st' := snd (cleanup st) in
  (forall key entry,
     store st' !! key = Some entry
     <-> store st !! key = Some entry /\ live now entry = true)
  /\ (removed + size (store st') = size (store st))%nat.
Proof.
  cbv zeta. unfold cleanup, Clock.peek. cbn [Clock.now fst snd store Nat.add].
  set (now := Clock.reading (clock st) (Clock.reads (clock st))).
  set (keys := map fst (List.filter (fun kv => (snd (snd kv) <=? now)%Z)
                          (map_to_list (store st)))).
  split.
  - intros key [value expiry]. unfold live. cbn [snd].
    destruct (List.in_dec String.string_dec key keys) as [Hin|Hout].
    + rewrite fold_delete_in by exact Hin.
      apply expired_keys_In in Hin as [v [e [Hv He]]].
      split; [discriminate|]. intros [H1 H2].
      assert (E : Some (v, e) = Some (value, expiry)) by (rewrite <- Hv; exact H1).
      injection E as -> ->. apply Z.ltb_lt in H2. lia.
    + rewrite fold_delete_out by exact Hout. split.
      * intros H. split; [exact H|]. apply Z.ltb_lt.
        destruct (Z.lt_ge_cases now expiry) as [Hlt|Hge]; [exact Hlt|].
        exfalso. apply Hout, expired_keys_In. eauto.
      * tauto.
  - apply fold_delete_size.
    + apply NoDup_fst_filter, NoDup_fst_map_to_list.
    + intros key Hin. apply expired_keys_In in Hin as [v [e [Hv _]]]. eauto.
Qed.

Lemma cleanup_removes_expired_witness :
  store (snd (cleanup two_entries)) !! "new" = Some (2, 50)%Z.
Proof.
  apply (proj1 (cleanup_removes_expired two_entries)). split; reflexivity.
Defined.

End CacheFacts.

(** ** Journeys and the cache *)

Module JourneyCacheFacts.

Import TransportService Props Samples.

Lemma length_append (a b : string) :
  String.length (a +:+ b) = (String.length a + String.length b)%nat.
Proof.
  induction a as [|x a IH]; [reflexivity|].
  change (S (String.length (a +:+ b)) = S (String.length a + String.length b)).
  now rewrite IH.
Qed.

Lemma append_inv_head (a x y : string) : a +:+ x = a +:+ y -> x = y.
Proof.
  induction a as [|c a IH]; [auto|].
  change (String c (a +:+ x) = String c (a +:+ y) -> x = y).
  intros H. injection H as H. auto.
Qed.

Lemma append_inv_tail (b : string) : forall x y, x +:+ b = y +:+ b -> x = y.
Proof.
  induction x as [|c x IH]; intros [|c' y] H.
  - reflexivity.
  - apply (f_equal String.length) in H. rewrite !length_append in H.
    cbn [String.length] in H. lia.
  - apply (f_equal String.length) in H. rewrite !length_append in H.
    cbn [String.length] in H. lia.
  - change (String c (x +:+ b) = String c' (y +:+ b)) in H.
    injection H as -> H. f_equal. now apply IH.
Qed.

Section Service.

Variable isoformat : date -> string.
Variable transport_cache_hours : Z.

(** Distinct destinations have distinct cache keys. *)
Lemma cache_key_inj from_location to1 to2 travel_date :
  cache_key isoformat from_location to1 travel_date
  = cache_key isoformat from_location to2 travel_date ->
  to1 = to2.
Proof.
  unfold cache_key. intros H.
  apply append_inv_head, append_inv_head, append_inv_head in H.
  now apply append_inv_tail in H.
Qed.

Lemma get_journey_miss api from_location to_location travel_date w j :
  SimpleCache.store (cache w) !! cache_key isoformat from_location to_location travel_date
    = None ->
  api from_location to_location travel_date = Returned (Some j) ->
  get_journey api isoformat true transport_cache_hours from_location to_location
    travel_date w
  = (Some (length (heap w)),
     {| heap := heap w ++ [j];
        cache :=
          {| SimpleCache.store :=
               <[cache_key isoformat from_location to_location travel_date :=
                   (length (heap w),
                    (Clock.peek (SimpleCache.clock (cache w)) 0
                     + SimpleCache.hours transport_cache_hours)%Z)]>
                 (SimpleCache.store (cache w));
             SimpleCache.clock := snd (Clock.now (SimpleCache.clock (cache w))) |} |}).
Proof.
  intros Hkey Hapi. unfold get_journey, cache_get.
  rewrite (CacheFacts.get_missing _ _ Hkey), Hapi. destruct w as [h c]. reflexivity.
Qed.

Lemma get_journey_nothing api from_location to_location travel_date w :
  SimpleCache.store (cache w) !! cache_key isoformat from_location to_location travel_date
    = None ->
  WeatherService.raises (api from_location to_location travel_date) = true
  \/ api from_location to_location travel_date = Returned None ->
  get_journey api isoformat true transport_cache_hours from_location to_location
    travel_date w
  = (None, w).
Proof.
  intros Hkey Hapi. unfold get_journey, cache_get.
  rewrite (CacheFacts.get_missing _ _ Hkey). destruct w as [h c]. cbn.
  destruct (api from_location to_location travel_date) as [[j|]|e];
    [|reflexivity|reflexivity].
  destruct Hapi as [Hapi|Hapi]; discriminate.
Qed.

Lemma get_journey_hit api from_location to_location travel_date w addr expiry :
  SimpleCache.store (cache w) !! cache_key isoformat from_location to_location travel_date
    = Some (addr, expiry) ->
  (Clock.peek (SimpleCache.clock (cache w)) 0 < expiry)%Z ->
  get_journey api isoformat true transport_cache_hours from_location to_location
    travel_date w
  = (Some addr,
     {| heap := heap w;
        cache := {| SimpleCache.store := SimpleCache.store (cache w);
                    SimpleCache.clock := snd (Clock.now (SimpleCache.clock (cache w))) |} |}).
Proof.
  intros Hkey Hlive. unfold get_journey, cache_get.
  rewrite (CacheFacts.get_present _ _ _ _ Hkey).
  apply Z.ltb_lt in Hlive. rewrite Hlive. reflexivity.
Qed.

Lemma get_journey_stale api from_location to_location travel_date w addr expiry :
  SimpleCache.store (cache w) !! cache_key isoformat from_location to_location travel_date
    = Some (addr, expiry) ->
  (expiry <= Clock.peek (SimpleCache.clock (cache w)) 0)%Z ->
  WeatherService.raises (api from_location to_location travel_date) = true
  \/ api from_location to_location travel_date = Returned None ->
  fst (get_journey api isoformat true transport_cache_hours from_location to_location
         travel_date w) = None.
Proof.
  intros Hkey Hstale Hapi. unfold get_journey, cache_get.
  rewrite (CacheFacts.get_present _ _ _ _ Hkey).
  apply Z.ltb_ge in Hstale. rewrite Hstale.
  destruct (api from_location to_location travel_date) as [[j|]|e];
    [|reflexivity|reflexivity].
  destruct Hapi as [Hapi|Hapi]; discriminate.
Qed.

End Service.

(** A journey fetched once is served from the cache while its entry is live:
    the second [get_journey] for the same route returns the very same journey
    object without consulting the connections API, whatever that API would
    now answer, and adds nothing to the heap; once the entry has expired a
    failing API leaves the caller with nothing. *)
Theorem get_journey_served_from_cache
    (api api' : string -> string -> date -> Outcome (option Journey))
    (isoformat : date -> string) (transport_cache_hours : Z)
    (from_location to_location : string) (travel_date : date) (w : World) (j : Journey) :
  let first :=
    get_journey api isoformat true transport_cache_hours from_location to_location
      travel_date w in
  let second :=
    get_journey api' isoformat true transport_cache_hours from_location to_location
      travel_date (snd first) in
  let expiry :=
    (Clock.peek (SimpleCache.clock (cache w)) 0
     + SimpleCache.hours transport_cache_hours)%Z in
  SimpleCache.store (cache w) !! cache_key isoformat from_location to_location travel_date
    = None ->
  api from_location to_location travel_date = Returned (Some j) ->
  fst first = Some (length (heap w))
  /\ journey_at (snd first) (length (heap w)) = Some j
  /\ ((Clock.peek (SimpleCache.clock (cache w)) 1 < expiry)%Z ->
      fst second = fst first
      /\ heap (snd second) = heap (snd first)
      /\ SimpleCache.store (cache (snd second)) = SimpleCache.store (cache (snd first)))
  /\ ((expiry <= Clock.peek (SimpleCache.clock (cache w)) 1)%Z ->
      WeatherService.raises (api' from_location to_location travel_date) = true ->
      fst second = None).
Proof.
  intros first second expiry Hkey Hapi. subst first second expiry.
  rewrite (get_journey_miss _ _ _ _ _ _ _ _ Hkey Hapi). cbn [fst snd].
  split; [reflexivity|]. split.
  { unfold journey_at. cbn [heap]. rewrite lookup_app_r by lia.
    now rewrite Nat.sub_diag. }
  split.
  - intros Hlive. erewrite get_journey_hit.
    + cbn [fst snd heap cache SimpleCache.store]. auto.
    + cbn [cache SimpleCache.store]. apply lookup_insert_eq.
    + exact Hlive.
  - intros Hstale Hdown. eapply get_journey_stale.
    + cbn [cache SimpleCache.store]. apply lookup_insert_eq.
    + exact Hstale.
    + now left.
Qed.

Lemma get_journey_served_from_cache_witness :
  fst (get_journey connections_down str_of_int true 24 "Geneva" "Foxtrot Gare" 0%Z
         (snd (get_journey station_only str_of_int true 24 "Geneva" "Foxtrot Gare" 0%Z
                 fresh_world)))
  = fst (get_journey station_only str_of_int true 24 "Geneva" "Foxtrot Gare" 0%Z
           fresh_world).
Proof.
  apply (proj1 (proj2 (proj2 (get_journey_served_from_cache station_only connections_down
                                str_of_int 24 "Geneva" "Foxtrot Gare" 0%Z fresh_world
                                (journey_of 100 1) eq_refl eq_refl)))).
  reflexivity.
Defined.

(** The postbus minutes are added to the journey object itself, which is the
    object the cache holds: when a resort is reached through its station and
    the cache is enabled, a second [get_resort_journey] within the time to
    live returns the same journey with the postbus minutes added a second
    time.  With the cache disabled the second call fetches a fresh journey
    and adds them once. *)
Theorem postbus_minutes_compound_on_cached_journey
    (api : string -> string -> date -> Outcome (option Journey))
    (isoformat : date -> string) (transport_cache_hours : Z)
    (from_location : string) (r : Resort) (travel_date : date)
    (w : World) (j : Journey) (p : Z) :
  let station := nearest_station (access r) in
  let cached_first :=
    get_resort_journey api isoformat true transport_cache_hours from_location r
      travel_date w in
  let cached_second :=
    get_resort_journey api isoformat true transport_cache_hours from_location r
      travel_date (snd cached_first) in
  let fresh_first :=
    get_resort_journey api isoformat false transport_cache_hours from_location r
      travel_date w in
  let fresh_second :=
    get_resort_journey api isoformat false transport_cache_hours from_location r
      travel_date (snd fresh_first) in
  let addr := length (heap w) in
  SimpleCache.store (cache w) !! cache_key isoformat from_location (name r) travel_date
    = None ->
  SimpleCache.store (cache w) !! cache_key isoformat from_location station travel_date
    = None ->
  api from_location (name r) travel_date = Returned None ->
  truthy_str station = true ->
  api from_location station travel_date = Returned (Some j) ->
  postbus_duration_minutes (access r) = Some p -> p <> 0%Z ->
  (Clock.peek (SimpleCache.clock (cache w)) 1
   < Clock.peek (SimpleCache.clock (cache w)) 0
     + SimpleCache.hours transport_cache_hours)%Z ->
  (fst cached_first = Some addr
   /\ journey_at (snd cached_first) addr = Some (add_minutes p j))
  /\ (fst cached_second = Some addr
      /\ journey_at (snd cached_second) addr = Some (add_minutes p (add_minutes p j))
      /\ duration_minutes (add_minutes p (add_minutes p j))
         = (duration_minutes j + 2 * p)%Z)
  /\ (fst fresh_second = Some (S addr)
      /\ journey_at (snd fresh_second) (S addr) = Some (add_minutes p j)).
Proof.
  intros station cached_first cached_second fresh_first fresh_second addr
    Hname Hstation Hapi_name Hst Hapi_station Hp Hp0 Hlive.
  assert (Hne : cache_key isoformat from_location (name r) travel_date
                <> cache_key isoformat from_location station travel_date).
  { intros E. apply cache_key_inj in E. rewrite E in Hapi_name.
    fold station in Hapi_name. rewrite Hapi_name in Hapi_station. discriminate. }
  assert (Hp0' : (p =? 0)%Z = false) by now apply Z.eqb_neq.
  assert (Halter : forall (h : list Journey) x,
             alter (add_minutes p) (length h) (h ++ [x]) !! length h
             = Some (add_minutes p x)).
  { intros h x. rewrite list_lookup_alter_eq, lookup_app_r by lia.
    now rewrite Nat.sub_diag. }
  (* the first call with the cache *)
  assert (E1 : cached_first
               = (Some addr,
                  {| heap := alter (add_minutes p) addr (heap w ++ [j]);
                     cache :=
                       {| SimpleCache.store :=
                            <[cache_key isoformat from_location station travel_date :=
                                (addr,
                                 (Clock.peek (SimpleCache.clock (cache w)) 0
                                  + SimpleCache.hours transport_cache_hours)%Z)]>
                              (SimpleCache.store (cache w));
                          SimpleCache.clock :=
                            snd (Clock.now (SimpleCache.clock (cache w))) |} |})).
  { subst cached_first. unfold get_resort_journey.
    rewrite (get_journey_nothing _ _ _ _ _ _ _ Hname (or_intror Hapi_name)).
    fold station. rewrite Hst.
    rewrite (get_journey_miss _ _ _ _ _ _ _ _ Hstation Hapi_station).
    rewrite Hp. cbn [truthy_int]. rewrite Hp0'. reflexivity. }
  split.
  { rewrite E1. cbn [fst snd]. split; [reflexivity|].
    unfold journey_at. cbn [heap]. apply Halter. }
  split.
  - subst cached_second. rewrite E1. cbn [snd]. unfold get_resort_journey.
    rewrite get_journey_nothing;
      [|cbn [cache SimpleCache.store];
        rewrite lookup_insert_ne by (intros E; apply Hne; now rewrite E); exact Hname
       |now right].
    fold station. rewrite Hst.
    erewrite get_journey_hit;
      [|cbn [cache SimpleCache.store]; apply lookup_insert_eq|exact Hlive].
    rewrite Hp. cbn [truthy_int]. rewrite Hp0'. cbn [negb fst snd heap set_heap].
    split; [reflexivity|]. split; [|cbn; lia].
    unfold journey_at, set_heap. cbn [heap].
    subst addr. rewrite list_lookup_alter_eq, Halter. reflexivity.
  - (* without the cache every call asks the API again *)
    assert (F : forall w0,
              get_resort_journey api isoformat false transport_cache_hours from_location r
                travel_date w0
              = (Some (length (heap w0)),
                 set_heap (alter (add_minutes p) (length (heap w0)) (heap w0 ++ [j])) w0)).
    { intros w0. unfold get_resort_journey, get_journey.
      rewrite Hapi_name. fold station. rewrite Hst, Hapi_station, Hp.
      cbn [truthy_int]. rewrite Hp0'. destruct w0. reflexivity. }
    subst fresh_second fresh_first. rewrite (F w). cbn [snd]. rewrite F.
    cbn [fst snd]. unfold journey_at, set_heap. cbn [heap].
    set (h1 := alter (add_minutes p) (length (heap w)) (heap w ++ [j])).
    assert (Hlen : length h1 = S addr).
    { subst h1 addr. rewrite length_alter, length_app. cbn [length]. lia. }
    rewrite Hlen. split; [reflexivity|]. rewrite <- Hlen. apply Halter.
Qed.

Lemma postbus_minutes_compound_on_cached_journey_witness :
  journey_at
    (snd (get_resort_journey station_only str_of_int true 24 "Geneva" foxtrot 0%Z
            (snd (get_resort_journey station_only str_of_int true 24 "Geneva" foxtrot 0%Z
                    fresh_world))))
    0
  = Some (add_minutes 20 (add_minutes 20 (journey_of 100 1))).
Proof.
  apply (proj1 (proj2 (proj1 (proj2
           (postbus_minutes_compound_on_cached_journey station_only str_of_int 24 "Geneva"
              foxtrot 0%Z fresh_world (journey_of 100 1) 20%Z
              eq_refl eq_refl eq_refl eq_refl eq_refl eq_refl ltac:(discriminate)
              eq_refl))))).
Defined.

End JourneyCacheFacts.

(** ** A single forecast *)

Module ForecastFacts.

Import WeatherService Props Samples.



(** A forecast fetched once is served from the cache while its entry is live,
    without consulting the forecast API again; once the entry has expired the
    API is consulted again, and if it fails then, the forecast is absent. *)
Theorem get_forecast_served_from_cache
    (api api' : float -> float -> date -> Outcome (option WeatherForecast))
    (isoformat : date -> string) (weather_cache_hours : Z)
    (lat lon : float) (target_date : date) (st : SimpleCache.State WeatherForecast)
    (forecast : WeatherForecast) :
  let first := get_forecast api isoformat true weather_cache_hours lat lon target_date st in
  let second :=
    get_forecast api' isoformat true weather_cache_hours lat lon target_date (snd first) in
  let expiry :=
    (Clock.peek (SimpleCache.clock st) 0 + SimpleCache.hours weather_cache_hours)%Z in
  SimpleCache.store st !! cache_key isoformat lat lon target_date = None ->
  api lat lon target_date = Returned (Some forecast) ->
  fst first = Some forecast
  /\ ((Clock.peek (SimpleCache.clock st) 1 < expiry)%Z ->
      fst second = Some forecast
      /\ SimpleCache.store (snd second) = SimpleCache.store (snd first))
  /\ ((expiry <= Clock.peek (SimpleCache.clock st) 1)%Z ->
      WeatherService.raises (api' lat lon target_date) = true ->
      fst second = None).
Proof.
  intros first second expiry Hkey Hapi.
  assert (E1 : first
               = (Some forecast,
                  SimpleCache.set (cache_key isoformat lat lon target_date) forecast
                    weather_cache_hours st)).
  { subst first. unfold get_forecast.
    rewrite (CacheFacts.get_missing _ _ Hkey), Hapi. reflexivity. }
  subst second. rewrite E1. cbn [fst snd]. split; [reflexivity|].
  unfold get_forecast.
  rewrite (CacheFacts.get_present _ _ forecast expiry)
    by (unfold SimpleCache.set; cbn; apply lookup_insert_eq).
  change (Clock.peek (SimpleCache.clock
            (SimpleCache.set (cache_key isoformat lat lon target_date) forecast
               weather_cache_hours st)) 0)
    with (Clock.peek (SimpleCache.clock st) 1).
  destruct (Z.ltb_spec (Clock.peek (SimpleCache.clock st) 1) expiry) as [Hlt|Hge].
  - split; [intros _; split; reflexivity|]. intros H. lia.
  - split; [intros H; lia|]. intros _ Hdown.
    destruct (api' lat lon target_date) as [[f|]|e]; [discriminate|discriminate|reflexivity].
Qed.

Lemma get_forecast_served_from_cache_witness :
  fst (get_forecast forecast_down str_of_int true 6 46.1 7.0 0%Z
         (snd (get_forecast forecast_up str_of_int true 6 46.1 7.0 0%Z empty_cache)))
  = Some clear_cold.
Proof.
  apply (proj1 (proj2 (get_forecast_served_from_cache forecast_up forecast_down str_of_int 6
                         46.1 7.0 0%Z empty_cache clear_cold eq_refl eq_refl))).
  reflexivity.
Defined.

Lemma fetch_raises_with_broken_callback
    (get_forecast : float -> float -> date -> Outcome (option WeatherForecast))
    (on_progress : option (Z -> Z -> Outcome unit)) (target_date : date)
    total r completed :
  progress_always_raises on_progress ->
  WeatherService.raises (fst (fetch_with_progress get_forecast on_progress target_date total r completed))
  = true.
Proof.
  intros Hbroken. unfold fetch_with_progress.
  destruct (get_forecast _ _ _); [|reflexivity].
  destruct on_progress as [callback|]; [|destruct Hbroken].
  specialize (Hbroken (completed + 1)%Z total).
  destruct (callback (completed + 1)%Z total); [discriminate|reflexivity].
Qed.

Lemma fold_store_raised_only results :
  forall m, List.Forall (fun result => raises result = true) results ->
    fold_left store results m = m.
Proof.
  induction results as [|result results IH]; intros m H; cbn [fold_left]; [reflexivity|].
  inversion H as [|? ? Hr Hrs]; subst. rewrite IH by exact Hrs.
  destruct result as [[k v]|e]; [discriminate|reflexivity].
Qed.

(** A progress callback that raises takes the forecasts down with it: the
    callback runs inside each per-resort task after the fetch, so when it
    raises on every call the batch returns an empty mapping, whatever the
    fetches returned. *)
Theorem broken_progress_callback_empties_batch
    (get_forecast : float -> float -> date -> Outcome (option WeatherForecast))
    (on_progress : option (Z -> Z -> Outcome unit)) (target_date : date)
    (resorts : list Resort) :
  progress_always_raises on_progress ->
  get_forecasts_batch get_forecast on_progress target_date resorts = ∅.
Proof.
  intros Hbroken. unfold get_forecasts_batch. apply fold_store_raised_only.
  generalize (Z.of_nat (length resorts)) 0%Z. intros total.
  induction resorts as [|r resorts IH]; intros completed; cbn [gather]; [constructor|].
  pose proof (fetch_raises_with_broken_callback get_forecast on_progress target_date
                total r completed Hbroken) as Hr.
  destruct (fetch_with_progress _ _ _ total r completed) as [result completed'].
  constructor; [exact Hr|apply IH].
Qed.

Lemma broken_progress_callback_empties_batch_witness :
  get_forecasts_batch steady_forecast (Some broken_callback) 0%Z five_resorts = ∅.
Proof.
  apply broken_progress_callback_empties_batch. intros c t. reflexivity.
Defined.

Lemma whole_degrees_ok d : (0 <= d < 361)%Z -> direction_ok d = true.
Proof.
  intros H. apply (ScoringFacts.in_minutes_from 0 361) in H.
  revert d H. apply List.forallb_forall. vm_compute. reflexivity.
Qed.

(** [_degrees_to_direction] puts every whole number of degrees from 0 to 360
    in the 45-degree compass sector centred on its direction, 360 wrapping
    round to north; whenever it returns, it returns one of the eight
    directions; NaN and the infinities make it raise. *)
Theorem degrees_to_direction_sectors (d : Z) (x : float) :
  ((0 <= d <= 360)%Z -> _degrees_to_direction (whole_degrees d) = Returned (sector d))
  /\ (forall direction, _degrees_to_direction x = Returned direction ->
        In direction directions)
  /\ _degrees_to_direction nan = Raised "ValueError"
  /\ _degrees_to_direction infinity = Raised "OverflowError"
  /\ sector 0 = "N" /\ sector 22 = "N" /\ sector 23 = "NE" /\ sector 360 = "N".
Proof.
  split; [|split; [|repeat split; vm_compute; reflexivity]].
  - intros H. assert (Hok : direction_ok d = true) by (apply whole_degrees_ok; lia).
    unfold direction_ok in Hok.
    destruct (_degrees_to_direction (whole_degrees d)) as [direction|e]; [|discriminate].
    apply String.eqb_eq in Hok. now rewrite Hok.
  - intros direction. unfold _degrees_to_direction.
    destruct (round_int (x / 45)%float) as [idx|e]; cbn [bind]; [|discriminate].
    intros H. injection H as <-.
    assert (Hb : (0 <= idx mod 8 < 8)%Z) by (apply Z.mod_pos_bound; lia).
    change (In (nth (Z.to_nat (idx mod 8)) directions "") directions).
    apply List.nth_In. change (length directions) with 8%nat. lia.
Qed.

Lemma degrees_to_direction_sectors_witness :
  _degrees_to_direction (whole_degrees 360) = Returned "N".
Proof.
  apply (proj1 (degrees_to_direction_sectors 360 0%float)). lia.
Defined.

End ForecastFacts.

(** ** Snow conditions from Open-Meteo *)

Module SnowFacts.

Import ScoringEngine SnowService Props Samples.
Local Open Scope float_scope.

Lemma determine_snow_quality_derived b f w :
  In (_determine_snow_quality b f w) derived_qualities.
Proof.
  unfold _determine_snow_quality.
  repeat match goal with
  | |- context [if ?c then _ else _] => destruct c
  end; cbn; tauto.
Qed.

Lemma positive_or_none_positive o : positive_if_present (positive_or_none o).
Proof.
  unfold positive_or_none, int_and, positive_if_present.
  destruct o as [m|]; [|discriminate].
  destruct (truthy_int (Some m) && (0 <? m)%Z) eqn:E; [|discriminate].
  intros n H. injection H as <-. apply andb_prop in E as [_ E]. now apply Z.ltb_lt.
Qed.

(** With a derived quality label the quality step never takes anything
    off. *)
Lemma snow_quality_adjust_derived c st :
  In (snow_quality c) derived_qualities ->
  In (acc_score (snow_quality_adjust c st))
    [acc_score st + 1.5; acc_score st + 0.5; acc_score st].
Proof.
  unfold snow_quality_adjust, derived_qualities. cbn [In].
  intros [<-|[<-|[<-|[<-|[<-|[]]]]]]; cbn; tauto.
Qed.

(** Case analysis on membership in a closed list. *)
Ltac cases H :=
  cbn [In] in H;
  repeat (destruct H as [H|H]; [rewrite <- H; clear H | ]); try contradiction.

Lemma derived_conditions_score c :
  In (snow_quality c) derived_qualities ->
  (3 <=? score_of (score_snow (Some c))) = true.
Proof.
  intros Hq. unfold score_snow, finish, score_of; cbn [fst].
  pose proof (ScoringFacts.snow_base_depth_score c (start 5.0)) as H1.
  set (s1 := snow_base_depth c (start 5.0)) in *.
  pose proof (ScoringFacts.snow_fresh_24h_score c s1) as H2.
  set (s2 := snow_fresh_24h c s1) in *.
  pose proof (ScoringFacts.snow_week_score c s2) as H3.
  set (s3 := snow_week c s2) in *.
  pose proof (snow_quality_adjust_derived c s3 Hq) as H4.
  set (s4 := snow_quality_adjust c s3) in *.
  clearbody s1 s2 s3 s4.
  change (acc_score (start 5.0)) with 5.0 in H1.
  revert H2 H3 H4.
  generalize (acc_score s4) (acc_score s3) (acc_score s2).
  generalize dependent (acc_score s1).
  intros v1 H1 v4 v3 v2 H2 H3 H4.
  cases H4; cases H3; cases H2; cases H1; vm_compute; reflexivity.
Qed.

(** What [_parse_open_meteo_data] makes of the three metrics read off the
    response: nothing exactly when none of them is a non-zero number;
    otherwise conditions for the resort, stamped with the current time, whose
    depth and snowfall figures are each absent or strictly positive, without
    summit depth, lift or run counts, with one of the five derived quality
    labels, and which [score_snow] scores at 3.0 or more, above the 2.5 that
    absent snow data gets. *)
Theorem open_meteo_conditions_usable
    (rid : string) (now : datetime) (base fresh week : option Z) :
  (open_meteo_conditions rid now base fresh week = None
   <-> truthy_int base = false /\ truthy_int fresh = false /\ truthy_int week = false)
  /\ (forall c,
        open_meteo_conditions rid now base fresh week = Some c ->
        resort_id c = rid /\ date_updated c = now
        /\ positive_if_present (snow_base c)
        /\ positive_if_present (new_snow_24h c)
        /\ positive_if_present (new_snow_7d c)
        /\ snow_summit c = None /\ lifts_open c = None /\ runs_open c = None
        /\ snow_quality c = _determine_snow_quality base fresh week
        /\ In (snow_quality c) derived_qualities
        /\ (3 <=? score_of (score_snow (Some c))) = true
        /\ (score_of (score_snow None) <? score_of (score_snow (Some c))) = true).
Proof.
  unfold open_meteo_conditions. cbn [existsb].
  destruct (truthy_int base) eqn:Eb, (truthy_int fresh) eqn:Ef, (truthy_int week) eqn:Ew;
    cbn [orb].
  8: { split; [tauto|discriminate]. }
  all: split; [split; [discriminate|intros [? [? ?]]; discriminate]|].
  all: intros c H; injection H as <-;
    cbn [resort_id date_updated snow_base new_snow_24h new_snow_7d snow_summit lifts_open
         runs_open snow_quality];
    pose proof (determine_snow_quality_derived base fresh week) as Hq;
    repeat (split; [first [reflexivity | apply positive_or_none_positive | exact Hq]|]).
  all: match goal with
       | |- (3 <=? score_of (score_snow (Some ?c))) = true /\ _ =>
           pose proof (derived_conditions_score c Hq) as Hs; split; [exact Hs|];
           exact (FloatFacts.ltb_leb_trans 2.5 3 _ eq_refl Hs)
       end.
Qed.

Lemma open_meteo_conditions_usable_witness :
  exists c,
    open_meteo_conditions "delta" 0%Z (Some (-4)%Z) None (Some 2%Z) = Some c
    /\ snow_base c = None /\ new_snow_7d c = Some 2%Z
    /\ (3 <=? score_of (score_snow (Some c))) = true.
Proof.
  eexists. split; [reflexivity|]. split; [reflexivity|]. split; [reflexivity|].
  apply (proj2 (open_meteo_conditions_usable "delta" 0%Z (Some (-4)%Z) None (Some 2%Z))).
  reflexivity.
Defined.

(** The two sources are asked in order: Open-Meteo only when the resort has
    no snow-forecast slug or snow-forecast has nothing.  What is found is
    cached and served again, while the entry is live, without asking any
    source; when nothing is found nothing is cached. *)
Theorem get_conditions_asks_in_order {W : Type}
    (snow_forecast open_meteo later_snow_forecast later_open_meteo :
       Resort -> W -> option SnowConditions * W)
    (snow_cache_hours : Z) (resort : Resort)
    (c : SimpleCache.State SnowConditions) (w : W) :
  let key := "snow:" +:+ id resort in
  let first := get_conditions snow_forecast open_meteo true snow_cache_hours resort c w in
  let second :=
    get_conditions later_snow_forecast later_open_meteo true snow_cache_hours resort
      (snd (fst first)) (snd first) in
  SimpleCache.store c !! key = None ->
  (forall found w1,
     truthy_slug (snow_forecast_slug resort) = true ->
     snow_forecast resort w = (Some found, w1) ->
     first = (Some found, SimpleCache.set key found snow_cache_hours c, w1))
  /\ (truthy_slug (snow_forecast_slug resort) = false ->
      fst (fst first) = fst (open_meteo resort w)
      /\ snd first = snd (open_meteo resort w))
  /\ (forall w1,
        truthy_slug (snow_forecast_slug resort) = true ->
        snow_forecast resort w = (None, w1) ->
        fst (fst first) = fst (open_meteo resort w1)
        /\ snd first = snd (open_meteo resort w1))
  /\ (fst (fst first) = None -> snd (fst first) = c)
  /\ (forall found,
        fst (fst first) = Some found ->
        (Clock.peek (SimpleCache.clock c) 1
         < Clock.peek (SimpleCache.clock c) 0 + SimpleCache.hours snow_cache_hours)%Z ->
        fst (fst second) = Some found /\ snd second = snd first).
Proof.
  intros key first second Hkey.
  assert (E : first
              = let '(conditions, w1) :=
                  if truthy_slug (snow_forecast_slug resort)
                  then snow_forecast resort w else (None, w) in
                let '(conditions, w2) :=
                  match conditions with
                  | Some found => (Some found, w1)
                  | None => open_meteo resort w1
                  end in
                match conditions with
                | Some found =>
                    (Some found, SimpleCache.set key found snow_cache_hours c, w2)
                | None => (None, c, w2)
                end).
  { subst first. unfold get_conditions. fold key.
    rewrite (CacheFacts.get_missing _ _ Hkey). reflexivity. }
  split; [|split; [|split; [|split]]].
  - intros found w1 Hslug Hsf. rewrite E, Hslug, Hsf. reflexivity.
  - intros Hslug. rewrite E, Hslug.
    destruct (open_meteo resort w) as [[found|] w2]; split; reflexivity.
  - intros w1 Hslug Hsf. rewrite E, Hslug, Hsf.
    destruct (open_meteo resort w1) as [[found|] w2]; split; reflexivity.
  - rewrite E. destruct (truthy_slug (snow_forecast_slug resort)).
    + destruct (snow_forecast resort w) as [[found|] w1]; [discriminate|].
      destruct (open_meteo resort w1) as [[found|] w2]; [discriminate|reflexivity].
    + destruct (open_meteo resort w) as [[found|] w2]; [discriminate|reflexivity].
  - intros found Hfound Hlive.
    assert (E' : first = (Some found, SimpleCache.set key found snow_cache_hours c,
                          snd first)).
    { revert Hfound. rewrite E. destruct (truthy_slug (snow_forecast_slug resort)).
      - destruct (snow_forecast resort w) as [[f1|] w1].
        + intros H. injection H as <-. reflexivity.
        + destruct (open_meteo resort w1) as [[f2|] w2]; [|discriminate].
          intros H. injection H as <-. reflexivity.
      - destruct (open_meteo resort w) as [[f2|] w2]; [|discriminate].
        intros H. injection H as <-. reflexivity. }
    subst second. rewrite E'. cbn [fst snd]. unfold get_conditions. fold key.
    rewrite (CacheFacts.get_present _ _ found
               (Clock.peek (SimpleCache.clock c) 0 + SimpleCache.hours snow_cache_hours)%Z)
      by (unfold SimpleCache.set; cbn; apply lookup_insert_eq).
    change (Clock.peek (SimpleCache.clock (SimpleCache.set key found snow_cache_hours c)) 0)
      with (Clock.peek (SimpleCache.clock c) 1).
    apply Z.ltb_lt in Hlive. rewrite Hlive. split; reflexivity.
Qed.

Lemma get_conditions_asks_in_order_witness :
  fst (fst (get_conditions snow_forecast_silent snow_forecast_silent true 6 alpha
              (snd (fst (get_conditions snow_forecast_silent open_meteo_answers true 6
                           alpha empty_cache 0%nat)))
              (snd (get_conditions snow_forecast_silent open_meteo_answers true 6 alpha
                      empty_cache 0%nat))))
  = Some thin_cover.
Proof.
  apply (proj2 (proj2 (proj2 (proj2
           (get_conditions_asks_in_order snow_forecast_silent open_meteo_answers
              snow_forecast_silent snow_forecast_silent 6 alpha empty_cache 0%nat
              eq_refl)))) thin_cover eq_refl).
  reflexivity.
Defined.

End SnowFacts.

(** ** The progress tracker *)

Module ProgressFacts.

Import Progress Props Samples.

Lemma run_extends call t : extends (queue t) (queue (run call t)).
Proof.
  destruct call as [stage message total|current total|]; cbn [run].
  - unfold set_stage. cbn [queue]. now eexists.
  - unfold increment. destruct (_current_stage t); cbn [queue]; [now eexists|].
    exists []. now rewrite app_nil_r.
  - unfold complete. cbn [queue]. now eexists.
Qed.

Lemma run_length call t :
  (length (queue (run call t)) <= S (length (queue t)))%nat
  /\ (_current_stage t <> None -> length (queue (run call t)) = S (length (queue t)))
  /\ (_current_stage t <> None -> _current_stage (run call t) <> None).
Proof.
  destruct call as [stage message total|current total|]; cbn [run].
  - unfold set_stage. cbn [queue _current_stage]. rewrite length_app. cbn [length].
    repeat split; try lia. discriminate.
  - unfold increment. destruct (_current_stage t) eqn:E;
      cbn [queue _current_stage]; rewrite ?length_app; cbn [length].
    + repeat split; try lia. discriminate.
    + repeat split; try lia; intros H; now contradiction H.
  - unfold complete. cbn [queue _current_stage]. rewrite length_app. cbn [length].
    repeat split; try lia. auto.
Qed.

(** Updates are only ever appended: after any sequence of calls the queue
    still starts with what it held before, and holds at most one more update
    per call, exactly one per call once a stage has been set.  An increment
    before any stage is set adds nothing; [complete] does not clear the
    stage, so an increment that arrives after it still adds an update that
    carries the old stage, after the final one. *)
Theorem updates_are_only_appended (calls : list Call) (t : ProgressTracker) :
  extends (queue t) (queue (run_all calls t))
  /\ (length (queue (run_all calls t)) <= length (queue t) + length calls)%nat
  /\ (_current_stage t <> None ->
      length (queue (run_all calls t)) = (length (queue t) + length calls)%nat)
  /\ (forall current total, run (Increment current total) new_tracker = new_tracker)
  /\ (forall stage current total,
        _current_stage t = Some stage ->
        queue (run (Increment current total) (run Complete t))
        = queue t
            ++ [{| stage := COMPLETE; message := "Complete!"; current := 0; total := 0 |};
                {| stage := stage; message := increment_message stage current total;
                   current := current; total := total |}]).
Proof.
  split; [|split; [|split; [|split]]].
  - revert t. induction calls as [|call calls IH]; intros t; cbn [run_all fold_left].
    + exists []. now rewrite app_nil_r.
    + destruct (run_extends call t) as [a Ha]. destruct (IH (run call t)) as [b Hb].
      unfold run_all in Hb. rewrite Hb, Ha. exists (a ++ b). now rewrite app_assoc.
  - revert t. induction calls as [|call calls IH]; intros t; cbn [run_all fold_left length].
    + lia.
    + specialize (IH (run call t)). unfold run_all in IH.
      pose proof (run_length call t) as [H _]. lia.
  - revert t. induction calls as [|call calls IH]; intros t Hs;
      cbn [run_all fold_left length].
    + lia.
    + pose proof (run_length call t) as [_ [H1 H2]].
      specialize (IH (run call t) (H2 Hs)). unfold run_all in IH. rewrite IH, (H1 Hs). lia.
  - reflexivity.
  - intros stage current total Hs. cbn [run]. unfold increment, complete.
    cbn [_current_stage queue]. rewrite Hs. cbn [queue].
    now rewrite <- app_assoc.
Qed.

Lemma updates_are_only_appended_witness :
  length (queue (run_all [Increment 1 3; Complete]
                   (run (SetStage FETCHING_WEATHER "Fetching weather" 3) new_tracker)))
  = 3%nat.
Proof.
  apply (proj1 (proj2 (proj2
           (updates_are_only_appended [Increment 1 3; Complete]
              (run (SetStage FETCHING_WEATHER "Fetching weather" 3) new_tracker))))).
  discriminate.
Defined.

End ProgressFacts.
